(** * Render coordination and fan-out of the pixlet preview server

    A shallow embedding of [server/loader/loader.go] (the render
    coordinator and the on-demand gateway) and of the websocket side of
    [server/browser] (the update watcher and the websocket handler), with
    the properties of the design document stated over it.  The rest of
    the two packages follows: [GetSchema] and [CallSchemaHandler], the
    HTTP handlers and the served path of [NewBrowser], and with them the
    icon component of the schema form ([features/schema/FieldIcon.jsx]).

    Conventions.
    - A Go [string] and a Go [[]byte] are both byte sequences: [string].
    - A Go [int] is a 64-bit two's-complement integer held in [Z]; the one
      place where the source multiplies it ([time.Duration] arithmetic) has
      its wrap-around written out.
    - [map[string]string] is [gmap string string].
    - A Go [error] is a value of [Go.error]; [nil] is [None].
    - A pointer receiver [l *Loader] is explicit state passing.
    - The packages the loader calls into but that are outside these files
      ([runtime], [encode], the file systems, [encoding/json]) are the
      fields of the class [Runtime]; [log.Printf] output is not modelled. *)

From Stdlib Require Import ZArith String Ascii List Bool Lia.
From stdpp Require Import base option list gmap strings pretty sorting.

Local Open Scope Z_scope.
Local Open Scope string_scope.
Local Open Scope list_scope.

(* ===================================================================== *)
(** * Go primitives used by the two packages                              *)
(* ===================================================================== *)

Module Go.

(** ** Errors: [errors.errorString] and [fmt.wrapError] *)

Inductive error : Type :=
| errorString (s : string)
| wrapError (msg : string) (err : error).

(** [err.Error()] *)
Definition Error (e : error) : string :=
  match e with
  | errorString s => s
  | wrapError msg _ => msg
  end.

(** [errors.Unwrap(err)] *)
Definition Unwrap (e : error) : option error :=
  match e with
  | errorString _ => None
  | wrapError _ err => Some err
  end.

(** [fmt.Errorf(prefix + "%w", err)] *)
Definition Errorf_w (prefix : string) (err : error) : error :=
  wrapError (prefix +:+ Error err) err.

(** [fmt.Errorf(prefix + "%d" + suffix, n)] *)
Definition Errorf_d (prefix : string) (n : Z) (suffix : string) : error :=
  errorString (prefix +:+ pretty n +:+ suffix).

(** ** Outcome of a sequence of statements: it completes, it waits on a
    channel for ever, or it panics. *)

Inductive panic : Type :=
| PanicError (e : error)           (* panic(err) *)
| PanicRuntime (msg : string).     (* a run-time panic *)

Inductive res (A : Type) : Type :=
| Done (a : A)
| Blocked
| Panicked (p : panic).
Arguments Done {A} a.
Arguments Blocked {A}.
Arguments Panicked {A} p.

(** ** Buffered channels: the queue, the capacity and the closed flag.
    A send on a full channel and a receive on an empty open channel wait;
    a receive on an empty closed channel yields the zero value at once,
    written [None] here. *)

Record chan (A : Type) : Type := mkChan {
  buf : list A;
  cap : nat;
  closed : bool;
}.
Arguments mkChan {A} buf cap closed.
Arguments buf {A} c.
Arguments cap {A} c.
Arguments closed {A} c.

(** [make(chan A, n)] *)
Definition make {A : Type} (n : nat) : chan A := mkChan [] n false.

(** [ch <~ v] *)
Definition send {A : Type} (c : chan A) (v : A) : res (chan A) :=
  if closed c then Panicked (PanicRuntime "send on closed channel")
  else if (length (buf c) <? cap c)%nat
       then Done (mkChan (buf c ++ [v]) (cap c) (closed c))
       else Blocked.

(** [v := <-ch] *)
Definition recv {A : Type} (c : chan A) : res (option A * chan A) :=
  match buf c with
  | v :: rest => Done (Some v, mkChan rest (cap c) (closed c))
  | [] => if closed c then Done (None, c) else Blocked
  end.

(** [close(ch)] *)
Definition close {A : Type} (c : chan A) : res (chan A) :=
  if closed c then Panicked (PanicRuntime "close of closed channel")
  else Done (mkChan (buf c) (cap c) true).

(** ** [time.Duration]: signed 64-bit nanoseconds *)

Definition wrap64 (z : Z) : Z := (z + 2 ^ 63) mod 2 ^ 64 - 2 ^ 63.

Definition Millisecond : Z := 1000000.

(** [time.Duration(n) * time.Millisecond] *)
Definition Duration_ms (n : Z) : Z := wrap64 (wrap64 n * Millisecond).

(** ** [context.WithTimeoutCause(context.Background(), d, cause)]: the
    time left and the cause reported once it has run out. *)

Record Context : Type := mkContext {
  ctx_timeout : Z;       (* nanoseconds *)
  ctx_cause : error;
}.

Definition WithTimeoutCause (d : Z) (cause : error) : Context :=
  mkContext d cause.

(** ** [base64.StdEncoding.EncodeToString] *)

Definition encodeStd : string :=
  "ABCDEFGHIJKLMNOPQRSTUVWXYZabcdefghijklmnopqrstuvwxyz0123456789+/".

Definition b64char (i : N) : ascii :=
  match String.get (N.to_nat i) encodeStd with
  | Some c => c
  | None => "="%char
  end.

Fixpoint EncodeToString (src : string) : string :=
  match src with
  | EmptyString => EmptyString
  | String a EmptyString =>
      let v := N.shiftl (N_of_ascii a) 16 in
      String (b64char (N.land (N.shiftr v 18) 63))
        (String (b64char (N.land (N.shiftr v 12) 63)) "==")
  | String a (String b EmptyString) =>
      let v := N.lor (N.shiftl (N_of_ascii a) 16) (N.shiftl (N_of_ascii b) 8) in
      String (b64char (N.land (N.shiftr v 18) 63))
        (String (b64char (N.land (N.shiftr v 12) 63))
           (String (b64char (N.land (N.shiftr v 6) 63)) "="))
  | String a (String b (String c rest)) =>
      let v := N.lor (N.lor (N.shiftl (N_of_ascii a) 16)
                            (N.shiftl (N_of_ascii b) 8)) (N_of_ascii c) in
      String (b64char (N.land (N.shiftr v 18) 63))
        (String (b64char (N.land (N.shiftr v 12) 63))
           (String (b64char (N.land (N.shiftr v 6) 63))
              (String (b64char (N.land v 63)) (EncodeToString rest))))
  end.

(** ** [json.Marshal] of a [map[string]string]: an object whose keys are
    sorted bytewise; strings are quoted as [encoding/json] quotes them
    with HTML escaping on.  A byte below 0x80 is copied or escaped by
    itself.  From a byte from 0x80 on the encoder decodes one rune
    ([utf8.DecodeRuneInString]): a byte that does not begin a well-formed
    encoding is replaced, by itself, with [\ufffd]; U+2028 and U+2029
    are written [\u2028] and [\u2029]; the bytes of any other rune are
    copied. *)

Definition hexdigit (n : N) : ascii :=
  match String.get (N.to_nat n) "0123456789abcdef" with
  | Some c => c
  | None => "0"%char
  end.

Definition dquote : ascii := ascii_of_N 34.

(** A byte below [utf8.RuneSelf]. *)
Definition escape_byte (c : ascii) : string :=
  let n := N_of_ascii c in
  if (n =? 34)%N then String "\"%char (String dquote EmptyString)
  else if (n =? 92)%N then "\\"
  else if (n =? 8)%N then "\b"
  else if (n =? 12)%N then "\f"
  else if (n =? 10)%N then "\n"
  else if (n =? 13)%N then "\r"
  else if (n =? 9)%N then "\t"
  else if ((n <? 32)%N || (n =? 60)%N || (n =? 62)%N || (n =? 38)%N)%bool
       then "\u00" +:+ String (hexdigit (N.shiftr n 4))
                         (String (hexdigit (N.land n 15)) EmptyString)
  else String c EmptyString.

Definition byte_in (lo hi : N) (c : ascii) : bool :=
  ((lo <=? N_of_ascii c) && (N_of_ascii c <=? hi))%N.

(** The range [utf8] accepts for the second byte after a first byte
    [s0]. *)
Definition acceptRange (s0 : N) : N * N :=
  if (s0 =? 224)%N then (160, 191)%N          (* E0 *)
  else if (s0 =? 237)%N then (128, 159)%N     (* ED *)
  else if (s0 =? 240)%N then (144, 191)%N     (* F0 *)
  else if (s0 =? 244)%N then (128, 143)%N     (* F4 *)
  else (128, 191)%N.

(** [utf8.DecodeRuneInString], as far as the encoder looks at it: the
    size of the rune [s] begins with, [None] where the decoder returns
    [RuneError] with size 1. *)
Definition rune_size (s : string) : option nat :=
  match s with
  | EmptyString => None
  | String c0 rest =>
      let s0 := N_of_ascii c0 in
      let '(lo, hi) := acceptRange s0 in
      if (s0 <? 128)%N then Some 1%nat
      else if ((s0 <? 194) || (244 <? s0))%N then None
      else
        match rest with
        | EmptyString => None
        | String c1 rest1 =>
            if negb (byte_in lo hi c1) then None
            else if (s0 <? 224)%N then Some 2%nat
            else
              match rest1 with
              | EmptyString => None
              | String c2 rest2 =>
                  if negb (byte_in 128 191 c2) then None
                  else if (s0 <? 240)%N then Some 3%nat
                  else
                    match rest2 with
                    | EmptyString => None
                    | String c3 _ =>
                        if negb (byte_in 128 191 c3) then None
                        else Some 4%nat
                    end
              end
        end
  end.

(** The loop of the encoder over the bytes of a string; [inside] counts
    the bytes still to copy of a rune already decoded. *)
Fixpoint escape_from (inside : nat) (s : string) : string :=
  match s with
  | EmptyString => EmptyString
  | String c rest =>
      match inside with
      | S k => String c (escape_from k rest)
      | O =>
          if (N_of_ascii c <? 128)%N then escape_byte c +:+ escape_from 0 rest
          else
            match rune_size s with
            | None => "\ufffd" +:+ escape_from 0 rest
            | Some size =>
                match rest with
                | String c1 (String c2 rest2) =>
                    if ((N_of_ascii c =? 226) && (N_of_ascii c1 =? 128)
                        && ((N_of_ascii c2 =? 168) || (N_of_ascii c2 =? 169)))%N
                    then "\u202"
                         +:+ String (hexdigit (N.land (N_of_ascii c2) 15))
                               (escape_from 0 rest2)
                    else String c (escape_from (size - 1) rest)
                | _ => String c (escape_from (size - 1) rest)
                end
            end
      end
  end.

Definition escape (s : string) : string := escape_from 0 s.

Definition quote (s : string) : string :=
  String dquote (escape s +:+ String dquote EmptyString).

Definition key_le (x y : string * string) : Prop :=
  String.leb (fst x) (fst y) = true.

#[global] Instance key_le_dec (x y : string * string) : Decision (key_le x y).
Proof. unfold key_le. apply _. Defined.

Fixpoint join_members (kvs : list (string * string)) : string :=
  match kvs with
  | [] => EmptyString
  | [(k, v)] => quote k +:+ ":" +:+ quote v
  | (k, v) :: rest => quote k +:+ ":" +:+ quote v +:+ "," +:+ join_members rest
  end.

Definition Marshal_map (m : gmap string string) : string :=
  "{" +:+ join_members (merge_sort key_le (map_to_list m)) +:+ "}".

(** ** [strings.HasPrefix] and [strings.HasSuffix] *)

Definition HasPrefix (s prefix : string) : bool :=
  (String.length prefix <=? String.length s)%nat
  && String.eqb (substring 0 (String.length prefix) s) prefix.

Definition HasSuffix (s suffix : string) : bool :=
  (String.length suffix <=? String.length s)%nat
  && String.eqb (substring (String.length s - String.length suffix)
                   (String.length suffix) s) suffix.

(** ** [base64.StdEncoding.DecodeString]: [Some data] for [(data, nil)],
    [None] for a [CorruptInputError] (the bytes decoded before the error
    are returned with it and no caller here reads them).  Line breaks are
    skipped; padding is required and nothing but line breaks may follow
    it.  [dbuf] is the quantum being read, [j] digits long. *)

Fixpoint index_of (c : ascii) (s : string) (i : N) : option N :=
  match s with
  | EmptyString => None
  | String x rest => if Ascii.eqb x c then Some i else index_of c rest (i + 1)%N
  end.

Definition decodeMap (c : ascii) : option N := index_of c encodeStd 0.

Definition is_newline (c : ascii) : bool :=
  ((N_of_ascii c =? 10)%N || (N_of_ascii c =? 13)%N)%bool.

Definition is_pad (c : ascii) : bool := (N_of_ascii c =? 61)%N.

Fixpoint skip_newlines (s : string) : string :=
  match s with
  | String c rest => if is_newline c then skip_newlines rest else s
  | EmptyString => EmptyString
  end.

(** [byte(n)] *)
Definition byte_of (n : N) : ascii := ascii_of_N (N.land n 255).

(** The bytes of a quantum of [length dbuf] digits. *)
Definition quantum (dbuf : list N) : string :=
  let d i := nth i dbuf 0%N in
  let val := N.lor (N.lor (N.lor (N.shiftl (d 0%nat) 18) (N.shiftl (d 1%nat) 12))
                      (N.shiftl (d 2%nat) 6)) (d 3%nat) in
  match length dbuf with
  | 4%nat => String (byte_of (N.shiftr val 16))
               (String (byte_of (N.shiftr val 8))
                  (String (byte_of val) EmptyString))
  | 3%nat => String (byte_of (N.shiftr val 16))
               (String (byte_of (N.shiftr val 8)) EmptyString)
  | 2%nat => String (byte_of (N.shiftr val 16)) EmptyString
  | _ => EmptyString
  end.

Fixpoint decode (src : string) (dbuf : list N) : option string :=
  match src with
  | EmptyString =>
      match dbuf with
      | [] => Some EmptyString
      | _ => None
      end
  | String c rest =>
      match decodeMap c with
      | Some d =>
          let dbuf := (dbuf ++ [d])%list in
          if (length dbuf =? 4)%nat
          then match decode rest [] with
               | Some tl => Some (quantum dbuf +:+ tl)
               | None => None
               end
          else decode rest dbuf
      | None =>
          if is_newline c then decode rest dbuf
          else if is_pad c then
            match length dbuf with
            | 2%nat =>
                match skip_newlines rest with
                | String c2 rest2 =>
                    if is_pad c2 then
                      match skip_newlines rest2 with
                      | EmptyString => Some (quantum dbuf)
                      | _ => None
                      end
                    else None
                | EmptyString => None
                end
            | 3%nat =>
                match skip_newlines rest with
                | EmptyString => Some (quantum dbuf)
                | _ => None
                end
            | _ => None
            end
          else None
      end
  end.

Definition DecodeString (s : string) : option string := decode s [].

(** ** [net/http]: the [ResponseWriter] a handler is given.  [Header] is
    the map [w.Header()] returns; [status] and [sent] are the status code
    and the header map as they went out with the first [WriteHeader] or
    [Write] (what the server adds on its own, such as Date or a sniffed
    Content-Type, is not kept); [body] is what has been written. *)

Module http.

Record ResponseWriter : Type := mkResponseWriter {
  Header : gmap string string;
  wroteHeader : bool;
  status : Z;
  sent : gmap string string;
  body : string;
}.

(** The writer of a request not answered yet. *)
Definition NewResponseWriter : ResponseWriter :=
  mkResponseWriter ∅ false 0 ∅ EmptyString.

(** [w.Header().Set(key, value)] *)
Definition Set_ (key value : string) (w : ResponseWriter) : ResponseWriter :=
  mkResponseWriter (<[key := value]> (Header w)) (wroteHeader w) (status w)
    (sent w) (body w).

(** [w.Header().Del(key)] *)
Definition Del (key : string) (w : ResponseWriter) : ResponseWriter :=
  mkResponseWriter (delete key (Header w)) (wroteHeader w) (status w)
    (sent w) (body w).

(** [w.WriteHeader(code)]: a second call is logged as superfluous and has
    no effect. *)
Definition WriteHeader (code : Z) (w : ResponseWriter) : ResponseWriter :=
  if wroteHeader w then w
  else mkResponseWriter (Header w) true code (Header w) (body w).

(** [w.Write(data)]: the first write sends the header with status 200
    unless [WriteHeader] has been called. *)
Definition Write (data : string) (w : ResponseWriter) : ResponseWriter :=
  let w := WriteHeader 200 w in
  mkResponseWriter (Header w) (wroteHeader w) (status w) (sent w)
    (body w +:+ data).

(** The line feed. *)
Definition newline : string := String (ascii_of_N 10) EmptyString.

(** [fmt.Fprintln(w, s)] *)
Definition Fprintln (s : string) (w : ResponseWriter) : ResponseWriter :=
  Write (s +:+ newline) w.

(** [http.Error(w, error, code)] *)
Definition Error_ (msg : string) (code : Z) (w : ResponseWriter)
    : ResponseWriter :=
  let w := Del "Content-Length" w in
  let w := Set_ "Content-Type" "text/plain; charset=utf-8" w in
  let w := Set_ "X-Content-Type-Options" "nosniff" w in
  let w := WriteHeader code w in
  Fprintln msg w.

End http.

End Go.

Import Go.

Abbreviation Config := (gmap string string).
Abbreviation Disk := (gmap string string).

(* ===================================================================== *)
(** * The collaborators outside these files                               *)
(* ===================================================================== *)

(** [runtime.Applet], [loadScript], [encode.Screens], [json.Marshal] and
    [os.WriteFile] as the loader sees them.  [execute] is one run of the
    applet left to itself: the time it takes, in nanoseconds, and what it
    returns.  [WriteFile_error] says whether a write to a path fails. *)
Class Runtime : Type := {
  FS : Type;
  Applet : Type;
  Roots : Type;
  Screens : Type;
  Applet_zero : Applet;                                   (* runtime.Applet{} *)
  SchemaJSON : Applet -> string;
  loadScript : string -> FS -> Applet + error;
  execute : Applet -> Config -> Z * (Roots + error);
  ScreensFromRoots : Roots -> Screens;
  ShowFullAnimation : Screens -> bool;
  EncodeGIF : Screens -> Z -> string + error;
  EncodeWebP : Screens -> Z -> string + error;
  json_Marshal : Config -> string + error;
  WriteFile_error : Disk -> string -> option error;
}.

(** Modelled from the spec: [runtime.Applet.RunWithConfig] is not among the
    files.  "Execute the Executable Unit with the retained configuration
    under a deadline equal to a configured timeout in milliseconds; a
    deadline overrun surfaces as a timeout failure carrying the configured
    duration" and "on expiry the pending execution's outcome is
    deterministically a timeout failure": a run that needs more time than
    the context allows returns the context's cause, any other run returns
    what the applet returns. *)
Definition RunWithConfig `{Runtime} (a : Applet) (ctx : Context)
    (config : Config) : Roots + error :=
  let '(needed, r) := execute a config in
  if (ctx_timeout ctx <? needed)%Z then inr (ctx_cause ctx) else r.

(** [os.WriteFile(name, data, 0644)]: the file is created or truncated. *)
Definition os_WriteFile `{Runtime} (d : Disk) (name data : string)
    : Disk + error :=
  match WriteFile_error d name with
  | Some err => inr err
  | None => inl (<[name := data]> d)
  end.

(** What [GetSchema] and [CallSchemaHandler] read outside these files:
    the bytes [json.Marshal(&schema.Schema{})] returns and
    [runtime.Applet.CallSchemaHandler] for a handler name and a
    parameter. *)
Class Schemas `{Runtime} : Type := {
  Schema_zero_json : string;
  Applet_CallSchemaHandler : Applet -> string -> string -> string + error;
}.

(* ===================================================================== *)
(** * Package loader                                                      *)
(* ===================================================================== *)

Module loader.

Record Update : Type := mkUpdate {
  Image : string;
  ImageType : string;
  Schema : string;
  Err : option error;
}.

(** [Update{}] *)
Definition Update_zero : Update := mkUpdate "" "" "" None.

Section Loader.
Context `{RT : Runtime}.

(** What the loader does to the world around it, in order. *)
Inductive Event : Type :=
| EvLoadScript (id : string) (src : FS)
| EvCloseInitialLoad
| EvMarshal (config : Config)
| EvWriteFile (name data : string)
| EvRunWithConfig (a : Applet) (ctx : Context) (config : Config)
| EvEncode (gif : bool) (maxDuration : Z).

Record World : Type := mkWorld {
  disk : Disk;
  trace : list Event;
}.


Record Loader : Type := mkLoader {
  fs : FS;
  fileChanges : chan bool;
  watch : bool;
  applet : Applet;
  configChanges : chan Config;
  requestedChanges : chan bool;
  updatesChan : chan Update;
  resultsChan : chan Update;
  maxDuration : Z;
  initialLoad : chan bool;
  timeout : Z;
  renderGif : bool;
  configOutFile : string;
}.

Definition set_applet (a : Applet) (l : Loader) : Loader :=
  mkLoader (fs l) (fileChanges l) (watch l) a (configChanges l)
    (requestedChanges l) (updatesChan l) (resultsChan l) (maxDuration l)
    (initialLoad l) (timeout l) (renderGif l) (configOutFile l).

Definition set_initialLoad (c : chan bool) (l : Loader) : Loader :=
  mkLoader (fs l) (fileChanges l) (watch l) (applet l) (configChanges l)
    (requestedChanges l) (updatesChan l) (resultsChan l) (maxDuration l)
    c (timeout l) (renderGif l) (configOutFile l).

Definition set_fileChanges (c : chan bool) (l : Loader) : Loader :=
  mkLoader (fs l) c (watch l) (applet l) (configChanges l)
    (requestedChanges l) (updatesChan l) (resultsChan l) (maxDuration l)
    (initialLoad l) (timeout l) (renderGif l) (configOutFile l).

Definition set_configChanges (c : chan Config) (l : Loader) : Loader :=
  mkLoader (fs l) (fileChanges l) (watch l) (applet l) c
    (requestedChanges l) (updatesChan l) (resultsChan l) (maxDuration l)
    (initialLoad l) (timeout l) (renderGif l) (configOutFile l).

Definition set_requestedChanges (c : chan bool) (l : Loader) : Loader :=
  mkLoader (fs l) (fileChanges l) (watch l) (applet l) (configChanges l)
    c (updatesChan l) (resultsChan l) (maxDuration l)
    (initialLoad l) (timeout l) (renderGif l) (configOutFile l).

Definition set_updatesChan (c : chan Update) (l : Loader) : Loader :=
  mkLoader (fs l) (fileChanges l) (watch l) (applet l) (configChanges l)
    (requestedChanges l) c (resultsChan l) (maxDuration l)
    (initialLoad l) (timeout l) (renderGif l) (configOutFile l).

Definition set_resultsChan (c : chan Update) (l : Loader) : Loader :=
  mkLoader (fs l) (fileChanges l) (watch l) (applet l) (configChanges l)
    (requestedChanges l) (updatesChan l) c (maxDuration l)
    (initialLoad l) (timeout l) (renderGif l) (configOutFile l).

(** The source tree behind [l.fs] as it is after an edit. *)
Definition set_fs (src : FS) (l : Loader) : Loader :=
  mkLoader src (fileChanges l) (watch l) (applet l) (configChanges l)
    (requestedChanges l) (updatesChan l) (resultsChan l) (maxDuration l)
    (initialLoad l) (timeout l) (renderGif l) (configOutFile l).

(** ** Statements that act on the world *)

Definition M (A : Type) : Type := World -> res (A * World).

Definition ret {A : Type} (a : A) : M A := fun w => Done (a, w).

Definition bind {A B : Type} (m : M A) (k : A -> M B) : M B :=
  fun w =>
    match m w with
    | Done (a, w') => k a w'
    | Blocked => Blocked
    | Panicked p => Panicked p
    end.

Definition lift {A : Type} (r : res A) : M A :=
  fun w =>
    match r with
    | Done a => Done (a, w)
    | Blocked => Blocked
    | Panicked p => Panicked p
    end.

Definition emit (e : Event) : M unit :=
  fun w => Done (tt, mkWorld (disk w) (trace w ++ [e])).

Definition go_panic {A : Type} (err : error) : M A :=
  fun _ => Panicked (PanicError err).

Notation "x <~ m ;; k" := (bind m (fun x => k))
  (at level 100, m at next level, right associativity, only parsing).

(** The calls into the collaborators, each leaving its mark. *)

Definition call_loadScript (id : string) (src : FS) : M (Applet + error) :=
  _ <~ emit (EvLoadScript id src) ;; ret (loadScript id src).

Definition call_Marshal (config : Config) : M (string + error) :=
  _ <~ emit (EvMarshal config) ;; ret (json_Marshal config).

Definition call_WriteFile (name data : string) : M (option error) :=
  fun w =>
    match os_WriteFile (disk w) name data with
    | inl d => Done (None, mkWorld d (trace w ++ [EvWriteFile name data]))
    | inr err => Done (Some err, mkWorld (disk w) (trace w ++ [EvWriteFile name data]))
    end.

Definition call_RunWithConfig (a : Applet) (ctx : Context) (config : Config)
    : M (Roots + error) :=
  _ <~ emit (EvRunWithConfig a ctx config) ;; ret (RunWithConfig a ctx config).

Definition call_Encode (gif : bool) (screens : Screens) (maxDuration : Z)
    : M (string + error) :=
  _ <~ emit (EvEncode gif maxDuration) ;;
  ret (if gif then EncodeGIF screens maxDuration
       else EncodeWebP screens maxDuration).

(** ** [markInitialLoadComplete] *)

Definition markInitialLoadComplete (l : Loader) : M Loader :=
  match recv (initialLoad l) with
  | Done (_, c) =>                       (* case <-l.initialLoad: *)
      ret (set_initialLoad c l)
  | _ =>                                 (* default: *)
      c <~ lift (close (initialLoad l)) ;;
      _ <~ emit EvCloseInitialLoad ;;
      ret (set_initialLoad c l)
  end.

(** ** [loadApplet], in its two halves *)

(** Lines 188 to 196: the reload of watch mode.  [Some err] is the early
    [return "", err]. *)
Definition reload (l : Loader) : M (Loader * option error) :=
  if watch l then
    r <~ call_loadScript "app-id" (fs l) ;;
    l <~ markInitialLoadComplete l ;;
    match r with
    | inr err => ret (l, Some err)
    | inl app => ret (set_applet app l, None)
    end
  else ret (l, None).

(** Lines 198 to 225: the run under the deadline and the encoding. *)
Definition render (l : Loader) (config : Config) : M (string * option error) :=
  let ctx :=
    WithTimeoutCause (Duration_ms (timeout l))
      (Errorf_d "timeout after " (timeout l) "ms") in
  r <~ call_RunWithConfig (applet l) ctx config ;;
  match r with
  | inr err => ret ("", Some (Errorf_w "error running script: " err))
  | inl roots =>
      let screens := ScreensFromRoots roots in
      let maxDuration :=
        if ShowFullAnimation screens then 0 else maxDuration l in
      r <~ call_Encode (renderGif l) screens maxDuration ;;
      match r with
      | inr err => ret ("", Some (Errorf_w "error rendering: " err))
      | inl img => ret (EncodeToString img, None)
      end
  end.

Definition loadApplet (l : Loader) (config : Config)
    : M (Loader * (string * option error)) :=
  p <~ reload l ;;
  let '(l, failed) := p in
  match failed with
  | Some err => ret (l, ("", Some err))
  | None => r <~ render l config ;; ret (l, r)
  end.

(** ** [NewLoader]: [(l, nil)] is [inl l], [(nil, err)] is [inr err].  The
    process-wide cache set-up touches nothing the loader reads. *)

Definition NewLoader (fsys : FS) (watching : bool) (fileCh : chan bool)
    (updatesCh : chan Update) (maxDur tmo : Z) (gif : bool)
    (outFile : string) : M (Loader + error) :=
  let l := mkLoader fsys fileCh watching Applet_zero (make 100) (make 100)
             updatesCh (make 100) maxDur (make 0) tmo gif outFile in
  if negb (watch l) then
    r <~ call_loadScript "app-id" (fs l) ;;
    l <~ markInitialLoadComplete l ;;
    match r with
    | inr err => ret (inr err)
    | inl app => ret (inl (set_applet app l))
    end
  else ret (inl l).

(** ** [Run]: the local variable [config] next to the loader, and one
    turn of the loop for each case of the [select]. *)

Record RunState : Type := mkRun {
  ldr : Loader;
  config : Config;
}.

Inductive Case : Type := CaseConfig | CaseRequested | CaseFile.

(** The image, type and failure fields both render branches fill in. *)
Definition fill (l : Loader) (img : string) (err : option error) : Update :=
  match err with
  | Some e => mkUpdate "" "" "" (Some e)
  | None => mkUpdate img (if renderGif l then "gif" else "webp") "" None
  end.

Definition with_Schema (s : string) (up : Update) : Update :=
  mkUpdate (Image up) (ImageType up) s (Err up).

(** [case c := <-l.configChanges:] *)
Definition Run_configChanges (s : RunState) : M RunState :=
  p <~ lift (recv (configChanges (ldr s))) ;;
  let '(c, ch) := p in
  ret (mkRun (set_configChanges ch (ldr s)) (default ∅ c)).

(** [case <-l.requestedChanges:] *)
Definition Run_requestedChanges (s : RunState) : M RunState :=
  p <~ lift (recv (requestedChanges (ldr s))) ;;
  let '(_, ch) := p in
  let l := set_requestedChanges ch (ldr s) in
  r <~ call_Marshal (config s) ;;
  match r with
  | inr err => go_panic err
  | inl byteSlice =>
      _ <~ (if String.eqb (configOutFile l) "" then ret tt
            else
              e <~ call_WriteFile (configOutFile l) byteSlice ;;
              match e with
              | Some err => go_panic err
              | None => ret tt
              end) ;;
      p <~ loadApplet l (config s) ;;
      let '(l, (img, err)) := p in
      let up := fill l img err in
      uc <~ lift (send (updatesChan l) up) ;;
      let l := set_updatesChan uc l in
      rc <~ lift (send (resultsChan l) up) ;;
      ret (mkRun (set_resultsChan rc l) (config s))
  end.

(** [case <-l.fileChanges:] *)
Definition Run_fileChanges (s : RunState) : M RunState :=
  p <~ lift (recv (fileChanges (ldr s))) ;;
  let '(_, ch) := p in
  let l := set_fileChanges ch (ldr s) in
  p <~ loadApplet l (config s) ;;
  let '(l, (img, err)) := p in
  let up :=
    match err with
    | Some _ => fill l img err
    | None => with_Schema (SchemaJSON (applet l)) (fill l img err)
    end in
  uc <~ lift (send (updatesChan l) up) ;;
  ret (mkRun (set_updatesChan uc l) (config s)).

Definition Run_case (c : Case) (s : RunState) : M RunState :=
  match c with
  | CaseConfig => Run_configChanges s
  | CaseRequested => Run_requestedChanges s
  | CaseFile => Run_fileChanges s
  end.

(** ** [LoadApplet] and the goroutines around [Run]

    [LoadApplet] is three channel operations, and other goroutines may run
    between any two of them; each caller is therefore a small program with
    a program counter.  A schedule is a list of labels: which goroutine
    moves next and, for [Run], which ready case its [select] takes. *)

Inductive PC : Type :=
| AtEntry                                         (* before line 164 *)
| SentConfig                                      (* l.configChanges <- config done *)
| SentRequest                                     (* l.requestedChanges <- true done *)
| Returned (img : string) (err : option error).   (* result.Image, result.Err *)

(** Which trigger a cycle served; kept beside the channels, never read by
    the program. *)
Inductive Trigger : Type :=
| ByRequest (caller : nat)
| ByFileChange.

Record Caller : Type := mkCaller {
  arg : Config;
  pc : PC;
  got : option Trigger;    (* ghost: the cycle whose Update was received *)
}.

Record Sys : Type := mkSys {
  run : RunState;
  world : World;
  halted : option panic;   (* Run has panicked: the process is gone *)
  callers : list Caller;
  pending : list nat;      (* ghost: who sent each token in requestedChanges *)
  origin : list Trigger;   (* ghost: which cycle sent each Update in resultsChan *)
}.

Inductive Label : Type :=
| Send_config (i : nat)       (* caller i: l.configChanges <- config *)
| Send_request (i : nat)      (* caller i: l.requestedChanges <- true *)
| Receive (i : nat)           (* caller i: result := <-l.resultsChan; return *)
| Select (c : Case)           (* Run: one turn of the loop *)
| File_changed (src : FS).    (* the watcher: new source tree, fileChanges <- true *)

Definition with_ldr (f : Loader -> Loader) (s : Sys) : RunState :=
  mkRun (f (ldr (run s))) (config (run s)).

Definition caller_step (i : nat) (s : Sys) : option Sys :=
  c ← callers s !! i;
  match pc c with
  | AtEntry =>
      match send (configChanges (ldr (run s))) (arg c) with
      | Done ch =>
          Some (mkSys (with_ldr (set_configChanges ch) s) (world s) (halted s)
                  (<[i := mkCaller (arg c) SentConfig (got c)]> (callers s))
                  (pending s) (origin s))
      | _ => None
      end
  | SentConfig =>
      match send (requestedChanges (ldr (run s))) true with
      | Done ch =>
          Some (mkSys (with_ldr (set_requestedChanges ch) s) (world s) (halted s)
                  (<[i := mkCaller (arg c) SentRequest (got c)]> (callers s))
                  (pending s ++ [i]) (origin s))
      | _ => None
      end
  | SentRequest =>
      match recv (resultsChan (ldr (run s))) with
      | Done (Some result, ch) =>
          Some (mkSys (with_ldr (set_resultsChan ch) s) (world s) (halted s)
                  (<[i := mkCaller (arg c) (Returned (Image result) (Err result))
                            (head (origin s))]> (callers s))
                  (pending s) (tail (origin s)))
      | _ => None
      end
  | Returned _ _ => None
  end.

Definition expects (l : Label) (p : PC) : bool :=
  match l, p with
  | Send_config _, AtEntry => true
  | Send_request _, SentConfig => true
  | Receive _, SentRequest => true
  | _, _ => false
  end.

Definition step (l : Label) (s : Sys) : option Sys :=
  match halted s with
  | Some _ => None
  | None =>
      match l with
      | Send_config i | Send_request i | Receive i =>
          c ← callers s !! i;
          if expects l (pc c) then caller_step i s else None
      | Select c =>
          (* a turn is taken whole; one that would wait on a channel is not
             taken, one that panics ends the process.  The halted state
             keeps the channels and the history of before that turn: what
             the turn had done when it panicked (the request received,
             json.Marshal called) is not in it, so what is said of channels
             and history is said of states that are not halted *)
          match Run_case c (run s) (world s) with
          | Done (r, w) =>
              match c with
              | CaseRequested =>
                  Some (mkSys r w None (callers s) (tail (pending s))
                          (origin s ++ [ByRequest (default 0%nat (head (pending s)))]))
              | _ => Some (mkSys r w None (callers s) (pending s) (origin s))
              end
          | Blocked => None
          | Panicked p =>
              Some (mkSys (run s) (world s) (Some p) (callers s) (pending s) (origin s))
          end
      | File_changed src =>
          match send (fileChanges (ldr (run s))) true with
          | Done ch =>
              Some (mkSys (mkRun (set_fileChanges ch (set_fs src (ldr (run s))))
                             (config (run s)))
                      (world s) None (callers s) (pending s) (origin s))
          | _ => None
          end
      end
  end.

Fixpoint exec (ls : list Label) (s : Sys) : option Sys :=
  match ls with
  | [] => Some s
  | l :: rest => s' ← step l s; exec rest s'
  end.

(** [go l.Run()] on a loader just built, with the callers about to call
    [LoadApplet(config)]: [config := make(map[string]string)]. *)
Definition boot (l : Loader) (w : World) (configs : list Config) : Sys :=
  mkSys (mkRun l ∅) w None (map (fun c => mkCaller c AtEntry None) configs) [] [].

(** The schedule of one call of [LoadApplet] by caller [i], served in
    the order the caller sends: configuration, then request. *)
Definition in_order (i : nat) : list Label :=
  [Send_config i; Select CaseConfig; Send_request i; Select CaseRequested;
   Receive i].

End Loader.
(** ** [GetSchema] and [CallSchemaHandler]: both wait for the first load. *)

Section Readers.
Context `{RT : Runtime} `{SC : !Schemas}.

Definition GetSchema (l : Loader) : res (Loader * string) :=
  match recv (initialLoad l) with
  | Done (_, c) =>
      let l := set_initialLoad c l in
      let s := SchemaJSON (applet l) in
      if (0 <? String.length s)%nat then Done (l, s)
      else Done (l, Schema_zero_json)
  | Blocked => Blocked
  | Panicked p => Panicked p
  end.

Definition CallSchemaHandler (l : Loader) (handlerName parameter : string)
    : res (Loader * (string + error)) :=
  match recv (initialLoad l) with
  | Done (_, c) =>
      let l := set_initialLoad c l in
      Done (l, Applet_CallSchemaHandler (applet l) handlerName parameter)
  | Blocked => Blocked
  | Panicked p => Panicked p
  end.

End Readers.

End loader.

(* ===================================================================== *)
(** * Package fanout, as far as the browser uses it                       *)
(* ===================================================================== *)

Module fanout.

(** Modelled from the spec: package [fanout] is not among the files.  The
    event shape is "one of {Image, Error, Schema}, each carrying a message
    payload and, for Image events, a format tag". *)
Inductive EventType : Type := EventTypeImage | EventTypeErr | EventTypeSchema.

Record WebsocketEvent : Type := mkEvent {
  Type_ : EventType;
  Message : string;
  ImageType : string;
}.

(** A live connection is an opaque handle. *)
Definition Conn : Type := nat.

(** Modelled from the spec: the hub is "a dynamic registry of live output
    connections"; each registered connection has a send queue.  [calls]
    keeps every event handed to [Broadcast], in order. *)
Record Fanout : Type := mkFanout {
  clients : list (Conn * list WebsocketEvent);
  calls : list WebsocketEvent;
}.

(** Modelled from the spec: a new hub has no connection. *)
Definition NewFanout : Fanout := mkFanout [] [].

(** Modelled from the spec: "register(connection): admits a new live
    connection; its send queue starts empty". *)
Definition NewClient (fo : Fanout) (conn : Conn) : Fanout :=
  mkFanout (clients fo ++ [(conn, [])]) (calls fo).

(** Modelled from the spec: "broadcast(event): given one outcome-derived
    event, enqueues it for delivery to every currently registered
    connection". *)
Definition Broadcast (fo : Fanout) (event : WebsocketEvent) : Fanout :=
  mkFanout (map (fun c => (fst c, (snd c ++ [event])%list)) (clients fo))
           (calls fo ++ [event]).

End fanout.

(* ===================================================================== *)
(** * Package browser: the websocket handler and the update watcher       *)
(* ===================================================================== *)

Module browser.
Import fanout.

(** What [upgrader.Upgrade(w, r, nil)] makes of a request: a connection
    or an error. *)
Record Request : Type := mkRequest {
  Upgrade : Conn + error;
}.

(** The fields of [Browser] the two functions read, and [upgrades]: the
    requests handed to [Upgrade] so far. *)
Record Browser : Type := mkBrowser {
  updateChan : chan loader.Update;
  watch : bool;
  fo : Fanout;
  serveGif : bool;
  upgrades : list Request;
}.

(** [NewBrowser], for these fields. *)
Definition NewBrowser (watching : bool) (updateCh : chan loader.Update)
    (gif : bool) : Browser :=
  mkBrowser updateCh watching NewFanout gif [].

(** [websocketHandler] *)
Definition websocketHandler (b : Browser) (r : Request) : Browser :=
  if negb (watch b) then b
  else
    let b := mkBrowser (updateChan b) (watch b) (fo b) (serveGif b)
               (upgrades b ++ [r]) in
    match Upgrade r with
    | inr _ => b
    | inl conn =>
        mkBrowser (updateChan b) (watch b) (NewClient (fo b) conn) (serveGif b)
          (upgrades b)
    end.

(** The body of [case up := <-b.updateChan:] in [updateWatcher]. *)
Definition broadcast_update (img_type : string) (up : loader.Update)
    (fo : Fanout) : Fanout :=
  let fo := Broadcast fo (mkEvent EventTypeImage (loader.Image up) img_type) in
  let fo :=
    match loader.Err up with
    | Some err => Broadcast fo (mkEvent EventTypeErr (Error err) "")
    | None => fo
    end in
  if String.eqb (loader.Schema up) "" then fo
  else Broadcast fo (mkEvent EventTypeSchema (loader.Schema up) "").

(** One turn of the loop of [updateWatcher]. *)
Definition updateWatcher_turn (b : Browser) : res Browser :=
  let img_type := if serveGif b then "gif" else "webp" in
  match recv (updateChan b) with
  | Done (up, ch) =>
      Done (mkBrowser ch (watch b)
              (broadcast_update img_type (default loader.Update_zero up) (fo b))
              (serveGif b) (upgrades b))
  | Blocked => Blocked
  | Panicked p => Panicked p
  end.

(** What can happen to a browser: a websocket request arrives, the
    coordinator puts an Update on the channel, the watcher takes a turn. *)
Inductive Action : Type :=
| Ws (r : Request)
| Put (up : loader.Update)
| Watch.

Definition act (a : Action) (b : Browser) : option Browser :=
  match a with
  | Ws r => Some (websocketHandler b r)
  | Put up =>
      match send (updateChan b) up with
      | Done ch => Some (mkBrowser ch (watch b) (fo b) (serveGif b) (upgrades b))
      | _ => None
      end
  | Watch =>
      match updateWatcher_turn b with
      | Done b' => Some b'
      | _ => None
      end
  end.

Fixpoint acts (l : list Action) (b : Browser) : option Browser :=
  match l with
  | [] => Some b
  | a :: rest => b' ← act a b; acts rest b'
  end.

(** ** [NewBrowser]: the path the application is served on. *)

(** [b.path] *)
Definition NewBrowser_path (servePath : string) : string :=
  let servePath :=
    if negb (HasPrefix servePath "/") then "/" +:+ servePath else servePath in
  if negb (HasSuffix servePath "/") then servePath +:+ "/" else servePath.

(** [rootHandler]: the map handed to the template. *)
Definition rootHandler_config (path : string) : gmap string string :=
  if negb (String.eqb path "/") then {[ "Base" := path ]} else ∅.

(** ** The HTTP handlers *)

Record previewData : Type := mkPreviewData {
  Title : string;
  Image : string;
  ImageType : string;
  Watch_ : bool;
  Err : string;
}.

Record handlerRequest : Type := mkHandlerRequest {
  ID : string;
  Param : string;
}.

(** [json.Marshal(data)] for a [*previewData]: the fields in the order of
    the struct under their tags; [Watch] is left out ([json:"-"]) and
    [Err] is left out when empty ([omitempty]). *)
Definition previewData_members (data : previewData) : list (string * string) :=
  [("title", Title data); ("img", Image data); ("img_type", ImageType data)]
  ++ (if String.eqb (Err data) "" then [] else [("error", Err data)]).

Definition Marshal_previewData (data : previewData) : string :=
  "{" +:+ join_members (previewData_members data) +:+ "}".

(** What a handler reads of the request: the outcome of [r.ParseForm()]
    and of [r.ParseMultipartForm(100)], [r.Form] once parsed,
    [r.PathValue("handler")], and what [decoder.Decode(msg)] makes of the
    body. *)
Record HTTPRequest : Type := mkHTTPRequest {
  ParseForm : option error;
  ParseMultipartForm : option error;
  Form : gmap string (list string);
  PathValue_handler : string;
  Decode_body : handlerRequest + error;
}.

(** [for k, val := range r.Form { config[k] = val[0] }] *)
Definition form_config (form : gmap string (list string)) : res Config :=
  map_fold
    (fun k val acc =>
       match acc with
       | Done config =>
           match val with
           | v :: _ => Done (<[k := v]> config)
           | [] => Panicked (PanicRuntime "index out of range [0] with length 0")
           end
       | other => other
       end)
    (Done ∅) form.

(** [healthHandler] *)
Definition healthHandler (w : http.ResponseWriter) : http.ResponseWriter :=
  http.WriteHeader 200 w.

(** [faviconHandler] *)
Definition faviconHandler (favicon : string) (w : http.ResponseWriter)
    : http.ResponseWriter :=
  http.Write favicon (http.Set_ "Content-Type" "image/png" w).

(** [imageHandler]; [LoadApplet] is the call [b.loader.LoadApplet]. *)
Definition imageHandler (b : Browser)
    (LoadApplet : Config -> res (string * option error))
    (r : HTTPRequest) (w : http.ResponseWriter) : res http.ResponseWriter :=
  match ParseForm r with
  | Some _ =>
      let w := http.WriteHeader 500 w in
      Done (http.Error_ "bad form data" 400 w)
  | None =>
      match form_config (Form r) with
      | Done config =>
          match LoadApplet config with
          | Done (img, Some _) => Done (http.Error_ "loading applet" 500 w)
          | Done (img, None) =>
              let img_type := if serveGif b then "image/gif" else "image/webp" in
              let w := http.Set_ "Content-Type" img_type w in
              match DecodeString img with
              | None => Done (http.Error_ "decoding image" 500 w)
              | Some data => Done (http.Write data w)
              end
          | Blocked => Blocked
          | Panicked p => Panicked p
          end
      | Blocked => Blocked
      | Panicked p => Panicked p
      end
  end.

(** [previewHandler]; [title] is [b.title].  [json.Marshal] of a struct
    of strings does not fail. *)
Definition previewHandler (b : Browser) (title : string)
    (LoadApplet : Config -> res (string * option error))
    (r : HTTPRequest) (w : http.ResponseWriter) : res http.ResponseWriter :=
  match ParseMultipartForm r with
  | Some _ => Done (http.Error_ "bad form data" 400 w)
  | None =>
      match form_config (Form r) with
      | Done config =>
          match LoadApplet config with
          | Done (img, err) =>
              let img_type := if serveGif b then "gif" else "webp" in
              let data := mkPreviewData title img img_type false "" in
              let data :=
                match err with
                | Some e => mkPreviewData (Title data) (Image data)
                              (ImageType data) (Watch_ data) (Error e)
                | None => data
                end in
              let d := Marshal_previewData data in
              let w := http.Set_ "Content-Type" "application/json" w in
              Done (http.Write d w)
          | Blocked => Blocked
          | Panicked p => Panicked p
          end
      | Blocked => Blocked
      | Panicked p => Panicked p
      end
  end.

Section SchemaHandlers.
Context `{RT : Runtime} `{SC : !Schemas}.

(** [schemaHandler] *)
Definition schemaHandler (l : loader.Loader) (w : http.ResponseWriter)
    : res (loader.Loader * http.ResponseWriter) :=
  let w := http.Set_ "Content-Type" "application/json" w in
  match loader.GetSchema l with
  | Done (l, s) => Done (l, http.Write s w)
  | Blocked => Blocked
  | Panicked p => Panicked p
  end.

(** [schemaHandlerHandler] *)
Definition schemaHandlerHandler (l : loader.Loader) (r : HTTPRequest)
    (w : http.ResponseWriter) : res (loader.Loader * http.ResponseWriter) :=
  let handler := PathValue_handler r in
  if String.eqb handler "" then
    let w := http.WriteHeader 404 w in
    Done (l, http.Fprintln "no handler" w)
  else
    match Decode_body r with
    | inr err =>
        let w := http.WriteHeader 500 w in
        Done (l, http.Fprintln (Error err) w)
    | inl msg =>
        match loader.CallSchemaHandler l handler (Param msg) with
        | Done (l, inr err) =>
            let w := http.WriteHeader 500 w in
            Done (l, http.Fprintln (Error err) w)
        | Done (l, inl data) =>
            let w := http.Set_ "Content-Type" "application/json" w in
            Done (l, http.Write data w)
        | Blocked => Blocked
        | Panicked p => Panicked p
        end
    end.

End SchemaHandlers.

End browser.

(* ===================================================================== *)
(** * The schema form's icon ([src/features/schema/FieldIcon.jsx])        *)
(* ===================================================================== *)

Module FieldIcon.

(** A JavaScript string is held as its UTF-8 bytes: the bytes of a
    character outside ASCII are all above 127, so [/[A-Z]/] matches the
    same letters on either reading. *)

(** The class [[A-Z]] *)
Definition is_upper (c : ascii) : bool :=
  ((65 <=? N_of_ascii c)%N && (N_of_ascii c <=? 90)%N)%bool.

(** [m.toLowerCase()] for a match [m] of [/[A-Z]/] *)
Definition toLowerCase (c : ascii) : ascii :=
  if is_upper c then ascii_of_N (N_of_ascii c + 32) else c.

(** [iconName.replace(/[A-Z]/g, m => "-" + m.toLowerCase())] *)
Fixpoint faIconName (iconName : string) : string :=
  match iconName with
  | EmptyString => EmptyString
  | String c rest =>
      if is_upper c then String "-"%char (String (toLowerCase c) (faIconName rest))
      else String c (faIconName rest)
  end.

(** What the component renders: nothing, a Font Awesome icon, or a
    Material icon named by its text. *)
Inductive Element (IconDefinition : Type) : Type :=
| Null
| FontAwesomeIcon (icon : IconDefinition)
| MaterialIcon (name : string).
Arguments Null {IconDefinition}.
Arguments FontAwesomeIcon {IconDefinition} icon.
Arguments MaterialIcon {IconDefinition} name.

(** [FieldIcon(props)]; [icon] is [props.icon], [None] when it is
    undefined, and [findIconDefinition prefix iconName] the library
    lookup. *)
Definition FieldIcon {IconDefinition : Type}
    (findIconDefinition : string -> string -> option IconDefinition)
    (icon : option string) : Element IconDefinition :=
  match icon with
  | None => Null
  | Some iconName =>
      if String.eqb iconName "" then Null
      else
        let faIconName := faIconName iconName in
        match findIconDefinition "fas" faIconName with
        | Some icoDef => FontAwesomeIcon icoDef
        | None =>
            match findIconDefinition "fab" faIconName with
            | Some icoDef => FontAwesomeIcon icoDef
            | None => MaterialIcon iconName
            end
        end
  end.

End FieldIcon.

(* ===================================================================== *)
(** * A small runtime to run the model on                                 *)
(* ===================================================================== *)

Module demo.

(** A script is what loading it gives, the time one run takes and what the
    run returns: it draws one root per configuration value, or fails. *)
Record script : Type := mkScript {
  schema : string;
  needs : Z;
  fails : option string;
}.

Definition compile (src : script + string) : script + error :=
  match src with
  | inl a => inl a
  | inr msg => inr (errorString msg)
  end.

Definition draw (a : script) (config : Config) : Z * (list string + error) :=
  (needs a,
   match fails a with
   | Some msg => inr (errorString msg)
   | None => inl (map snd (map_to_list config))
   end).

(** No root, no frame: the encoders return no bytes and no error. *)
Definition encode (magic : string) (screens : list string) : string + error :=
  match screens with
  | [] => inl ""
  | _ => inl (magic +:+ String.concat "," screens)
  end.

(** Writes below [/ro/] fail. *)
Definition read_only (d : Disk) (name : string) : option error :=
  if String.prefix "/ro/" name
  then Some (errorString ("open " +:+ name +:+ ": read-only file system"))
  else None.

#[global] Instance runtime : Runtime := {|
  FS := script + string;
  Applet := script;
  Roots := list string;
  Screens := list string;
  Applet_zero := mkScript "" 0 None;
  SchemaJSON := schema;
  loadScript := fun _ src => compile src;
  execute := draw;
  ScreensFromRoots := fun roots => roots;
  ShowFullAnimation := fun _ => false;
  EncodeGIF := fun s _ => encode "GIF89a" s;
  EncodeWebP := fun s _ => encode "RIFF" s;
  json_Marshal := fun c => inl (Marshal_map c);
  WriteFile_error := read_only;
|}.

(** A script that needs a millisecond and one that needs half a second. *)
Definition hello : script := mkScript "{}" 1000000 None.
Definition slow : script := mkScript "{}" 500000000 None.

(** [{"x":"1"}] and [{"y":"2"}] *)
Definition cfg_x : Config := {[ "x" := "1" ]}.
Definition cfg_y : Config := {[ "y" := "2" ]}.

Definition json_x : string :=
  "{" +:+ quote "x" +:+ ":" +:+ quote "1" +:+ "}".
Definition json_y : string :=
  "{" +:+ quote "y" +:+ ":" +:+ quote "2" +:+ "}".

Definition fresh : loader.World := loader.mkWorld ∅ [].

(** A loader as [NewLoader] leaves it, up to the script in place and the
    state of the gate: all channels empty, of capacity 100, WebP. *)
Definition loader_of (watching : bool) (src : script + string) (a : script)
    (gate_closed : bool) (tmo : Z) (outFile : string) : loader.Loader :=
  loader.mkLoader src (make 100) watching a (make 100) (make 100) (make 100)
    (make 100) 15000 (mkChan [] 0 gate_closed) tmo false outFile.

(** The same with one request waiting. *)
Definition requested (l : loader.Loader) : loader.Loader :=
  loader.set_requestedChanges (mkChan [true] 100 false) l.

(** Schedules.  One call of [LoadApplet] served in order. *)
Definition one_call : list loader.Label := loader.in_order 0.

(** Two calls; [Run] serves the first request and the second caller is
    the first to read [resultsChan]. *)
Definition stolen_result : list loader.Label :=
  [loader.Send_config 0; loader.Send_request 0;
   loader.Send_config 1; loader.Send_request 1;
   loader.Select loader.CaseConfig; loader.Select loader.CaseRequested;
   loader.Receive 1]%nat.

(** Two calls; the second configuration arrives before the first request
    is served. *)
Definition overwritten_config : list loader.Label :=
  [loader.Send_config 0; loader.Select loader.CaseConfig;
   loader.Send_config 1; loader.Select loader.CaseConfig;
   loader.Send_request 0; loader.Select loader.CaseRequested;
   loader.Receive 0]%nat.

(** One call made before [Run] first reaches its [select]: both channels
    are ready and the [select] takes the request. *)
Definition request_first : list loader.Label :=
  [loader.Send_config 0; loader.Send_request 0;
   loader.Select loader.CaseRequested; loader.Receive 0]%nat.

(** A watch-mode session: a request, an edit that breaks the script, a
    second edit that repairs it. *)
Definition session : list loader.Label :=
  [loader.Send_config 0; loader.Select loader.CaseConfig;
   loader.Send_request 0; loader.Select loader.CaseRequested;
   loader.Receive 0;
   loader.File_changed (inr "syntax error"); loader.Select loader.CaseFile;
   loader.File_changed (inl hello); loader.Select loader.CaseFile]%nat.

(** A stand-in for what lies behind the schema endpoints: the empty
    schema, and applets with one handler, [options], that returns its
    parameter in a list. *)
#[global] Instance schemas : Schemas := {|
  Schema_zero_json :=
    "{" +:+ quote "version" +:+ ":" +:+ quote "1" +:+ ","
        +:+ quote "schema" +:+ ":[]}";
  Applet_CallSchemaHandler := fun _ handlerName parameter =>
    if String.eqb handlerName "options"
    then inl ("[" +:+ quote parameter +:+ "]")
    else inr (errorString ("no exported handler named " +:+ handlerName));
|}.

(** A script whose run fails. *)
Definition broken : script := mkScript "{}" 1000000 (Some "boom").

(** The world [NewLoader] leaves without watch mode, and one with a file
    the loader has no business with. *)
Definition loaded_once : loader.World :=
  loader.mkWorld ∅
    [loader.EvLoadScript "app-id" (inl hello); loader.EvCloseInitialLoad].

Definition with_motd : loader.World :=
  loader.mkWorld {[ "/etc/motd" := "hello" ]} [].

(** The same loader with one file-change signal waiting. *)
Definition changed (l : loader.Loader) : loader.Loader :=
  loader.set_fileChanges (mkChan [true] 100 false) l.

(** Requests: [?x=1&x=2], one whose form does not parse, and a call of
    the handler [options]. *)
Definition form_x : gmap string (list string) := {[ "x" := ["1"; "2"] ]}.

Definition get_x : browser.HTTPRequest :=
  browser.mkHTTPRequest None None form_x "" (inr (errorString "EOF")).

Definition bad_form : browser.HTTPRequest :=
  browser.mkHTTPRequest (Some (errorString "invalid URL escape"))
    (Some (errorString "invalid URL escape")) ∅ "" (inr (errorString "EOF")).

Definition post_options : browser.HTTPRequest :=
  browser.mkHTTPRequest None None ∅ "options"
    (inl (browser.mkHandlerRequest "field" "blue")).

End demo.

(* ===================================================================== *)
(** * Vocabulary of the statements                                        *)
(* ===================================================================== *)

Section Vocabulary.
Context `{RT : Runtime}.
Import loader.

(** The Ready Gate is the channel [initialLoad]: nothing is ever sent on
    it, it is pending while open and released once closed. *)
Definition gate_wf (l : Loader) : Prop := buf (initialLoad l) = [].

Definition released (l : Loader) : bool := closed (initialLoad l).

Definition is_load (e : Event) : bool :=
  match e with EvLoadScript _ _ => true | _ => false end.

Definition is_close (e : Event) : bool :=
  match e with EvCloseInitialLoad => true | _ => false end.

Definition is_run (e : Event) : bool :=
  match e with EvRunWithConfig _ _ _ => true | _ => false end.

(** The loader with its gate released. *)
Definition release (l : Loader) : Loader :=
  set_initialLoad (mkChan [] (cap (initialLoad l)) true) l.

(** The world with further events behind it. *)
Definition more (w : World) (evs : list Event) : World :=
  mkWorld (disk w) (trace w ++ evs).

(** What a reload leaves in the history. *)
Definition reload_events (l : Loader) : list Event :=
  if watch l
  then EvLoadScript "app-id" (fs l)
         :: (if released l then [] else [EvCloseInitialLoad])
  else [].

(** The context [loadApplet] builds for a run. *)
Definition deadline (l : Loader) : Context :=
  WithTimeoutCause (Duration_ms (timeout l))
    (Errorf_d "timeout after " (timeout l) "ms").

(** The animation cap and the encoder [loadApplet] picks. *)
Definition cap_of (l : Loader) (screens : Screens) : Z :=
  if ShowFullAnimation screens then 0 else maxDuration l.

Definition encoded (l : Loader) (screens : Screens) : string + error :=
  if renderGif l then EncodeGIF screens (cap_of l screens)
  else EncodeWebP screens (cap_of l screens).

(** The loader after the reload half went through. *)
Inductive reloaded (l : Loader) : Loader -> Prop :=
| reloaded_off : watch l = false -> reloaded l l
| reloaded_on app :
    watch l = true -> loadScript "app-id" (fs l) = inl app ->
    reloaded l (set_applet app (release l)).

(** The four ways [loadApplet] returns. *)
Inductive loaded (l : Loader) (cfg : Config) (w : World)
  : Loader -> string -> option error -> World -> Prop :=
| loaded_reload_failed err :
    watch l = true -> loadScript "app-id" (fs l) = inr err ->
    loaded l cfg w (release l) "" (Some err) (more w (reload_events l))
| loaded_run_failed l' err :
    reloaded l l' ->
    RunWithConfig (applet l') (deadline l) cfg = inr err ->
    loaded l cfg w l' "" (Some (Errorf_w "error running script: " err))
      (more w (reload_events l ++ [EvRunWithConfig (applet l') (deadline l) cfg]))
| loaded_encode_failed l' roots err :
    reloaded l l' ->
    RunWithConfig (applet l') (deadline l) cfg = inl roots ->
    encoded l (ScreensFromRoots roots) = inr err ->
    loaded l cfg w l' "" (Some (Errorf_w "error rendering: " err))
      (more w (reload_events l ++
                 [EvRunWithConfig (applet l') (deadline l) cfg;
                  EvEncode (renderGif l) (cap_of l (ScreensFromRoots roots))]))
| loaded_ok l' roots img :
    reloaded l l' ->
    RunWithConfig (applet l') (deadline l) cfg = inl roots ->
    encoded l (ScreensFromRoots roots) = inl img ->
    loaded l cfg w l' (EncodeToString img) None
      (more w (reload_events l ++
                 [EvRunWithConfig (applet l') (deadline l) cfg;
                  EvEncode (renderGif l) (cap_of l (ScreensFromRoots roots))])).

(** The world once the on-demand branch has marshalled the configuration
    and, with a debug path, written it out. *)
Definition debug_written (l : Loader) (cfg : Config) (bytes : string)
    (w : World) : World :=
  if String.eqb (configOutFile l) "" then more w [EvMarshal cfg]
  else mkWorld (<[configOutFile l := bytes]> (disk w))
         (trace w ++ [EvMarshal cfg; EvWriteFile (configOutFile l) bytes]).

(** The Update of a reload cycle: the schema goes with a success only. *)
Definition fill_reload (l : Loader) (img : string) (err : option error)
    : Update :=
  match err with
  | Some _ => fill l img err
  | None => with_Schema (SchemaJSON (applet l)) (fill l img err)
  end.

(** How often [close(l.initialLoad)] has been executed. *)
Definition closes (t : list Event) : nat := length (filter (fun e => is_close e = true) t).

(** How many reload attempts have completed. *)
Definition loads (t : list Event) : nat := length (filter (fun e => is_load e = true) t).

(** The gate against the history: pending and no reload attempted so
    far, or released by the one [close] that follows the first reload
    attempt. *)
Definition gate_history (l : Loader) (t : list Event) : Prop :=
  if released l
  then exists pre id src post,
         t = pre ++ EvLoadScript id src :: EvCloseInitialLoad :: post
         /\ loads pre = 0%nat /\ closes pre = 0%nat /\ closes post = 0%nat
  else loads t = 0%nat /\ closes t = 0%nat.

(** [n] calls of [markInitialLoadComplete] in a row. *)
Fixpoint mark_n (n : nat) (l : Loader) : M Loader :=
  match n with
  | O => ret l
  | S k => bind (markInitialLoadComplete l) (mark_n k)
  end.

(** Two loaders that differ at most in the applet and the gate. *)
Definition same_wiring (l l' : Loader) : Prop :=
  fs l' = fs l /\ fileChanges l' = fileChanges l /\ watch l' = watch l
  /\ configChanges l' = configChanges l
  /\ requestedChanges l' = requestedChanges l
  /\ updatesChan l' = updatesChan l /\ resultsChan l' = resultsChan l
  /\ maxDuration l' = maxDuration l /\ timeout l' = timeout l
  /\ renderGif l' = renderGif l /\ configOutFile l' = configOutFile l.

(** Two loaders that agree on all [loadApplet] reads. *)
Definition same_inputs (l l' : Loader) : Prop :=
  fs l' = fs l /\ watch l' = watch l /\ applet l' = applet l
  /\ initialLoad l' = initialLoad l /\ maxDuration l' = maxDuration l
  /\ timeout l' = timeout l /\ renderGif l' = renderGif l.

(** What holds of the gate in every state [Run] reaches. *)
Definition gate_inv (l : Loader) (t : list Event) : Prop :=
  gate_wf l /\ gate_history l t /\ (watch l = false -> released l = true).

(** An Update that came out of an on-demand cycle. *)
Definition on_demand (t : Trigger) : Prop :=
  match t with ByRequest _ => True | ByFileChange => False end.

(** Every Update waiting in [resultsChan], and every Update a caller has
    been handed, came out of an on-demand cycle. *)
Definition results_on_demand (sys : Sys) : Prop :=
  Forall on_demand (origin sys)
  /\ forall i c t, callers sys !! i = Some c -> got c = Some t -> on_demand t.

(** The ghost lists run in step with the two channels they label. *)
Definition ghost_sync (sys : Sys) : Prop :=
  length (pending sys) = length (buf (requestedChanges (ldr (run sys))))
  /\ length (origin sys) = length (buf (resultsChan (ldr (run sys)))).

(** The Update a cycle has just put on [updatesChan]. *)
Definition produced (s : RunState) : option Update :=
  last (buf (updatesChan (ldr s))).

(** The state a turn of [Run] leads to, and the one a schedule leads to
    (the state it started from when it does not go through). *)
Definition after (c : Case) (s : RunState) (w : World) : RunState * World :=
  match Run_case c s w with
  | Done p => p
  | _ => (s, w)
  end.

Definition run_to (ls : list Label) (sys : Sys) : Sys :=
  default sys (exec ls sys).

(** Whether a turn completes, and whether a schedule goes through. *)
Definition completes (c : Case) (s : RunState) (w : World) : bool :=
  match Run_case c s w with
  | Done _ => true
  | _ => false
  end.

Definition goes_through (ls : list Label) (sys : Sys) : bool :=
  match exec ls sys with
  | Some _ => true
  | None => false
  end.

(** What [loadApplet] returned, and the contexts it ran the applet under. *)
Definition result_of (r : res (Loader * (string * option error) * World))
    : option (string * option error) :=
  match r with
  | Done (_, x, _) => Some x
  | _ => None
  end.

Definition contexts (t : list Event) : list Context :=
  flat_map (fun e => match e with
                     | EvRunWithConfig _ ctx _ => [ctx]
                     | _ => []
                     end) t.

Definition contexts_of (r : res (Loader * (string * option error) * World))
    : list Context :=
  match r with
  | Done (_, w) => contexts (trace w)
  | _ => []
  end.

(** What a schedule leaves behind: a caller, a file, the last Update. *)
Definition caller_after (ls : list Label) (sys : Sys) (i : nat)
    : option Caller :=
  sys' ← exec ls sys; callers sys' !! i.

Definition file_after (ls : list Label) (sys : Sys) (name : string)
    : option string :=
  sys' ← exec ls sys; disk (world sys') !! name.

Definition update_after (ls : list Label) (sys : Sys) : option Update :=
  sys' ← exec ls sys; produced (run sys').

(** The failure of a run that overran its deadline, as [loadApplet]
    returns it. *)
Definition timeout_failure (l : Loader) : error :=
  Errorf_w "error running script: " (Errorf_d "timeout after " (timeout l) "ms").

(** A cycle is a turn of [Run] other than the configuration case. *)
Definition is_cycle (c : Case) : bool :=
  match c with CaseConfig => false | _ => true end.

(** Exactly one of a non-empty image and a failure. *)
Definition exactly_one (up : Update) : Prop :=
  (Image up <> "" /\ Err up = None) \/ (Image up = "" /\ Err up <> None).

(** ** Counting over a schedule and its history *)

Definition is_marshal (e : Event) : bool :=
  match e with EvMarshal _ => true | _ => false end.

Definition is_encode (e : Event) : bool :=
  match e with EvEncode _ _ => true | _ => false end.

(** The events of the debug file: marshalling and writing. *)
Definition is_debug (e : Event) : bool :=
  match e with EvMarshal _ | EvWriteFile _ _ => true | _ => false end.

(** The events of the render half: the run and the encoding. *)
Definition is_render (e : Event) : bool :=
  match e with EvRunWithConfig _ _ _ | EvEncode _ _ => true | _ => false end.

(** How often the configuration has been marshalled: once per on-demand
    cycle. *)
Definition marshals (t : list Event) : nat :=
  length (filter (fun e => is_marshal e = true) t).

(** The turns of a schedule that are cycles, and those that are
    on-demand cycles. *)
Definition is_cycle_turn (lb : Label) : bool :=
  match lb with Select c => is_cycle c | _ => false end.

Definition is_request_turn (lb : Label) : bool :=
  match lb with Select CaseRequested => true | _ => false end.

Definition cycles (ls : list Label) : nat :=
  length (filter (fun lb => is_cycle_turn lb = true) ls).

Definition requests_served (ls : list Label) : nat :=
  length (filter (fun lb => is_request_turn lb = true) ls).

(** A caller whose call has returned, and one that has sent its request. *)
Definition returned (c : Caller) : bool :=
  match pc c with Returned _ _ => true | _ => false end.

Definition requesting (c : Caller) : bool :=
  match pc c with SentRequest | Returned _ _ => true | _ => false end.

(** What [GetSchema] answers for an applet. *)
Definition schema_of `{SC : !Schemas} (a : Applet) : string :=
  if (0 <? String.length (SchemaJSON a))%nat then SchemaJSON a
  else Schema_zero_json.

(** ** The browser side *)

(** The events the watcher broadcasts for one Update, in order. *)
Definition events_of (img_type : string) (up : Update)
    : list fanout.WebsocketEvent :=
  fanout.mkEvent fanout.EventTypeImage (Image up) img_type
  :: match Err up with
     | Some e => [fanout.mkEvent fanout.EventTypeErr (Error e) ""]
     | None => []
     end
  ++ (if String.eqb (Schema up) "" then []
      else [fanout.mkEvent fanout.EventTypeSchema (Schema up) ""]).

(** The image type the browser announces. *)
Definition served_type (b : browser.Browser) : string :=
  if browser.serveGif b then "gif" else "webp".

(** Whether a name has a capital letter of [A-Z]. *)
Fixpoint has_capital (s : string) : bool :=
  match s with
  | EmptyString => false
  | String c rest => FieldIcon.is_upper c || has_capital rest
  end.

Fixpoint capitals (s : string) : nat :=
  match s with
  | EmptyString => 0%nat
  | String c rest => ((if FieldIcon.is_upper c then 1 else 0) + capitals rest)%nat
  end.

(** The configuration of the latest on-demand cycle in a history. *)
Definition last_marshalled (t : list Event) : option Config :=
  last (omap (fun e => match e with EvMarshal c => Some c | _ => None end) t).

End Vocabulary.

Import loader.

(* ===================================================================== *)
(** * Properties                                                          *)
(* ===================================================================== *)

Lemma EncodeToString_empty (s : string) : EncodeToString s = "" <-> s = "".
Proof.
  split; [| intros ->; reflexivity].
  destruct s as [| a [| b [| c rest]]]; simpl; congruence.
Qed.

Section LoadApplet.
Context `{RT : Runtime}.
Import loader.

Lemma more_nil (w : World) : more w [] = w.
Proof. destruct w. unfold more. simpl. by rewrite app_nil_r. Qed.

Lemma more_more (w : World) a b : more (more w a) b = more w (a ++ b).
Proof. unfold more. simpl. by rewrite app_assoc. Qed.

Lemma emit_more e (w : World) : emit e w = Done (tt, more w [e]).
Proof. reflexivity. Qed.

Lemma release_released l : gate_wf l -> released l = true -> release l = l.
Proof.
  unfold gate_wf, released, release.
  destruct l as [? ? ? ? ? ? ? ? ? [b c d] ? ? ?]. simpl. by intros -> ->.
Qed.

(** [markInitialLoadComplete] in closed form: it returns, the gate is
    released, and [close] runs only if the gate was pending. *)
Lemma mark_eq l w :
  gate_wf l ->
  markInitialLoadComplete l w =
    Done (release l, more w (if released l then [] else [EvCloseInitialLoad])).
Proof.
  unfold gate_wf, released, markInitialLoadComplete, recv, close, release.
  destruct l as [? ? ? ? ? ? ? ? ? [b c d] ? ? ?]. simpl. intros ->.
  destruct d; simpl; [by rewrite more_nil | reflexivity].
Qed.

Lemma reload_eq l w :
  gate_wf l ->
  reload l w =
    Done (if watch l
          then match loadScript "app-id" (fs l) with
               | inl app => (set_applet app (release l), None)
               | inr err => (release l, Some err)
               end
          else (l, None),
          more w (reload_events l)).
Proof.
  intros Hwf. unfold reload, reload_events.
  destruct (watch l); [| by rewrite more_nil].
  unfold call_loadScript, bind, ret. rewrite emit_more, mark_eq by done.
  rewrite more_more. by destruct (loadScript _ _).
Qed.

Lemma render_eq l cfg w :
  render l cfg w =
    Done (match RunWithConfig (applet l) (deadline l) cfg with
          | inr err => ("", Some (Errorf_w "error running script: " err))
          | inl roots =>
              match encoded l (ScreensFromRoots roots) with
              | inr err => ("", Some (Errorf_w "error rendering: " err))
              | inl img => (EncodeToString img, None)
              end
          end,
          more w (EvRunWithConfig (applet l) (deadline l) cfg ::
                  match RunWithConfig (applet l) (deadline l) cfg with
                  | inr _ => []
                  | inl roots =>
                      [EvEncode (renderGif l) (cap_of l (ScreensFromRoots roots))]
                  end)).
Proof.
  unfold render, call_RunWithConfig, call_Encode, bind, ret, encoded, cap_of.
  cbv zeta. rewrite emit_more. fold (deadline l).
  destruct (RunWithConfig _ _ _) as [roots | err]; [| done].
  rewrite emit_more, more_more.
  destruct (renderGif l);
    [destruct (EncodeGIF _ _) | destruct (EncodeWebP _ _)]; reflexivity.
Qed.

(** [loadApplet] always returns, in one of the four ways of [loaded]. *)
Lemma loadApplet_total l cfg w :
  gate_wf l ->
  exists l' img err w',
    loadApplet l cfg w = Done ((l', (img, err)), w')
    /\ loaded l cfg w l' img err w'.
Proof.
  intros Hwf. unfold loadApplet, bind at 1. rewrite reload_eq by done.
  destruct (watch l) eqn:Hw.
  - destruct (loadScript _ _) as [app | e] eqn:Hload.
    + unfold bind, ret. rewrite render_eq, more_more.
      assert (Hre : reloaded l (set_applet app (release l))) by by constructor.
      change (deadline (set_applet app (release l))) with (deadline l).
      destruct (RunWithConfig _ _ _) as [roots | e] eqn:Hrun.
      * change (encoded (set_applet app (release l))) with (encoded l).
        change (cap_of (set_applet app (release l))) with (cap_of l).
        change (renderGif (set_applet app (release l))) with (renderGif l).
        destruct (encoded l _) as [img | e] eqn:Henc;
          do 4 eexists; (split; [reflexivity |]).
        -- by eapply loaded_ok.
        -- by eapply loaded_encode_failed.
      * do 4 eexists. split; [reflexivity |]. by eapply loaded_run_failed.
    + do 4 eexists. split; [reflexivity |]. by constructor.
  - unfold bind, ret. rewrite render_eq, more_more.
    assert (Hre : reloaded l l) by by constructor.
    destruct (RunWithConfig _ _ _) as [roots | e] eqn:Hrun.
    + destruct (encoded l _) as [img | e] eqn:Henc;
        do 4 eexists; (split; [reflexivity |]).
      * by eapply loaded_ok.
      * by eapply loaded_encode_failed.
    + do 4 eexists. split; [reflexivity |]. by eapply loaded_run_failed.
Qed.


(** ** One turn of [Run] *)

Lemma send_inv {A} (c c' : chan A) v :
  send c v = Done c' ->
  c' = mkChan (buf c ++ [v]) (cap c) false
  /\ closed c = false /\ (length (buf c) < cap c)%nat.
Proof.
  unfold send. destruct (closed c) eqn:Hc; [done |].
  destruct (Nat.ltb_spec (length (buf c)) (cap c)); [| done].
  by intros [= <-].
Qed.

Lemma send_room {A} (c : chan A) v :
  closed c = false -> (length (buf c) < cap c)%nat ->
  send c v = Done (mkChan (buf c ++ [v]) (cap c) false).
Proof.
  intros Hc Hlt. unfold send. rewrite Hc.
  destruct (Nat.ltb_spec (length (buf c)) (cap c)); [done | lia].
Qed.

Lemma recv_inv {A} (c c' : chan A) v :
  recv c = Done (v, c') ->
  (exists x rest, buf c = x :: rest /\ v = Some x
                  /\ c' = mkChan rest (cap c) (closed c))
  \/ (buf c = [] /\ closed c = true /\ v = None /\ c' = c).
Proof.
  unfold recv. destruct (buf c) as [| x rest] eqn:Hb.
  - destruct (closed c); [| done]. intros [= <- <-]. by right.
  - intros [= <- <-]. left. by exists x, rest.
Qed.

(** The on-demand branch, when it completes. *)
Lemma requested_inv s w s' w' :
  gate_wf (ldr s) ->
  Run_requestedChanges s w = Done (s', w') ->
  exists tok ch bytes l1 img err uc rc,
    recv (requestedChanges (ldr s)) = Done (tok, ch)
    /\ json_Marshal (config s) = inl bytes
    /\ (configOutFile (ldr s) <> "" ->
        WriteFile_error (disk w) (configOutFile (ldr s)) = None)
    /\ loaded (set_requestedChanges ch (ldr s)) (config s)
         (debug_written (ldr s) (config s) bytes w) l1 img err w'
    /\ send (updatesChan l1) (fill l1 img err) = Done uc
    /\ send (resultsChan l1) (fill l1 img err) = Done rc
    /\ s' = mkRun (set_resultsChan rc (set_updatesChan uc l1)) (config s).
Proof.
  intros Hwf. unfold Run_requestedChanges, bind at 1, lift.
  destruct (recv (requestedChanges (ldr s))) as [[tok ch] | |] eqn:Hrecv; [| done..].
  unfold call_Marshal, bind at 1 2, ret at 1. rewrite emit_more.
  destruct (json_Marshal (config s)) as [bytes | e] eqn:Hm; [| done].
  set (l0 := set_requestedChanges ch (ldr s)).
  assert (Hwf0 : gate_wf l0) by done.
  assert (Hstep : forall w0,
    w0 = debug_written (ldr s) (config s) bytes w ->
    bind (loadApplet l0 (config s)) (fun p =>
      let '(l, (img, err)) := p in
      let up := fill l img err in
      bind (lift (send (updatesChan l) up)) (fun uc =>
      let l := set_updatesChan uc l in
      bind (lift (send (resultsChan l) up)) (fun rc =>
      ret (mkRun (set_resultsChan rc l) (config s))))) w0 = Done (s', w') ->
    exists l1 img err uc rc,
      loaded l0 (config s) (debug_written (ldr s) (config s) bytes w) l1 img err w'
      /\ send (updatesChan l1) (fill l1 img err) = Done uc
      /\ send (resultsChan l1) (fill l1 img err) = Done rc
      /\ s' = mkRun (set_resultsChan rc (set_updatesChan uc l1)) (config s)).
  { intros w0 ->. unfold bind at 1.
    destruct (loadApplet_total l0 (config s)
                (debug_written (ldr s) (config s) bytes w) Hwf0)
      as (l1 & img & err & w1 & -> & Hl).
    unfold bind, lift, ret.
    destruct (send (updatesChan l1) _) as [uc | |] eqn:Hu; [| done..].
    change (resultsChan (set_updatesChan uc l1)) with (resultsChan l1).
    destruct (send (resultsChan l1) _) as [rc | |] eqn:Hr; [| done..].
    intros [= <- <-]. by exists l1, img, err, uc, rc. }
  unfold debug_written in *. change (configOutFile l0) with (configOutFile (ldr s)).
  destruct (String.eqb_spec (configOutFile (ldr s)) "") as [He | Hne].
  - unfold bind at 1, ret at 1. intros Hrun.
    destruct (Hstep _ eq_refl Hrun) as (l1 & img & err & uc & rc & ? & ? & ? & ?).
    exists tok, ch, bytes, l1, img, err, uc, rc. naive_solver.
  - unfold bind at 1 2, call_WriteFile, os_WriteFile. simpl.
    destruct (WriteFile_error (disk w) (configOutFile (ldr s))) as [e |] eqn:Hwr;
      [done |].
    unfold ret at 1. rewrite <- app_assoc. simpl. intros Hrun.
    destruct (Hstep _ eq_refl Hrun) as (l1 & img & err & uc & rc & ? & ? & ? & ?).
    exists tok, ch, bytes, l1, img, err, uc, rc. naive_solver.
Qed.

(** The file-change branch, when it completes. *)
Lemma file_inv s w s' w' :
  gate_wf (ldr s) ->
  Run_fileChanges s w = Done (s', w') ->
  exists tok ch l1 img err uc,
    recv (fileChanges (ldr s)) = Done (tok, ch)
    /\ loaded (set_fileChanges ch (ldr s)) (config s) w l1 img err w'
    /\ send (updatesChan l1) (fill_reload l1 img err) = Done uc
    /\ s' = mkRun (set_updatesChan uc l1) (config s).
Proof.
  intros Hwf. unfold Run_fileChanges, bind at 1, lift.
  destruct (recv (fileChanges (ldr s))) as [[tok ch] | |] eqn:Hrecv; [| done..].
  set (l0 := set_fileChanges ch (ldr s)).
  assert (Hwf0 : gate_wf l0) by done.
  unfold bind at 1.
  destruct (loadApplet_total l0 (config s) w Hwf0)
    as (l1 & img & err & w1 & -> & Hl).
  unfold bind, lift, ret. fold (fill_reload l1 img err).
  destruct (send (updatesChan l1) _) as [uc | |] eqn:Hu; [| done..].
  intros [= <- <-]. by exists tok, ch, l1, img, err, uc.
Qed.


(** ** What [loadApplet] leaves alone *)

Lemma reloaded_facts l l' :
  gate_wf l -> reloaded l l' ->
  gate_wf l' /\ same_wiring l l'
  /\ (watch l = true -> released l' = true)
  /\ (watch l = false -> l' = l).
Proof.
  intros Hwf [Hw | app Hw Hload]; unfold same_wiring.
  - rewrite Hw. naive_solver.
  - rewrite Hw. by destruct l.
Qed.

Lemma loaded_facts l cfg w l' img err w' :
  gate_wf l -> loaded l cfg w l' img err w' ->
  gate_wf l' /\ same_wiring l l' /\ disk w' = disk w
  /\ (watch l = true -> released l' = true)
  /\ (watch l = false -> l' = l)
  /\ (err <> None -> img = "").
Proof.
  intros Hwf Hl.
  destruct Hl as [e Hw Hload | l' e Hre Hrun | l' roots e Hre Hrun Henc
                 | l' roots img Hre Hrun Henc].
  - rewrite Hw. unfold same_wiring. by destruct l.
  - destruct (reloaded_facts l l' Hwf Hre) as (? & ? & ? & ?). naive_solver.
  - destruct (reloaded_facts l l' Hwf Hre) as (? & ? & ? & ?). naive_solver.
  - destruct (reloaded_facts l l' Hwf Hre) as (? & ? & ? & ?). naive_solver.
Qed.

(** The failed reload: the old applet stays. *)
Lemma loaded_reload_failure l cfg w l' img err w' e :
  watch l = true -> loadScript "app-id" (fs l) = inr e ->
  loaded l cfg w l' img err w' ->
  l' = release l /\ img = "" /\ err = Some e /\ w' = more w (reload_events l).
Proof.
  intros Hw Hload Hl.
  assert (Hno : forall l1, reloaded l l1 -> False).
  { intros l1 [Hoff | app _ Hok]; congruence. }
  destruct Hl as [e' _ Hload' | l' e' Hre | l' roots e' Hre | l' roots img Hre];
    try (exfalso; eauto; fail).
  rewrite Hload in Hload'. by injection Hload' as <-.
Qed.

(** ** Counting in the history *)

Lemma closes_app (a b : list Event) : closes (a ++ b) = (closes a + closes b)%nat.
Proof. unfold closes. by rewrite filter_app, length_app. Qed.

Lemma loads_app (a b : list Event) : loads (a ++ b) = (loads a + loads b)%nat.
Proof. unfold loads. by rewrite filter_app, length_app. Qed.

Lemma gate_history_more l t evs :
  gate_history l t -> loads evs = 0%nat -> closes evs = 0%nat ->
  gate_history l (t ++ evs).
Proof.
  unfold gate_history. intros Hh Hl Hc. destruct (released l).
  - destruct Hh as (pre & id & src & post & -> & ? & ? & ?).
    exists pre, id, src, (post ++ evs). rewrite <- app_assoc. simpl.
    rewrite closes_app. repeat split; try done. lia.
  - rewrite loads_app, closes_app. lia.
Qed.

Lemma gate_history_closes l t :
  gate_history l t -> closes t = if released l then 1%nat else 0%nat.
Proof.
  unfold gate_history. destruct (released l); [| tauto].
  intros (pre & id & src & post & -> & ? & Hc & Hp).
  rewrite closes_app. change (EvLoadScript id src :: EvCloseInitialLoad :: post)
    with ([EvLoadScript id src; EvCloseInitialLoad] ++ post).
  rewrite closes_app, Hc, Hp. reflexivity.
Qed.

Lemma gate_history_loads l t :
  gate_history l t -> released l = true <-> (0 < loads t)%nat.
Proof.
  unfold gate_history. destruct (released l).
  - intros (pre & id & src & post & -> & ? & Hc & Hp).
    rewrite loads_app. change (EvLoadScript id src :: EvCloseInitialLoad :: post)
      with ([EvLoadScript id src] ++ EvCloseInitialLoad :: post).
    rewrite loads_app. change (loads [EvLoadScript id src]) with 1%nat.
    split; [lia | done].
  - intros [-> _]. split; [done | lia].
Qed.

Lemma gate_inv_reloaded l l' t :
  gate_inv l t -> reloaded l l' -> gate_inv l' (t ++ reload_events l).
Proof.
  intros (Hwf & Hh & Hnw) Hre.
  destruct (reloaded_facts l l' Hwf Hre) as (Hwf' & Hsame & Hon & Hoff).
  destruct Hre as [Hw | app Hw Hload].
  - unfold reload_events. rewrite Hw, app_nil_r. by split; [| split].
  - split; [done | split; [| done]].
    unfold gate_history, reload_events in *. rewrite Hw.
    change (released (set_applet app (release l))) with true. cbv iota.
    destruct (released l).
    + destruct Hh as (pre & id & src & post & -> & ? & ? & ?).
      exists pre, id, src, (post ++ [EvLoadScript "app-id" (fs l)]).
      rewrite <- app_assoc. simpl. rewrite closes_app.
      repeat split; try done. change (closes [_]) with 0%nat. lia.
    + destruct Hh as [? ?]. exists t, "app-id", (fs l), []. by rewrite ?app_nil_r.
Qed.

Lemma gate_inv_release l t :
  gate_inv l t -> watch l = true -> gate_inv (release l) (t ++ reload_events l).
Proof.
  intros (Hwf & Hh & Hnw) Hw. split; [by destruct l | split; [| by destruct l]].
  unfold gate_history, reload_events in *. rewrite Hw.
  change (released (release l)) with true. cbv iota.
  destruct (released l).
  - destruct Hh as (pre & id & src & post & -> & ? & ? & ?).
    exists pre, id, src, (post ++ [EvLoadScript "app-id" (fs l)]).
    rewrite <- app_assoc. simpl. rewrite closes_app.
    repeat split; try done. change (closes [_]) with 0%nat. lia.
  - destruct Hh as [? ?]. exists t, "app-id", (fs l), []. by rewrite ?app_nil_r.
Qed.

Lemma gate_inv_more l t evs :
  gate_inv l t -> loads evs = 0%nat -> closes evs = 0%nat -> gate_inv l (t ++ evs).
Proof.
  intros (? & ? & ?) ? ?. split; [done | split; [| done]].
  by apply gate_history_more.
Qed.

(** [loadApplet] keeps the gate in step with the history. *)
Lemma gate_inv_loaded l cfg w l' img err w' :
  gate_inv l (trace w) -> loaded l cfg w l' img err w' ->
  gate_inv l' (trace w').
Proof.
  intros Hinv Hl.
  destruct Hl as [e Hw Hload | l' e Hre Hrun | l' roots e Hre Hrun Henc
                 | l' roots img Hre Hrun Henc]; simpl.
  - by apply gate_inv_release.
  - rewrite app_assoc. apply gate_inv_more; [by apply gate_inv_reloaded | done..].
  - rewrite app_assoc. apply gate_inv_more; [by apply gate_inv_reloaded | done..].
  - rewrite app_assoc. apply gate_inv_more; [by apply gate_inv_reloaded | done..].
Qed.


(** ** The gate along [Run] *)

Lemma debug_written_more l cfg bytes (w : World) :
  exists evs, trace (debug_written l cfg bytes w) = trace w ++ evs
              /\ loads evs = 0%nat /\ closes evs = 0%nat
              /\ Forall (fun e => is_run e = false) evs.
Proof.
  unfold debug_written. destruct (String.eqb _ _); simpl; eexists;
    (split; [reflexivity |]); repeat split; by repeat constructor.
Qed.

Lemma Run_case_gate_inv c s w s' w' :
  gate_inv (ldr s) (trace w) ->
  Run_case c s w = Done (s', w') ->
  gate_inv (ldr s') (trace w').
Proof.
  intros Hinv Hrun. pose proof Hinv as (Hwf & _ & _). destruct c; simpl in Hrun.
  - unfold Run_configChanges, bind, lift, ret in Hrun.
    destruct (recv _) as [[c ch] | |]; [| done..]. by injection Hrun as <- <-.
  - destruct (requested_inv _ _ _ _ Hwf Hrun)
      as (tok & ch & bytes & l1 & img & err & uc & rc & _ & _ & _ & Hl & _ & _ & ->).
    destruct (debug_written_more (ldr s) (config s) bytes w)
      as (evs & Hevs & ? & ? & _).
    eapply gate_inv_loaded in Hl; [exact Hl |].
    rewrite Hevs. by apply (gate_inv_more (ldr s)).
  - destruct (file_inv _ _ _ _ Hwf Hrun)
      as (tok & ch & l1 & img & err & uc & _ & Hl & _ & ->).
    eapply gate_inv_loaded in Hl; [exact Hl | exact Hinv].
Qed.

Lemma caller_step_gate_inv i s s' :
  caller_step i s = Some s' ->
  gate_inv (ldr (run s)) (trace (world s)) ->
  gate_inv (ldr (run s')) (trace (world s')).
Proof.
  unfold caller_step. destruct (callers s !! i) as [c |]; [| done]. simpl.
  destruct (pc c).
  - destruct (send _ _); [| done..]. by intros [= <-].
  - destruct (send _ _); [| done..]. by intros [= <-].
  - destruct (recv _) as [[[r |] ch] | |]; [| done..]. by intros [= <-].
  - done.
Qed.

Lemma step_gate_inv lb s s' :
  step lb s = Some s' ->
  gate_inv (ldr (run s)) (trace (world s)) ->
  gate_inv (ldr (run s')) (trace (world s')).
Proof.
  unfold step. destruct (halted s); [done |].
  destruct lb as [i | i | i | c | src].
  1-3: destruct (callers s !! i) as [c |]; simpl; [| done];
       destruct (pc c); simpl; try done; apply caller_step_gate_inv.
  - destruct (Run_case c (run s) (world s)) as [[r w] | |] eqn:Hrun; [| done |].
    + intros Hs Hinv. pose proof (Run_case_gate_inv _ _ _ _ _ Hinv Hrun).
      by destruct c; injection Hs as <-.
    + by intros [= <-].
  - destruct (send _ _); [| done..]. by intros [= <-].
Qed.

Lemma exec_gate_inv ls s s' :
  exec ls s = Some s' ->
  gate_inv (ldr (run s)) (trace (world s)) ->
  gate_inv (ldr (run s')) (trace (world s')).
Proof.
  revert s. induction ls as [| lb ls IH]; intros s; simpl.
  - by intros [= <-].
  - destruct (step lb s) as [s1 |] eqn:Hstep; [| done]. simpl.
    intros Hex Hinv. eapply IH; [exact Hex |]. by eapply step_gate_inv.
Qed.

(** [NewLoader]: without watching, the one reload attempt and the release;
    with watching, nothing yet. *)
Lemma NewLoader_gate fsys watching fileCh updatesCh maxDur tmo gif outFile d r w :
  NewLoader fsys watching fileCh updatesCh maxDur tmo gif outFile (mkWorld d [])
    = Done (r, w) ->
  trace w = (if watching then []
             else [EvLoadScript "app-id" fsys; EvCloseInitialLoad])
  /\ forall l, r = inl l ->
       gate_inv l (trace w) /\ watch l = watching
       /\ buf (resultsChan l) = [] /\ buf (requestedChanges l) = [].
Proof.
  unfold NewLoader. cbv zeta. simpl. destruct watching; simpl.
  - intros [= <- <-]. split; [done |]. by intros l [= <-].
  - unfold call_loadScript, bind, ret. rewrite emit_more, mark_eq by done.
    rewrite more_more. simpl.
    destruct (loadScript "app-id" fsys) as [app | e]; intros [= <- <-];
      (split; [done |]); [| done].
    intros l [= <-]. repeat split; try done.
    unfold gate_history. simpl. by exists [], "app-id", fsys, [].
Qed.

Lemma mark_n_released l w n :
  gate_wf l -> released l = true -> mark_n n l w = Done (l, w).
Proof.
  intros Hwf Hr. induction n as [| n IH]; [done |]. simpl. unfold bind.
  rewrite mark_eq, Hr, more_nil, release_released by done. exact IH.
Qed.


Lemma produced_send (l : Loader) up uc cfg :
  send (updatesChan l) up = Done uc ->
  produced (mkRun (set_updatesChan uc l) cfg) = Some up.
Proof.
  intros Hs. apply send_inv in Hs as (-> & _ & _).
  unfold produced. simpl. apply last_snoc.
Qed.

(** What a cycle that completes hands over: the loader [loadApplet] was
    called on, what it returned, the events before it and the Update. *)
Lemma cycle_inv c s w s' w' :
  is_cycle c = true -> gate_wf (ldr s) ->
  Run_case c s w = Done (s', w') ->
  exists l0 w0 l1 img err evs,
    same_inputs (ldr s) l0
    /\ trace w0 = trace w ++ evs /\ Forall (fun e => is_run e = false) evs
    /\ loaded l0 (config s) w0 l1 img err w'
    /\ same_inputs l1 (ldr s')
    /\ config s' = config s
    /\ produced s' = Some (match c with
                           | CaseFile => fill_reload l1 img err
                           | _ => fill l1 img err
                           end).
Proof.
  intros Hc Hwf Hrun. destruct c; [done | |]; simpl in Hrun.
  - destruct (requested_inv _ _ _ _ Hwf Hrun)
      as (tok & ch & bytes & l1 & img & err & uc & rc & _ & _ & _ & Hl & Hu & _ & ->).
    destruct (debug_written_more (ldr s) (config s) bytes w)
      as (evs & Hevs & ? & ? & ?).
    exists (set_requestedChanges ch (ldr s)),
      (debug_written (ldr s) (config s) bytes w), l1, img, err, evs.
    repeat split; try done. exact (produced_send l1 _ uc (config s) Hu).
  - destruct (file_inv _ _ _ _ Hwf Hrun)
      as (tok & ch & l1 & img & err & uc & _ & Hl & Hu & ->).
    exists (set_fileChanges ch (ldr s)), w, l1, img, err, [].
    rewrite app_nil_r. repeat split; try done.
    exact (produced_send l1 _ uc (config s) Hu).
Qed.

Lemma same_inputs_events l l0 :
  same_inputs l l0 ->
  reload_events l0 = reload_events l /\ deadline l0 = deadline l
  /\ release l0 = set_initialLoad (initialLoad (release l)) l0.
Proof.
  unfold same_inputs, reload_events, deadline, released, release.
  intros (-> & -> & _ & -> & _ & -> & _). done.
Qed.


(** C6. When the reload of watch mode fails, [loadApplet] returns the
    reload error and no image, releases the Ready Gate if it was pending
    and keeps the applet it had; the cycle's Update carries that error,
    and the applet is not run. *)
Theorem reload_failure_keeps_applet (l : Loader) (err : error) :
  gate_wf l -> watch l = true -> loadScript "app-id" (fs l) = inr err ->
  (forall cfg w,
     exists l' w',
       loadApplet l cfg w = Done ((l', ("", Some err)), w')
       /\ applet l' = applet l /\ released l' = true
       /\ (released l = true -> l' = l)
       /\ closes (trace w') =
            (closes (trace w) + if released l then 0 else 1)%nat)
  /\ (forall c s w s' w',
        ldr s = l -> is_cycle c = true -> Run_case c s w = Done (s', w') ->
        produced s' = Some (mkUpdate "" "" "" (Some err))
        /\ applet (ldr s') = applet l /\ released (ldr s') = true
        /\ exists evs, trace w' = trace w ++ evs
                       /\ Forall (fun e => is_run e = false) evs).
Proof.
  intros Hwf Hw Hload. split.
  - intros cfg w. exists (release l), (more w (reload_events l)).
    split; [| split; [by destruct l | split; [done | split]]].
    + unfold loadApplet, bind. rewrite reload_eq by done. by rewrite Hw, Hload.
    + intros Hr. by apply release_released.
    + simpl. rewrite closes_app. unfold reload_events. rewrite Hw.
      by destruct (released l).
  - intros c s w s' w' <- Hc Hrun.
    destruct (cycle_inv c s w s' w' Hc Hwf Hrun)
      as (l0 & w0 & l1 & img & e & evs & Hin & Hevs & Hq & Hl & Hout & _ & Hp).
    pose proof Hin as (Hfs & Hw0 & Ha & Hil & _).
    destruct (loaded_reload_failure l0 (config s) w0 l1 img e w' err)
      as (-> & -> & -> & ->); [congruence | congruence | done |].
    destruct Hout as (_ & _ & Ha' & Hil' & _).
    split; [| split; [| split]].
    + rewrite Hp. by destruct c.
    + rewrite Ha'. simpl. done.
    + unfold released. rewrite Hil'. done.
    + exists (evs ++ reload_events l0). simpl. rewrite Hevs, app_assoc.
      split; [done |]. apply Forall_app. split; [done |].
      unfold reload_events. destruct (watch l0); [| done].
      destruct (released l0); by repeat constructor.
Qed.


(** ** The deadline of a run *)

Lemma Duration_ms_exact (n : Z) :
  -9223372036854 <= n <= 9223372036854 -> Duration_ms n = n * 1000000.
Proof.
  intros Hn. unfold Duration_ms, wrap64, Millisecond.
  rewrite (Z.mod_small (n + 2 ^ 63)) by lia.
  replace (n + 2 ^ 63 - 2 ^ 63) with n by lia.
  rewrite Z.mod_small by lia. lia.
Qed.

Lemma overrun_fails (a : Applet) (ctx : Context) (cfg : Config) :
  ctx_timeout ctx < fst (execute a cfg) ->
  RunWithConfig a ctx cfg = inr (ctx_cause ctx).
Proof.
  unfold RunWithConfig. destruct (execute a cfg) as [needed r]. simpl.
  intros Hlt. by destruct (Z.ltb_spec (ctx_timeout ctx) needed); [| lia].
Qed.

Lemma reload_events_quiet l : Forall (fun e => is_run e = false) (reload_events l).
Proof.
  unfold reload_events. destruct (watch l); [| done].
  destruct (released l); by repeat constructor.
Qed.

(** The events of [loadApplet]: at most one run, of the applet in place
    after the reload, under the context built from [l.timeout]. *)
Lemma loaded_run_event l cfg w l' img err w' :
  loaded l cfg w l' img err w' ->
  exists evs, w' = more w evs
    /\ (forall a ctx c, EvRunWithConfig a ctx c ∈ evs ->
          a = applet l' /\ ctx = deadline l /\ c = cfg
          /\ (RunWithConfig a ctx c = inr (ctx_cause ctx) ->
              img = "" /\ err = Some (timeout_failure l)))
    /\ (reloaded l l' -> EvRunWithConfig (applet l') (deadline l) cfg ∈ evs).
Proof.
  assert (Hq : forall a ctx c, EvRunWithConfig a ctx c ∉ reload_events l).
  { intros a ctx c Hin. pose proof (reload_events_quiet l) as Hf.
    rewrite Forall_forall in Hf. by apply Hf in Hin. }
  intros Hl.
  destruct Hl as [e Hw Hload | l' e Hre Hrun | l' roots e Hre Hrun Henc
                 | l' roots img Hre Hrun Henc];
    eexists; (split; [reflexivity |]); split.
  - intros a ctx c Hin. by apply Hq in Hin.
  - intros [Hoff | app _ Hok]; congruence.
  - intros a ctx c [Hin | Heq%list_elem_of_singleton]%elem_of_app;
      [by apply Hq in Hin |].
    injection Heq as -> -> ->. split; [done | split; [done | split; [done |]]].
    intros Hc. rewrite Hrun in Hc. by injection Hc as ->.
  - intros _. set_solver.
  - intros a ctx c [Hin | [Heq | Heq%list_elem_of_singleton]%elem_of_cons]%elem_of_app;
      [by apply Hq in Hin | | done].
    injection Heq as -> -> ->. split; [done | split; [done | split; [done |]]].
    intros Hc. congruence.
  - intros _. set_solver.
  - intros a ctx c [Hin | [Heq | Heq%list_elem_of_singleton]%elem_of_cons]%elem_of_app;
      [by apply Hq in Hin | | done].
    injection Heq as -> -> ->. split; [done | split; [done | split; [done |]]].
    intros Hc. congruence.
  - intros _. set_solver.
Qed.

(** Every run of a cycle is handed the retained configuration. *)
Lemma cycle_run_config (c : Case) (s : RunState) (w : World) (s' : RunState)
    (w' : World) :
  is_cycle c = true -> gate_wf (ldr s) ->
  Run_case c s w = Done (s', w') ->
  exists evs, trace w' = trace w ++ evs
    /\ forall a ctx cfg, EvRunWithConfig a ctx cfg ∈ evs -> cfg = config s.
Proof.
  intros Hc Hwf Hrun.
  destruct (cycle_inv c s w s' w' Hc Hwf Hrun)
    as (l0 & w0 & l1 & img & e & evs & _ & Hevs & Hq & Hl & _).
  destruct (loaded_run_event _ _ _ _ _ _ _ Hl) as (evs1 & -> & Hev & _).
  exists (evs ++ evs1). split; [simpl; by rewrite Hevs, app_assoc |].
  intros a ctx cfg [Hpre | Hrunev]%elem_of_app.
  - rewrite Forall_forall in Hq. by apply Hq in Hpre.
  - by destruct (Hev a ctx cfg Hrunev) as (_ & _ & -> & _).
Qed.

(** C5, amended.  Every run of a cycle is handed the retained
    configuration and a context whose time is [l.timeout] milliseconds as
    a 64-bit count of nanoseconds, which is exactly [l.timeout]
    milliseconds when that count fits, and whose cause is "timeout after
    <l.timeout>ms".  A run that overruns it makes the cycle's Update the
    failure that wraps this cause, with no image.  Unless the reload
    failed, the cycle does run the applet. *)
Theorem run_deadline (c : Case) (s : RunState) (w : World) (s' : RunState) (w' : World) :
  is_cycle c = true -> gate_wf (ldr s) ->
  Run_case c s w = Done (s', w') ->
  exists evs, trace w' = trace w ++ evs
    /\ (forall a ctx cfg, EvRunWithConfig a ctx cfg ∈ evs ->
          a = applet (ldr s') /\ cfg = config s
          /\ ctx_timeout ctx = Duration_ms (timeout (ldr s))
          /\ (-9223372036854 <= timeout (ldr s) <= 9223372036854 ->
              ctx_timeout ctx = timeout (ldr s) * 1000000)
          /\ ctx_cause ctx = Errorf_d "timeout after " (timeout (ldr s)) "ms"
          /\ (ctx_timeout ctx < fst (execute a cfg) ->
              produced s' =
                Some (mkUpdate "" "" "" (Some (timeout_failure (ldr s))))
              /\ Unwrap (timeout_failure (ldr s)) = Some (ctx_cause ctx)
              /\ Error (timeout_failure (ldr s)) =
                   "error running script: timeout after "
                     +:+ pretty (timeout (ldr s)) +:+ "ms"))
    /\ (watch (ldr s) = false
        \/ (exists app, loadScript "app-id" (fs (ldr s)) = inl app) ->
        exists a ctx, EvRunWithConfig a ctx (config s) ∈ evs).
Proof.
  intros Hc Hwf Hrun.
  destruct (cycle_inv c s w s' w' Hc Hwf Hrun)
    as (l0 & w0 & l1 & img & e & evs & Hin & Hevs & Hq & Hl & Hout & _ & Hp).
  destruct (loaded_run_event _ _ _ _ _ _ _ Hl) as (evs1 & -> & Hev & Hsome).
  destruct (same_inputs_events _ _ Hin) as (_ & Hd & _).
  pose proof Hin as (Hfs & Hw0 & _ & _ & _ & Ht & _).
  exists (evs ++ evs1). split; [simpl; by rewrite Hevs, app_assoc |]. split.
  - intros a ctx cfg [Hpre | Hrunev]%elem_of_app.
    { rewrite Forall_forall in Hq. by apply Hq in Hpre. }
    destruct (Hev a ctx cfg Hrunev) as (-> & -> & -> & Hover).
    destruct Hout as (_ & _ & Happ & _).
    rewrite Hd. split; [done |]. split; [done |]. split; [done |].
    split; [intros Hn; simpl; by apply Duration_ms_exact |]. split; [done |].
    intros Hlt. destruct Hover as [-> ->].
    { apply overrun_fails. by rewrite Hd. }
    split; [| split; [done |]].
    + rewrite Hp. unfold timeout_failure, fill_reload, fill. rewrite Ht.
      by destruct c.
    + unfold timeout_failure, Errorf_w, Errorf_d. simpl. reflexivity.
  - intros Hok. exists (applet l1), (deadline l0). apply elem_of_app. right.
    apply Hsome. clear Hev Hsome Hp.
    assert (Hnf : forall e0, ~ (watch l0 = true /\ loadScript "app-id" (fs l0) = inr e0)).
    { intros e0 [Hw1 Hl1]. rewrite Hw0, Hfs in *. destruct Hok as [? | [app ?]]; congruence. }
    destruct Hl as [e0 Hw1 Hload | | |]; [| done..].
    exfalso. by eapply Hnf.
Qed.

(** ** The shape of an Update *)

Lemma same_inputs_encoded l l0 :
  same_inputs l l0 -> encoded l0 = encoded l.
Proof.
  unfold same_inputs, encoded, cap_of. by intros (_ & _ & _ & _ & -> & _ & ->).
Qed.

(** C2, amended.  The Update of a completed cycle never has both an
    image and a failure.  With a failure the image, its type and the
    schema are empty.  Without one the image is the base64 text of the
    bytes the encoder returned, empty exactly when those bytes are; so
    exactly one of image and failure holds unless the encoder returned no
    bytes and no error.  A schema comes only with a file-change cycle
    that succeeded. *)
Theorem outcome_shape (c : Case) (s : RunState) (w : World) (s' : RunState) (w' : World) :
  is_cycle c = true -> gate_wf (ldr s) ->
  Run_case c s w = Done (s', w') ->
  exists up, produced s' = Some up
    /\ ~ (Image up <> "" /\ Err up <> None)
    /\ (Err up <> None -> Image up = "" /\ ImageType up = "" /\ Schema up = "")
    /\ (Err up = None ->
        exists screens bytes,
          encoded (ldr s) screens = inl bytes
          /\ Image up = EncodeToString bytes
          /\ (Image up = "" <-> bytes = "")
          /\ (bytes <> "" -> exactly_one up))
    /\ (Schema up <> "" -> c = CaseFile /\ Err up = None).
Proof.
  intros Hc Hwf Hrun.
  destruct (cycle_inv c s w s' w' Hc Hwf Hrun)
    as (l0 & w0 & l1 & img & e & evs & Hin & Hevs & Hq & Hl & Hout & _ & Hp).
  eexists. split; [exact Hp |].
  rewrite <- (same_inputs_encoded _ _ Hin).
  destruct Hl as [e0 Hw Hload | l1 e0 Hre Hrn | l1 roots e0 Hre Hrn Henc
                 | l1 roots bytes Hre Hrn Henc].
  1-3: destruct c; [done | |]; simpl; (split; [tauto |]);
       (split; [done |]); (split; [done |]); done.
  assert (Hshape : forall sch,
    let up := mkUpdate (EncodeToString bytes)
                (if renderGif l1 then "gif" else "webp") sch None in
    ~ (Image up <> "" /\ Err up <> None)
    /\ (Err up <> None -> Image up = "" /\ ImageType up = "" /\ Schema up = "")
    /\ (Err up = None ->
        exists screens bytes0,
          encoded l0 screens = inl bytes0
          /\ Image up = EncodeToString bytes0
          /\ (Image up = "" <-> bytes0 = "")
          /\ (bytes0 <> "" -> exactly_one up))).
  { intros sch up. split; [simpl; tauto |]. split; [done |]. intros _.
    exists (ScreensFromRoots roots), bytes. split; [done |]. split; [done |].
    split; [apply EncodeToString_empty |].
    intros Hne. left. simpl. split; [| done].
    by rewrite EncodeToString_empty. }
  destruct c; [done | |]; simpl.
  - destruct (Hshape "") as (? & ? & ?). by repeat split.
  - destruct (Hshape (SchemaJSON (applet l1))) as (? & ? & ?). by repeat split.
Qed.

(** ** The configuration case *)

(** C7.  Taking a configuration off [configChanges] replaces the
    retained configuration by it and does nothing else: the world is as
    before (no file, no event), no Update is put on either channel, the
    applet, the gate and every other channel are as before.  The cycles
    that follow run with the new configuration. *)
Theorem config_update_only_replaces (s : RunState) (w : World) (c : Config)
    (rest : list Config) :
  buf (configChanges (ldr s)) = c :: rest ->
  exists s',
    Run_case CaseConfig s w = Done (s', w)
    /\ config s' = c
    /\ ldr s' = set_configChanges
                  (mkChan rest (cap (configChanges (ldr s)))
                     (closed (configChanges (ldr s)))) (ldr s)
    /\ updatesChan (ldr s') = updatesChan (ldr s)
    /\ resultsChan (ldr s') = resultsChan (ldr s)
    /\ applet (ldr s') = applet (ldr s)
    /\ initialLoad (ldr s') = initialLoad (ldr s)
    /\ requestedChanges (ldr s') = requestedChanges (ldr s)
    /\ fileChanges (ldr s') = fileChanges (ldr s)
    /\ (forall cy s2 w2,
          is_cycle cy = true -> gate_wf (ldr s) ->
          Run_case cy s' w = Done (s2, w2) ->
          exists evs, trace w2 = trace w ++ evs
            /\ forall a ctx cfg, EvRunWithConfig a ctx cfg ∈ evs -> cfg = c).
Proof.
  intros Hbuf. eexists. split.
  { simpl. unfold Run_configChanges, bind, lift, recv, ret. by rewrite Hbuf. }
  simpl. repeat split.
  intros cy s2 w2 Hcy Hwf Hrun.
  eapply cycle_run_config in Hrun as (evs & Hevs & Hev); [| done | done].
  by exists evs.
Qed.

(** ** The two [panic(err)] of the on-demand branch *)

Lemma halted_stuck (sys : Sys) p lb : halted sys = Some p -> step lb sys = None.
Proof. unfold step. by intros ->. Qed.

(** C10.  With a request waiting: a marshalling failure panics; with a
    debug path, a failed write of the debug file panics as well; either
    panic halts [Run] for good.  When marshalling succeeds and the write
    succeeds or there is no debug path, neither [panic(err)] is reached. *)
Theorem debug_write_failure_is_fatal (s : RunState) (w : World) :
  gate_wf (ldr s) -> buf (requestedChanges (ldr s)) <> [] ->
  (forall err, json_Marshal (config s) = inr err ->
     Run_requestedChanges s w = Panicked (PanicError err))
  /\ (forall bytes err,
        json_Marshal (config s) = inl bytes ->
        configOutFile (ldr s) <> "" ->
        WriteFile_error (disk w) (configOutFile (ldr s)) = Some err ->
        Run_requestedChanges s w = Panicked (PanicError err))
  /\ (forall bytes,
        json_Marshal (config s) = inl bytes ->
        configOutFile (ldr s) = ""
        \/ WriteFile_error (disk w) (configOutFile (ldr s)) = None ->
        forall e, Run_requestedChanges s w <> Panicked (PanicError e))
  /\ (forall sys p,
        halted sys = None -> run sys = s -> world sys = w ->
        Run_requestedChanges s w = Panicked p ->
        exists sys', step (Select CaseRequested) sys = Some sys'
                     /\ halted sys' = Some p
                     /\ forall lb, step lb sys' = None).
Proof.
  intros Hwf Hbuf.
  assert (Hrecv : exists tok ch, recv (requestedChanges (ldr s)) = Done (tok, ch)).
  { unfold recv. destruct (buf _) as [| x r]; [done | eauto]. }
  destruct Hrecv as (tok & ch & Hrecv).
  split; [| split; [| split]].
  - intros err Hm. unfold Run_requestedChanges, bind at 1, lift. rewrite Hrecv.
    unfold call_Marshal, bind, ret. rewrite emit_more, Hm. done.
  - intros bytes err Hm Hne Hwr.
    unfold Run_requestedChanges, bind at 1, lift. rewrite Hrecv.
    unfold call_Marshal, bind at 1 2, ret at 1. rewrite emit_more, Hm.
    change (configOutFile (set_requestedChanges ch (ldr s)))
      with (configOutFile (ldr s)).
    destruct (String.eqb_spec (configOutFile (ldr s)) ""); [done |].
    unfold bind at 1 2, call_WriteFile, os_WriteFile. simpl. by rewrite Hwr.
  - intros bytes Hm Hok e.
    unfold Run_requestedChanges, bind at 1, lift. rewrite Hrecv.
    unfold call_Marshal, bind at 1 2, ret at 1. rewrite emit_more, Hm.
    change (configOutFile (set_requestedChanges ch (ldr s)))
      with (configOutFile (ldr s)).
    set (l0 := set_requestedChanges ch (ldr s)).
    assert (Hrest : forall w0,
      bind (loadApplet l0 (config s)) (fun p =>
        let '(l, (img, err)) := p in
        let up := fill l img err in
        bind (lift (send (updatesChan l) up)) (fun uc =>
        let l := set_updatesChan uc l in
        bind (lift (send (resultsChan l) up)) (fun rc =>
        ret (mkRun (set_resultsChan rc l) (config s))))) w0
      <> Panicked (PanicError e)).
    { intros w0. unfold bind at 1.
      destruct (loadApplet_total l0 (config s) w0) as (l1 & img & er & w1 & -> & _);
        [done |].
      unfold bind, lift, ret, send.
      destruct (closed (updatesChan l1)); [done |].
      destruct (_ <? _)%nat; [| done]. simpl.
      destruct (closed (resultsChan l1)); [done |].
      by destruct (_ <? _)%nat. }
    destruct (String.eqb_spec (configOutFile (ldr s)) "") as [He | Hne].
    + unfold bind at 1, ret at 1. apply Hrest.
    + destruct Hok as [? | Hwr]; [done |].
      unfold bind at 1 2, call_WriteFile, os_WriteFile. simpl. rewrite Hwr.
      unfold ret at 1. apply Hrest.
  - intros sys p Hh Hr Hw Hp.
    eexists. split; [| split].
    + unfold step. rewrite Hh. simpl. rewrite Hr, Hw, Hp. reflexivity.
    + done.
    + intros lb. by eapply halted_stuck.
Qed.


(** ** The Ready Gate *)

Lemma cycle_releases_gate c s w s' w' :
  is_cycle c = true -> gate_wf (ldr s) -> watch (ldr s) = true ->
  Run_case c s w = Done (s', w') -> released (ldr s') = true.
Proof.
  intros Hc Hwf Hw Hrun.
  destruct (cycle_inv c s w s' w' Hc Hwf Hrun)
    as (l0 & w0 & l1 & img & e & evs & Hin & _ & _ & Hl & Hout & _).
  pose proof Hin as (_ & Hw0 & _ & Hil & _).
  assert (Hwf0 : gate_wf l0) by (unfold gate_wf; by rewrite Hil).
  destruct (loaded_facts _ _ _ _ _ _ _ Hwf0 Hl) as (_ & _ & _ & Hrel & _).
  destruct Hout as (_ & _ & _ & Hil' & _).
  unfold released in *. rewrite Hil'. apply Hrel. congruence.
Qed.

(** C4.  In every state a loader reaches after [NewLoader], whatever
    the schedule: [close(l.initialLoad)] has run at most once; the gate is
    released exactly when it has run, which is exactly when a reload has
    been attempted, and the [close] is the event right after the first
    attempt, whatever that attempt returned.  A further call of
    [markInitialLoadComplete] returns without a panic, and once the gate
    is released any number of calls change nothing.  In watch mode every
    cycle, failed or not, leaves the gate released. *)
Theorem ready_gate_released_once (fsys : FS) (watching : bool)
    (fileCh : chan bool) (updatesCh : chan Update) (maxDur tmo : Z)
    (gif : bool) (outFile : string) (d : Disk) (l : Loader) (w : World)
    (configs : list Config) (ls : list Label) (sys : Sys) :
  NewLoader fsys watching fileCh updatesCh maxDur tmo gif outFile (mkWorld d [])
    = Done (inl l, w) ->
  exec ls (boot l w configs) = Some sys ->
  let l1 := ldr (run sys) in
  let t := trace (world sys) in
  (closes t <= 1)%nat
  /\ (released l1 = true <-> closes t = 1%nat)
  /\ (released l1 = true <-> (0 < loads t)%nat)
  /\ (released l1 = true ->
      exists pre id src post,
        t = pre ++ EvLoadScript id src :: EvCloseInitialLoad :: post
        /\ loads pre = 0%nat /\ closes pre = 0%nat /\ closes post = 0%nat)
  /\ (exists l2 w2,
        markInitialLoadComplete l1 (world sys) = Done (l2, w2)
        /\ released l2 = true /\ (closes (trace w2) <= 1)%nat
        /\ (released l1 = true -> l2 = l1 /\ w2 = world sys)
        /\ forall n, mark_n n l2 w2 = Done (l2, w2))
  /\ (forall c s' w',
        is_cycle c = true -> watch l1 = true ->
        Run_case c (run sys) (world sys) = Done (s', w') ->
        released (ldr s') = true).
Proof.
  intros Hnew Hexec l1 t.
  destruct (NewLoader_gate _ _ _ _ _ _ _ _ _ _ _ Hnew) as (_ & Hl).
  destruct (Hl l eq_refl) as (Hinv0 & _).
  pose proof (exec_gate_inv ls _ _ Hexec Hinv0) as Hinv.
  fold l1 t in Hinv. destruct Hinv as (Hwf & Hh & Hnw).
  pose proof (gate_history_closes _ _ Hh) as Hc.
  pose proof (gate_history_loads _ _ Hh) as Hlo.
  split; [| split; [| split; [| split; [| split]]]].
  - rewrite Hc. destruct (released l1); lia.
  - rewrite Hc. destruct (released l1); split; (done || lia).
  - exact Hlo.
  - intros Hr. unfold gate_history in Hh. by rewrite Hr in Hh.
  - exists (release l1),
      (more (world sys) (if released l1 then [] else [EvCloseInitialLoad])).
    split; [by apply mark_eq |]. split; [by destruct l1 |]. split; [| split].
    + simpl. rewrite closes_app. fold t. rewrite Hc.
      by destruct (released l1).
    + intros Hr. rewrite Hr, more_nil. split; [by apply release_released | done].
    + intros n. apply mark_n_released; by destruct l1.
  - intros c s' w' Hcy Hw Hrun. by eapply cycle_releases_gate.
Qed.

(** ** Where the Updates of [resultsChan] come from *)

(** The file-change branch puts nothing on [resultsChan]. *)
Lemma file_cycle_no_result s w s' w' :
  gate_wf (ldr s) -> Run_fileChanges s w = Done (s', w') ->
  resultsChan (ldr s') = resultsChan (ldr s).
Proof.
  intros Hwf Hrun.
  destruct (file_inv _ _ _ _ Hwf Hrun)
    as (tok & ch & l1 & img & err & uc & _ & Hl & _ & ->).
  apply loaded_facts in Hl as (_ & Hsame & _); [| done].
  destruct Hsame as (_ & _ & _ & _ & _ & _ & Hres & _). simpl. by rewrite Hres.
Qed.

Lemma step_results_on_demand lb sys sys' :
  step lb sys = Some sys' -> results_on_demand sys -> results_on_demand sys'.
Proof.
  unfold step. destruct (halted sys); [done |]. intros Hstep [Ho Hg].
  assert (Hcaller : forall i, caller_step i sys = Some sys' ->
                              results_on_demand sys').
  { clear Hstep. intros i. unfold caller_step.
    destruct (callers sys !! i) as [c |] eqn:Hci; [| done]. simpl.
    assert (Hupd : forall c' o, Forall on_demand o ->
              (forall t, got c' = Some t -> on_demand t) ->
              forall j cj t, <[i := c']> (callers sys) !! j = Some cj ->
                             got cj = Some t -> on_demand t).
    { intros c' o _ Hc' j cj t Hj Hgot.
      destruct (decide (i = j)) as [<- | Hne].
      - rewrite list_lookup_insert_eq in Hj by by eapply lookup_lt_Some.
        injection Hj as <-. exact (Hc' t Hgot).
      - rewrite list_lookup_insert_ne in Hj by done. exact (Hg j cj t Hj Hgot). }
    destruct (pc c).
    - destruct (send _ _); [| done..]. intros [= <-]. split; [done |]. simpl.
      eapply Hupd; [done |]. simpl. intros t. by apply (Hg i c).
    - destruct (send _ _); [| done..]. intros [= <-]. split; [done |]. simpl.
      eapply Hupd; [done |]. simpl. intros t. by apply (Hg i c).
    - destruct (recv _) as [[[r |] ch] | |]; [| done..]. intros [= <-].
      split; simpl.
      + destruct (origin sys); [done |]. by inversion Ho.
      + eapply Hupd; [done |]. simpl. intros t Ht.
        destruct (origin sys) as [| t0 o]; [done |]. simpl in Ht.
        injection Ht as <-. by inversion Ho.
    - done. }
  destruct lb as [i | i | i | c | src].
  1-3: destruct (callers sys !! i) as [c |]; simpl in Hstep; [| done];
       destruct (pc c); simpl in Hstep; try done; by eapply Hcaller.
  - destruct (Run_case c (run sys) (world sys)) as [[r w] | |]; [| done |].
    + destruct c; injection Hstep as <-; split; try done.
      simpl. apply Forall_app. split; [done |]. by repeat constructor.
    + by injection Hstep as <-.
  - destruct (send _ _); [| done..]. by injection Hstep as <-.
Qed.

(** Whatever the schedule, a caller of [LoadApplet] is handed the Update
    of an on-demand cycle, never that of a file-change cycle. *)
Lemma exec_results_on_demand ls sys sys' :
  exec ls sys = Some sys' -> results_on_demand sys -> results_on_demand sys'.
Proof.
  revert sys. induction ls as [| lb ls IH]; intros sys; simpl.
  - by intros [= <-].
  - destruct (step lb sys) as [s1 |] eqn:Hstep; [| done]. simpl.
    intros Hex Hinv. eapply IH; [exact Hex |]. by eapply step_results_on_demand.
Qed.

Lemma boot_results_on_demand l w configs : results_on_demand (boot l w configs).
Proof.
  split; [by constructor |]. intros i c t Hi. unfold boot in Hi. simpl in Hi.
  rewrite list_lookup_fmap in Hi.
  destruct (configs !! i); simpl in Hi; [| done]. by injection Hi as <-.
Qed.

Lemma step_ghost_sync lb sys sys' :
  gate_wf (ldr (run sys)) ->
  step lb sys = Some sys' -> ghost_sync sys -> ghost_sync sys'.
Proof.
  intros Hwf. unfold step. destruct (halted sys); [done |].
  intros Hstep [Hp Ho].
  assert (Hcaller : forall i, caller_step i sys = Some sys' -> ghost_sync sys').
  { clear Hstep. intros i. unfold caller_step, ghost_sync.
    destruct (callers sys !! i) as [c |]; [| done]. simpl. destruct (pc c).
    - destruct (send _ _); [| done..]. by intros [= <-].
    - destruct (send (requestedChanges _) _) as [ch | |] eqn:Hs; [| done..].
      intros [= <-]. simpl. apply send_inv in Hs as (-> & _). simpl.
      rewrite !length_app. simpl. by rewrite Hp.
    - destruct (recv (resultsChan _)) as [[[r |] ch] | |] eqn:Hr; [| done..].
      intros [= <-]. simpl.
      apply recv_inv in Hr as [(x & rest & Hb & _ & ->) | (_ & _ & ? & _)];
        [| done].
      simpl. rewrite Hb in Ho. split; [done |].
      destruct (origin sys); simpl in *; congruence.
    - done. }
  destruct lb as [i | i | i | c | src].
  1-3: destruct (callers sys !! i) as [c |]; simpl in Hstep; [| done];
       destruct (pc c); simpl in Hstep; try done; by eapply Hcaller.
  - destruct (Run_case c (run sys) (world sys)) as [[r w] | |] eqn:Hrun;
      [| done |]; [| by injection Hstep as <-].
    destruct c; injection Hstep as <-; unfold ghost_sync; simpl in *.
    + unfold Run_configChanges, bind, lift, ret in Hrun.
      destruct (recv _) as [[c ch] | |]; [| done..]. by injection Hrun as <-.
    + destruct (requested_inv _ _ _ _ Hwf Hrun)
        as (tok & ch & bytes & l1 & img & err & uc & rc & Hrecv & _ & _ & Hl
            & _ & Hr & ->).
      apply loaded_facts in Hl as (_ & Hsame & _); [| done].
      destruct Hsame as (_ & _ & _ & _ & Hreq & _ & Hres & _).
      apply send_inv in Hr as (-> & _). simpl. rewrite Hreq, Hres. simpl.
      rewrite !length_app. simpl. split; [| lia].
      apply recv_inv in Hrecv as [(x & rest & Hb & _ & ->) | (Hb & _ & _ & ->)].
      * simpl. rewrite Hb in Hp. destruct (pending sys); simpl in *; congruence.
      * rewrite Hb in *. by destruct (pending sys).
    + destruct (file_inv _ _ _ _ Hwf Hrun)
        as (tok & ch & l1 & img & err & uc & _ & Hl & _ & ->).
      apply loaded_facts in Hl as (_ & Hsame & _); [| done].
      destruct Hsame as (_ & _ & _ & _ & Hreq & _ & Hres & _).
      simpl. by rewrite Hreq, Hres.
  - destruct (send _ _); [| done..]. by injection Hstep as <-.
Qed.

Lemma exec_ghost_sync ls sys sys' :
  exec ls sys = Some sys' ->
  gate_inv (ldr (run sys)) (trace (world sys)) ->
  ghost_sync sys -> ghost_sync sys'.
Proof.
  revert sys. induction ls as [| lb ls IH]; intros sys; simpl.
  - by intros [= <-].
  - destruct (step lb sys) as [s1 |] eqn:Hstep; [| done]. simpl.
    intros Hex Hinv Hsync. eapply IH; [exact Hex | |].
    + by eapply step_gate_inv.
    + eapply step_ghost_sync; [| exact Hstep | exact Hsync]. by destruct Hinv.
Qed.

(** X1.  After [NewLoader], whatever the schedule: every Update waiting
    in [resultsChan] and every Update a caller of [LoadApplet] has been
    handed came out of an on-demand cycle, never out of a file-change
    cycle; the labels that say so are one per element of the channels
    they label; and a file-change cycle leaves [resultsChan] as it is. *)
Theorem results_come_from_requests (fsys : FS) (watching : bool)
    (fileCh : chan bool) (updatesCh : chan Update) (maxDur tmo : Z)
    (gif : bool) (outFile : string) (d : Disk) (l : Loader) (w : World)
    (configs : list Config) (ls : list Label) (sys : Sys) :
  NewLoader fsys watching fileCh updatesCh maxDur tmo gif outFile (mkWorld d [])
    = Done (inl l, w) ->
  exec ls (boot l w configs) = Some sys ->
  results_on_demand sys /\ ghost_sync sys
  /\ forall s' w',
       Run_case CaseFile (run sys) (world sys) = Done (s', w') ->
       resultsChan (ldr s') = resultsChan (ldr (run sys)).
Proof.
  intros Hnew Hexec.
  destruct (NewLoader_gate _ _ _ _ _ _ _ _ _ _ _ Hnew) as (_ & Hl).
  destruct (Hl l eq_refl) as (Hinv0 & _ & Hres & Hreq).
  split; [| split].
  - eapply exec_results_on_demand; [exact Hexec |]. apply boot_results_on_demand.
  - eapply exec_ghost_sync; [exact Hexec | exact Hinv0 |].
    unfold ghost_sync. simpl. by rewrite Hres, Hreq.
  - intros s' w' Hrun. eapply file_cycle_no_result; [| exact Hrun].
    by destruct (exec_gate_inv ls _ _ Hexec Hinv0).
Qed.

(** ** Cycles that complete *)

(** X3.  An on-demand turn is taken to its end when a request waits, the
    configuration marshals, the debug file (if any) can be written and
    both output channels are open with room: nothing else can make it
    wait or panic. *)
Theorem requested_completes (s : RunState) (w : World) (bytes : string) :
  gate_wf (ldr s) -> buf (requestedChanges (ldr s)) <> [] ->
  json_Marshal (config s) = inl bytes ->
  (configOutFile (ldr s) = ""
   \/ WriteFile_error (disk w) (configOutFile (ldr s)) = None) ->
  closed (updatesChan (ldr s)) = false ->
  (length (buf (updatesChan (ldr s))) < cap (updatesChan (ldr s)))%nat ->
  closed (resultsChan (ldr s)) = false ->
  (length (buf (resultsChan (ldr s))) < cap (resultsChan (ldr s)))%nat ->
  exists s' w' up,
    Run_case CaseRequested s w = Done (s', w')
    /\ produced s' = Some up
    /\ buf (resultsChan (ldr s')) = buf (resultsChan (ldr s)) ++ [up]
    /\ buf (updatesChan (ldr s')) = buf (updatesChan (ldr s)) ++ [up].
Proof.
  intros Hwf Hbuf Hm Hok Huc Hul Hrc Hrl. simpl.
  unfold Run_requestedChanges, bind at 1, lift, recv.
  destruct (buf (requestedChanges (ldr s))) as [| tok rest] eqn:Hb; [done |].
  unfold call_Marshal, bind at 1 2, ret at 1. rewrite emit_more, Hm.
  set (l0 := set_requestedChanges _ (ldr s)).
  assert (Hrest : forall w0, exists s' w' up,
    bind (loadApplet l0 (config s)) (fun p =>
      let '(l, (img, err)) := p in
      let up := fill l img err in
      bind (lift (send (updatesChan l) up)) (fun uc =>
      let l := set_updatesChan uc l in
      bind (lift (send (resultsChan l) up)) (fun rc =>
      ret (mkRun (set_resultsChan rc l) (config s))))) w0 = Done (s', w')
    /\ produced s' = Some up
    /\ buf (resultsChan (ldr s')) = buf (resultsChan (ldr s)) ++ [up]
    /\ buf (updatesChan (ldr s')) = buf (updatesChan (ldr s)) ++ [up]).
  { intros w0. unfold bind at 1.
    destruct (loadApplet_total l0 (config s) w0) as (l1 & img & er & w1 & -> & Hl);
      [done |].
    apply loaded_facts in Hl as (_ & Hsame & _); [| done].
    destruct Hsame as (_ & _ & _ & _ & _ & Hupd & Hres & _).
    unfold bind, lift, ret. rewrite Hupd. change (updatesChan l0) with (updatesChan (ldr s)).
    rewrite send_room by done.
    change (resultsChan (set_updatesChan _ l1)) with (resultsChan l1).
    rewrite Hres. change (resultsChan l0) with (resultsChan (ldr s)).
    rewrite send_room by done.
    do 3 eexists. split; [reflexivity |]. simpl. split; [apply last_snoc | done]. }
  change (configOutFile l0) with (configOutFile (ldr s)).
  destruct (String.eqb_spec (configOutFile (ldr s)) "") as [He | Hne].
  - unfold bind at 1, ret at 1. apply Hrest.
  - destruct Hok as [? | Hwr]; [done |].
    unfold bind at 1 2, call_WriteFile, os_WriteFile. simpl. rewrite Hwr.
    unfold ret at 1. apply Hrest.
Qed.

(** ** The debug file *)

(** The file after an on-demand cycle with a debug path. *)
Lemma requested_writes_first (s : RunState) (w : World) (s' : RunState)
    (w' : World) :
  gate_wf (ldr s) -> configOutFile (ldr s) <> "" ->
  Run_requestedChanges s w = Done (s', w') ->
  exists bytes,
    json_Marshal (config s) = inl bytes
    /\ disk w' = <[configOutFile (ldr s) := bytes]> (disk w).
Proof.
  intros Hwf Hne Hrun.
  destruct (requested_inv _ _ _ _ Hwf Hrun)
    as (tok & ch & bytes & l1 & img & err & uc & rc & _ & Hm & _ & Hl & _).
  exists bytes. split; [done |].
  apply loaded_facts in Hl as (_ & _ & -> & _); [| done].
  unfold debug_written. by destruct (String.eqb_spec (configOutFile (ldr s)) "").
Qed.

(** X2.  An on-demand cycle with a debug path marshals the retained
    configuration and writes the result to the path, replacing what the
    file held, before it reloads, runs or encodes anything; it marshals
    and writes once. *)
Theorem debug_write_precedes_render (s : RunState) (w : World) (s' : RunState)
    (w' : World) :
  gate_wf (ldr s) -> configOutFile (ldr s) <> "" ->
  Run_requestedChanges s w = Done (s', w') ->
  exists bytes evs,
    json_Marshal (config s) = inl bytes
    /\ disk w' = <[configOutFile (ldr s) := bytes]> (disk w)
    /\ trace w' = trace w ++ EvMarshal (config s)
                    :: EvWriteFile (configOutFile (ldr s)) bytes :: evs
    /\ Forall (fun e => match e with
                        | EvMarshal _ | EvWriteFile _ _ => False
                        | _ => True
                        end) evs.
Proof.
  intros Hwf Hne Hrun.
  destruct (requested_inv _ _ _ _ Hwf Hrun)
    as (tok & ch & bytes & l1 & img & err & uc & rc & _ & Hm & _ & Hl & _).
  exists bytes. unfold debug_written in Hl.
  destruct (String.eqb_spec (configOutFile (ldr s)) ""); [done |].
  assert (Hq : Forall (fun e => match e with
                        | EvMarshal _ | EvWriteFile _ _ => False
                        | _ => True
                        end) (reload_events (set_requestedChanges ch (ldr s)))).
  { unfold reload_events. destruct (watch _); [| done].
    destruct (released _); by repeat constructor. }
  destruct Hl as [e Hw Hload | l1 e Hre Hrn | l1 roots e Hre Hrn Henc
                 | l1 roots img Hre Hrn Henc];
    eexists; (split; [done |]); (split; [done |]);
    (split; [simpl; rewrite <- app_assoc; reflexivity |]);
    rewrite ?Forall_app; repeat split; try done; by repeat constructor.
Qed.

(** The on-demand branch puts its Update last on [resultsChan]. *)
Lemma requested_cycle_result s w s' w' :
  gate_wf (ldr s) -> Run_requestedChanges s w = Done (s', w') ->
  exists up, produced s' = Some up
    /\ buf (resultsChan (ldr s')) = buf (resultsChan (ldr s)) ++ [up]
    /\ config s' = config s /\ configOutFile (ldr s') = configOutFile (ldr s).
Proof.
  intros Hwf Hrun.
  destruct (requested_inv _ _ _ _ Hwf Hrun)
    as (tok & ch & bytes & l1 & img & err & uc & rc & _ & _ & _ & Hl & Hu & Hr & ->).
  apply loaded_facts in Hl as (_ & Hsame & _); [| done].
  destruct Hsame as (_ & _ & _ & _ & _ & _ & Hres & _ & _ & _ & Hout).
  exists (fill l1 img err). split; [exact (produced_send l1 _ uc (config s) Hu) |].
  apply send_inv in Hr as (-> & _). simpl. by rewrite Hres, Hout.
Qed.

Lemma exec_cons_inv lb ls sys sys' :
  exec (lb :: ls) sys = Some sys' ->
  exists s1, step lb sys = Some s1 /\ exec ls s1 = Some sys'.
Proof.
  simpl. destruct (step lb sys) as [s1 |]; [| done]. simpl. eauto.
Qed.

(** X4.  One call of [LoadApplet] on a loader with a debug path whose
    channels are empty, served in the order the caller sends: when the
    call has returned, the file holds the JSON of the caller's
    configuration, and what the call returned is the Update of the cycle
    its own request set off. *)
Theorem in_order_call_writes_config (l : Loader) (w : World) (cfg : Config)
    (sys : Sys) :
  gate_wf l -> configOutFile l <> "" ->
  buf (configChanges l) = [] -> buf (resultsChan l) = [] ->
  exec (in_order 0) (boot l w [cfg]) = Some sys ->
  exists bytes up,
    json_Marshal cfg = inl bytes
    /\ disk (world sys) !! configOutFile l = Some bytes
    /\ produced (run sys) = Some up
    /\ callers sys !! 0%nat =
         Some (mkCaller cfg (Returned (Image up) (Err up)) (Some (ByRequest 0))).
Proof.
  intros Hwf Hout Hcfg Hres Hex. unfold in_order, boot in Hex.
  (* caller 0 sends its configuration *)
  apply exec_cons_inv in Hex as (s1 & H1 & Hex).
  unfold step in H1. simpl in H1. unfold caller_step in H1. simpl in H1.
  destruct (send (configChanges l) cfg) as [ch1 | |] eqn:Hs1; [| done..].
  apply send_inv in Hs1 as (-> & _). rewrite Hcfg in H1. injection H1 as <-.
  (* Run takes it *)
  apply exec_cons_inv in Hex as (s2 & H2 & Hex).
  unfold step in H2. simpl in H2.
  unfold Run_configChanges, bind, lift, recv, ret in H2. simpl in H2.
  injection H2 as <-.
  (* caller 0 sends its request *)
  apply exec_cons_inv in Hex as (s3 & H3 & Hex).
  unfold step in H3. simpl in H3. unfold caller_step in H3. simpl in H3.
  destruct (send (requestedChanges l) true) as [ch2 | |] eqn:Hs2; [| done..].
  injection H3 as <-.
  (* Run serves it *)
  apply exec_cons_inv in Hex as (s4 & H4 & Hex).
  unfold step in H4. simpl in H4.
  destruct (Run_requestedChanges _ w) as [[r w1] | |] eqn:Hrun; [| done |].
  2: { injection H4 as <-. apply exec_cons_inv in Hex as (s5 & H5 & _). done. }
  injection H4 as <-.
  pose proof Hrun as Hrun'.
  apply requested_writes_first in Hrun as (bytes & Hm & Hd); [| done | done].
  apply requested_cycle_result in Hrun' as (up & Hp & Hr & _ & _); [| done].
  simpl in Hm, Hd, Hr. rewrite Hres in Hr. simpl in Hr.
  (* caller 0 receives *)
  apply exec_cons_inv in Hex as (s5 & H5 & Hex).
  unfold step in H5. simpl in H5. unfold caller_step in H5. simpl in H5.
  unfold recv in H5. rewrite Hr in H5. injection H5 as <-.
  injection Hex as <-. simpl.
  exists bytes, up. split; [exact Hm |]. split.
  - rewrite Hd. apply lookup_insert_eq.
  - split; [| done]. unfold produced in *. simpl. exact Hp.
Qed.

(** ** The update watcher *)

Lemma failed_update_has_no_image c s w s' w' up :
  is_cycle c = true -> gate_wf (ldr s) ->
  Run_case c s w = Done (s', w') ->
  produced s' = Some up -> Err up <> None -> Image up = "".
Proof.
  intros Hc Hwf Hrun Hp He.
  destruct (cycle_inv c s w s' w' Hc Hwf Hrun)
    as (l0 & w0 & l1 & img & e & evs & _ & _ & _ & _ & _ & _ & Hp').
  rewrite Hp in Hp'. injection Hp' as ->.
  destruct c; [done | |]; by destruct e.
Qed.

(** C3.  For one Update taken off the channel the watcher hands to
    [Broadcast], in this order: one Image event with the Update's image
    and the served image type; then one Error event with the text of
    [Err] exactly when [Err] is not nil; then one Schema event exactly
    when [Schema] is not empty.  Every registered connection has exactly
    these events added to its queue.  For the Update of a cycle that
    failed the Image event's message is empty. *)
Theorem updateWatcher_events (b : browser.Browser) (up : Update)
    (rest : list Update) :
  buf (browser.updateChan b) = up :: rest ->
  let image :=
    fanout.mkEvent fanout.EventTypeImage (Image up)
      (if browser.serveGif b then "gif" else "webp") in
  let errors :=
    match Err up with
    | Some e => [fanout.mkEvent fanout.EventTypeErr (Error e) ""]
    | None => []
    end in
  let schemas :=
    if decide (Schema up = "") then []
    else [fanout.mkEvent fanout.EventTypeSchema (Schema up) ""] in
  (exists b',
     browser.updateWatcher_turn b = Done b'
     /\ buf (browser.updateChan b') = rest
     /\ fanout.calls (browser.fo b') =
          fanout.calls (browser.fo b) ++ image :: errors ++ schemas
     /\ fanout.clients (browser.fo b') =
          map (fun c => (fst c, snd c ++ image :: errors ++ schemas))
            (fanout.clients (browser.fo b)))
  /\ (errors = [] <-> Err up = None)
  /\ (schemas = [] <-> Schema up = "")
  /\ (forall c s w s' w',
        is_cycle c = true -> gate_wf (ldr s) ->
        Run_case c s w = Done (s', w') ->
        produced s' = Some up -> Err up <> None ->
        fanout.Message image = "").
Proof.
  intros Hbuf image errors schemas. split; [| split; [| split]].
  - unfold browser.updateWatcher_turn, recv. rewrite Hbuf.
    eexists. split; [reflexivity |]. simpl. split; [done |].
    unfold browser.broadcast_update, fanout.Broadcast. subst image errors schemas.
    destruct (Err up) as [e |]; simpl;
      destruct (String.eqb_spec (Schema up) "") as [Hs | Hs];
      destruct (decide (Schema up = "")); try done; simpl;
      rewrite <- ?app_assoc; (split; [reflexivity |]);
      rewrite ?map_map; apply map_ext; intros [conn q]; simpl;
      by rewrite <- ?app_assoc.
  - subst errors. by destruct (Err up).
  - subst schemas. by destruct (decide (Schema up = "")).
  - intros c s w s' w' Hc Hwf Hrun Hp He. simpl.
    by eapply failed_update_has_no_image.
Qed.

End LoadApplet.

(** ** The websocket handler *)

Lemma broadcast_keeps_registry img_type up fo :
  map fst (fanout.clients (browser.broadcast_update img_type up fo))
  = map fst (fanout.clients fo).
Proof.
  unfold browser.broadcast_update, fanout.Broadcast.
  destruct (loader.Err up); destruct (String.eqb _ _); simpl;
    rewrite ?map_map; simpl; reflexivity.
Qed.

Lemma act_no_watch a b b' :
  browser.watch b = false -> browser.act a b = Some b' ->
  browser.watch b' = false
  /\ browser.upgrades b' = browser.upgrades b
  /\ map fst (fanout.clients (browser.fo b'))
     = map fst (fanout.clients (browser.fo b)).
Proof.
  intros Hw. destruct a as [r | up |]; simpl.
  - unfold browser.websocketHandler. rewrite Hw. simpl. by intros [= <-].
  - destruct (send _ _); [| done..]. by intros [= <-].
  - unfold browser.updateWatcher_turn. destruct (recv _) as [[up ch] | |]; [| done..].
    intros [= <-]. simpl. split; [done |]. split; [done |].
    apply broadcast_keeps_registry.
Qed.

(** C9.  Without watch mode the websocket handler returns the browser as
    it was: the request is not handed to [Upgrade] and no client is
    registered.  So from [NewBrowser], whatever requests, Updates and
    watcher turns follow, the hub's registry stays empty. *)
Theorem websocket_needs_watch (b : browser.Browser) :
  browser.watch b = false ->
  (forall r, browser.websocketHandler b r = b)
  /\ (forall l b',
        browser.acts l b = Some b' ->
        browser.upgrades b' = browser.upgrades b
        /\ map fst (fanout.clients (browser.fo b'))
           = map fst (fanout.clients (browser.fo b)))
  /\ (forall updateCh gif l b',
        b = browser.NewBrowser false updateCh gif ->
        browser.acts l b = Some b' ->
        fanout.clients (browser.fo b') = [] /\ browser.upgrades b' = []).
Proof.
  intros Hw.
  assert (Hacts : forall l b0 b',
    browser.watch b0 = false -> browser.acts l b0 = Some b' ->
    browser.upgrades b' = browser.upgrades b0
    /\ map fst (fanout.clients (browser.fo b'))
       = map fst (fanout.clients (browser.fo b0))).
  { induction l as [| a l IH]; intros b0 b' Hw0; simpl.
    - by intros [= <-].
    - destruct (browser.act a b0) as [b1 |] eqn:Ha; [| done]. simpl.
      intros Hrest.
      destruct (act_no_watch a b0 b1 Hw0 Ha) as (Hw1 & Hu1 & Hc1).
      destruct (IH b1 b' Hw1 Hrest) as (Hu & Hc). split; congruence. }
  split; [| split].
  - intros r. unfold browser.websocketHandler. by rewrite Hw.
  - intros l b'. by apply Hacts.
  - intros updateCh gif l b' -> Hrun.
    destruct (Hacts l _ b' Hw Hrun) as (Hu & Hc). simpl in *.
    split; [| done]. by destruct (fanout.clients (browser.fo b')).
Qed.

(* ===================================================================== *)
(** * Further properties: the HTTP side, longer schedules, the page       *)
(* ===================================================================== *)

(** ** Strings *)

Lemma append_cons (x : ascii) (a b : string) :
  String x a +:+ b = String x (a +:+ b).
Proof. reflexivity. Qed.

Lemma append_assoc (a b c : string) : (a +:+ b) +:+ c = a +:+ (b +:+ c).
Proof.
  induction a as [| x a IH]; [done |]. rewrite !append_cons. by rewrite IH.
Qed.

Lemma append_nil_r (a : string) : a +:+ "" = a.
Proof. induction a as [| x a IH]; [done |]. rewrite append_cons. by rewrite IH. Qed.

Lemma length_append (a b : string) :
  String.length (a +:+ b) = (String.length a + String.length b)%nat.
Proof.
  induction a as [| x a IH]; [done |]. rewrite append_cons. simpl. by rewrite IH.
Qed.

(** ** Base64: what [loadApplet] encodes, [imageHandler] decodes *)

Lemma decodeMap_b64char (i : N) : (i < 64)%N -> decodeMap (b64char i) = Some i.
Proof.
  intros Hi.
  assert (Hall : forallb (fun n => match decodeMap (b64char (N.of_nat n)) with
                                   | Some k => (k =? N.of_nat n)%N
                                   | None => false
                                   end) (seq 0 64) = true) by (vm_compute; reflexivity).
  rewrite forallb_forall in Hall.
  specialize (Hall (N.to_nat i)). rewrite N2Nat.id in Hall.
  destruct (decodeMap (b64char i)) as [k |].
  - f_equal. apply N.eqb_eq. apply Hall. apply in_seq. lia.
  - exfalso. enough (false = true) by done. apply Hall. apply in_seq. lia.
Qed.

Lemma N_of_ascii_lt (a : ascii) : (N_of_ascii a < 256)%N.
Proof. destruct a as [[] [] [] [] [] [] [] []]; vm_compute; reflexivity. Qed.

Lemma land_255 (x : N) : N.land x 255 = (x mod 256)%N.
Proof. change 255%N with (N.ones 8). by rewrite N.land_ones. Qed.

Lemma land_mul_small (x y k : N) :
  (y < 2 ^ k)%N -> N.land (x * 2 ^ k) y = 0%N.
Proof.
  intros Hy. rewrite <- N.shiftl_mul_pow2.
  apply N.bits_inj. intros n. rewrite N.land_spec, N.bits_0.
  destruct (N.lt_ge_cases n k) as [Hn | Hn].
  - by rewrite N.shiftl_spec_low.
  - rewrite andb_false_iff. right.
    destruct (N.eq_dec y 0%N) as [-> | Hne]; [apply N.bits_0 |].
    apply N.bits_above_log2. apply N.log2_lt_pow2; [lia |].
    eapply N.lt_le_trans; [exact Hy |]. apply N.pow_le_mono_r; lia.
Qed.

Lemma lor_mul_add (x y k : N) :
  (y < 2 ^ k)%N -> N.lor (x * 2 ^ k) y = (x * 2 ^ k + y)%N.
Proof.
  intros Hy. rewrite <- N.lxor_lor by by apply land_mul_small.
  by rewrite <- N.add_nocarry_lxor by by apply land_mul_small.
Qed.

Lemma land_63 (x : N) : N.land x 63 = (x mod 64)%N.
Proof. change 63%N with (N.ones 6). by rewrite N.land_ones. Qed.

Lemma pack3 (a b c : N) :
  (b < 256)%N -> (c < 256)%N ->
  N.lor (N.lor (N.shiftl a 16) (N.shiftl b 8)) c = (a * 65536 + b * 256 + c)%N.
Proof.
  intros Hb Hc. rewrite !N.shiftl_mul_pow2.
  rewrite (lor_mul_add a _ 16) by (change (2 ^ 16)%N with 65536%N; change (2 ^ 8)%N with 256%N; lia).
  change (2 ^ 16)%N with 65536%N. change (2 ^ 8)%N with 256%N.
  replace (a * 65536 + b * 256)%N with ((a * 256 + b) * 2 ^ 8)%N
    by (change (2 ^ 8)%N with 256%N; lia).
  rewrite lor_mul_add by (change (2 ^ 8)%N with 256%N; lia).
  change (2 ^ 8)%N with 256%N. lia.
Qed.

Lemma pack4 (d0 d1 d2 d3 : N) :
  (d1 < 64)%N -> (d2 < 64)%N -> (d3 < 64)%N ->
  N.lor (N.lor (N.lor (N.shiftl d0 18) (N.shiftl d1 12)) (N.shiftl d2 6)) d3
  = (d0 * 262144 + d1 * 4096 + d2 * 64 + d3)%N.
Proof.
  intros H1 H2 H3. rewrite !N.shiftl_mul_pow2.
  rewrite (lor_mul_add d0 _ 18)
    by (change (2 ^ 18)%N with 262144%N; change (2 ^ 12)%N with 4096%N; lia).
  change (2 ^ 18)%N with 262144%N. change (2 ^ 12)%N with 4096%N.
  replace (d0 * 262144 + d1 * 4096)%N with ((d0 * 64 + d1) * 2 ^ 12)%N
    by (change (2 ^ 12)%N with 4096%N; lia).
  rewrite lor_mul_add
    by (change (2 ^ 12)%N with 4096%N; change (2 ^ 6)%N with 64%N; lia).
  change (2 ^ 12)%N with 4096%N.
  replace ((d0 * 64 + d1) * 4096 + d2 * 2 ^ 6)%N
    with ((d0 * 4096 + d1 * 64 + d2) * 2 ^ 6)%N
    by (change (2 ^ 6)%N with 64%N; lia).
  rewrite lor_mul_add by (change (2 ^ 6)%N with 64%N; lia).
  change (2 ^ 6)%N with 64%N. lia.
Qed.

(** The 24 bits of three bytes, cut into four digits and put together
    again. *)
Lemma quantum_3 (a b c : N) :
  (a < 256)%N -> (b < 256)%N -> (c < 256)%N ->
  let v := N.lor (N.lor (N.shiftl a 16) (N.shiftl b 8)) c in
  let d0 := N.land (N.shiftr v 18) 63 in
  let d1 := N.land (N.shiftr v 12) 63 in
  let d2 := N.land (N.shiftr v 6) 63 in
  let d3 := N.land v 63 in
  (d0 < 64 /\ d1 < 64 /\ d2 < 64 /\ d3 < 64)%N
  /\ quantum [d0; d1; d2; d3] =
       String (ascii_of_N a) (String (ascii_of_N b) (String (ascii_of_N c) ""))
  /\ quantum [d0; d1; d2] = String (ascii_of_N a) (String (ascii_of_N b) "")
  /\ quantum [d0; d1] = String (ascii_of_N a) "".
Proof.
  intros Ha Hb Hc v d0 d1 d2 d3.
  assert (Hv : v = (a * 65536 + b * 256 + c)%N) by by apply pack3.
  assert (Hd : (d0 < 64 /\ d1 < 64 /\ d2 < 64 /\ d3 < 64)%N).
  { subst d0 d1 d2 d3. rewrite !land_63. repeat split; by apply N.mod_lt. }
  destruct Hd as (H0 & H1 & H2 & H3). split; [done |].
  assert (E0 : d0 = (v / 262144 mod 64)%N).
  { subst d0. by rewrite land_63, N.shiftr_div_pow2. }
  assert (E1 : d1 = (v / 4096 mod 64)%N).
  { subst d1. by rewrite land_63, N.shiftr_div_pow2. }
  assert (E2 : d2 = (v / 64 mod 64)%N).
  { subst d2. by rewrite land_63, N.shiftr_div_pow2. }
  assert (E3 : d3 = (v mod 64)%N) by (subst d3; by rewrite land_63).
  clearbody v d0 d1 d2 d3.
  unfold quantum. cbn [length nth].
  rewrite pack4 by done.
  rewrite (pack4 d0 d1 d2 0) by (done || lia).
  rewrite (pack4 d0 d1 0 0) by (done || lia).
  unfold byte_of. rewrite !land_255, !N.shiftr_div_pow2.
  change (2 ^ 16)%N with 65536%N. change (2 ^ 8)%N with 256%N.
  repeat split; repeat f_equal;
    zify; Z.to_euclidean_division_equations; lia.
Qed.

Lemma decode_cons (c : ascii) (rest : string) (dbuf : list N) :
  decode (String c rest) dbuf =
    match decodeMap c with
    | Some d =>
        if (length (dbuf ++ [d]) =? 4)%nat
        then match decode rest [] with
             | Some tl => Some (quantum (dbuf ++ [d]) +:+ tl)
             | None => None
             end
        else decode rest (dbuf ++ [d])
    | None =>
        if is_newline c then decode rest dbuf
        else if is_pad c then
          match length dbuf with
          | 2%nat =>
              match skip_newlines rest with
              | String c2 rest2 =>
                  if is_pad c2 then
                    match skip_newlines rest2 with
                    | EmptyString => Some (quantum dbuf)
                    | _ => None
                    end
                  else None
              | EmptyString => None
              end
          | 3%nat =>
              match skip_newlines rest with
              | EmptyString => Some (quantum dbuf)
              | _ => None
              end
          | _ => None
          end
        else None
    end.
Proof. reflexivity. Qed.

Lemma decode_digit (d : N) (rest : string) (dbuf : list N) :
  (d < 64)%N ->
  decode (String (b64char d) rest) dbuf =
    if (length (dbuf ++ [d]) =? 4)%nat
    then match decode rest [] with
         | Some tl => Some (quantum (dbuf ++ [d]) +:+ tl)
         | None => None
         end
    else decode rest (dbuf ++ [d]).
Proof. intros Hd. by rewrite decode_cons, decodeMap_b64char. Qed.

Lemma decode_padding (dbuf : list N) :
  (length dbuf = 2%nat -> decode "==" dbuf = Some (quantum dbuf))
  /\ (length dbuf = 3%nat -> decode "=" dbuf = Some (quantum dbuf)).
Proof.
  split; intros Hl; rewrite decode_cons;
    change (decodeMap "=") with (@None N); cbv iota;
    change (is_newline "=") with false; change (is_pad "=") with true;
    cbv iota; by rewrite Hl.
Qed.

(** The round trip: the text [EncodeToString] makes of any bytes decodes
    to these bytes. *)
Lemma DecodeString_EncodeToString (s : string) :
  DecodeString (EncodeToString s) = Some s.
Proof.
  unfold DecodeString.
  assert (H : forall n s, (String.length s <= n)%nat ->
                          decode (EncodeToString s) [] = Some s).
  { clear s. induction n as [| n IH]; intros s Hn.
    - destruct s; [done | simpl in Hn; lia].
    - destruct s as [| a [| b [| c rest]]]; [done | | |].
      + cbn [EncodeToString]. cbv zeta.
        destruct (quantum_3 (N_of_ascii a) 0 0) as ((H0 & H1 & _) & _ & _ & Hq);
          [apply N_of_ascii_lt | done | done |].
        cbv zeta in H0, H1, Hq. rewrite N.shiftl_0_l, !N.lor_0_r in H0, H1, Hq.
        rewrite !decode_digit by done. cbn [app length Nat.eqb].
        rewrite (proj1 (decode_padding _)) by done.
        rewrite Hq. by rewrite ascii_N_embedding.
      + cbn [EncodeToString]. cbv zeta.
        destruct (quantum_3 (N_of_ascii a) (N_of_ascii b) 0)
          as ((H0 & H1 & H2 & _) & _ & Hq & _);
          [apply N_of_ascii_lt | apply N_of_ascii_lt | done |].
        cbv zeta in H0, H1, H2, Hq. rewrite !N.lor_0_r in H0, H1, H2, Hq.
        rewrite !decode_digit by done. cbn [app length Nat.eqb].
        rewrite (proj2 (decode_padding _)) by done.
        rewrite Hq. by rewrite !ascii_N_embedding.
      + cbn [EncodeToString]. cbv zeta.
        destruct (quantum_3 (N_of_ascii a) (N_of_ascii b) (N_of_ascii c))
          as ((H0 & H1 & H2 & H3) & Hq & _); try apply N_of_ascii_lt.
        cbv zeta in H0, H1, H2, H3, Hq.
        rewrite !decode_digit by done. cbn [app length Nat.eqb].
        rewrite IH by (simpl in Hn; lia). rewrite Hq.
        by rewrite !ascii_N_embedding. }
  by apply (H (String.length s)).
Qed.


(** X5.  Base64 there and back.  What [loadApplet] makes of the encoder's
    bytes with [EncodeToString], [DecodeString] of [imageHandler] turns
    back into these bytes, without an error; so two images have the same
    text only if they are the same bytes; and the text of [n] bytes is
    four characters for every three bytes begun. *)
Theorem base64_round_trip (img : string) :
  DecodeString (EncodeToString img) = Some img
  /\ (forall img', EncodeToString img' = EncodeToString img -> img' = img)
  /\ String.length (EncodeToString img)
     = (4 * ((String.length img + 2) / 3))%nat.
Proof.
  split; [apply DecodeString_EncodeToString |]. split.
  - intros img' Heq.
    assert (H : DecodeString (EncodeToString img')
                = DecodeString (EncodeToString img)) by by rewrite Heq.
    rewrite !DecodeString_EncodeToString in H. by injection H.
  - assert (H : forall n s, (String.length s <= n)%nat ->
                  String.length (EncodeToString s)
                  = (4 * ((String.length s + 2) / 3))%nat).
    { induction n as [| n IH]; intros s Hn.
      - destruct s; [done | simpl in Hn; lia].
      - destruct s as [| a [| b [| c rest]]]; [done | done | done |].
        cbn [EncodeToString]. cbv zeta. cbn [String.length].
        rewrite IH by (simpl in Hn; lia).
        replace (S (S (S (String.length rest))) + 2)%nat
          with (String.length rest + 2 + 1 * 3)%nat by lia.
        rewrite Nat.div_add by done. lia. }
    by apply (H (String.length img)).
Qed.

(** ** The form of a request as a configuration *)

Lemma form_config_spec (form : gmap string (list string)) :
  match browser.form_config form with
  | Done cfg =>
      (forall k vs, form !! k = Some vs -> vs <> [])
      /\ forall k, cfg !! k = form !! k ≫= head
  | Panicked _ => exists k, form !! k = Some []
  | Blocked => False
  end.
Proof.
  unfold browser.form_config.
  apply (map_fold_weak_ind
    (fun (r : res Config) (m : gmap string (list string)) =>
       match r with
       | Done cfg =>
           (forall k vs, m !! k = Some vs -> vs <> [])
           /\ forall k, cfg !! k = m !! k ≫= head
       | Panicked _ => exists k, m !! k = Some []
       | Blocked => False
       end)).
  - split; [intros k vs; by rewrite lookup_empty |].
    intros k. by rewrite !lookup_empty.
  - intros k vs m r Hk IH. destruct r as [cfg | | p]; [| done |].
    + destruct IH as [Hne Hlook]. destruct vs as [| v vs].
      * exists k. by rewrite lookup_insert_eq.
      * split.
        -- intros k' vs'. destruct (decide (k' = k)) as [-> | Hkk].
           ++ rewrite lookup_insert_eq. by intros [= <-].
           ++ rewrite lookup_insert_ne by done. apply Hne.
        -- intros k'. destruct (decide (k' = k)) as [-> | Hkk].
           ++ by rewrite !lookup_insert_eq.
           ++ rewrite !lookup_insert_ne by done. apply Hlook.
    + destruct IH as [k' Hk']. exists k'.
      rewrite lookup_insert_ne; [done |]. intros ->. congruence.
Qed.


(** X6.  The configuration a handler makes of the form: when every key of
    the form has a value, the loop ends with a configuration that has
    exactly the keys of the form, each with the first of its values; a
    key with no value at all makes [val[0]] panic; the loop never
    waits. *)
Theorem form_config_first_values (form : gmap string (list string)) :
  ((forall k vs, form !! k = Some vs -> vs <> []) ->
   exists cfg,
     browser.form_config form = Done cfg
     /\ (forall k, cfg !! k = form !! k ≫= head)
     /\ dom cfg = dom form)
  /\ ((exists k, form !! k = Some []) ->
      exists p, browser.form_config form = Panicked p)
  /\ browser.form_config form <> Blocked.
Proof.
  pose proof (form_config_spec form) as Hspec.
  destruct (browser.form_config form) as [cfg | | p].
  - destruct Hspec as [Hne Hlook]. split; [| split; [| done]].
    + intros _. exists cfg. split; [done |]. split; [done |].
      apply set_eq. intros k. rewrite !elem_of_dom, Hlook.
      destruct (form !! k) as [vs |] eqn:Hk; simpl.
      * destruct vs as [| v vs]; [by specialize (Hne k [] Hk) |].
        split; intros _; by eexists.
      * split; by intros [? ?].
    + intros (k & Hk). by specialize (Hne k [] Hk).
  - done.
  - destruct Hspec as (k & Hk). split; [| split; [| done]].
    + intros Hne. by specialize (Hne k [] Hk).
    + intros _. by exists p.
Qed.

(** ** The replies of the HTTP handlers *)

Lemma Error_fresh (msg : string) (code : Z) (w : http.ResponseWriter) :
  http.wroteHeader w = false ->
  http.status (http.Error_ msg code w) = code
  /\ http.body (http.Error_ msg code w) = http.body w +:+ msg +:+ http.newline
  /\ http.sent (http.Error_ msg code w) !! "Content-Type"
       = Some "text/plain; charset=utf-8"
  /\ http.wroteHeader (http.Error_ msg code w) = true.
Proof.
  intros Hw. unfold http.Error_, http.Fprintln, http.Write, http.WriteHeader.
  simpl. rewrite Hw. simpl. repeat split.
  rewrite lookup_insert_ne by done. apply lookup_insert_eq.
Qed.

Lemma Write_fresh (data : string) (w : http.ResponseWriter) :
  http.wroteHeader w = false ->
  http.status (http.Write data w) = 200
  /\ http.body (http.Write data w) = http.body w +:+ data
  /\ http.sent (http.Write data w) = http.Header w
  /\ http.wroteHeader (http.Write data w) = true.
Proof.
  intros Hw. unfold http.Write, http.WriteHeader. rewrite Hw. done.
Qed.

(** X7.  [imageHandler] answers with 200 or 500 and never with 400: when
    the form cannot be parsed it has already sent 500 before [http.Error]
    asks for 400, so the reply is 500 with the header map as it was, the
    text of [http.Error] and no call of [LoadApplet]; a failed
    [LoadApplet] and an image that does not decode give 500 as plain
    text; an image that decodes gives 200 with the image type of the
    browser and the decoded bytes. *)
Theorem imageHandler_status (b : browser.Browser)
    (LoadApplet : Config -> res (string * option error))
    (r : browser.HTTPRequest) (w : http.ResponseWriter) :
  http.wroteHeader w = false ->
  (forall e, browser.ParseForm r = Some e ->
     exists w', browser.imageHandler b LoadApplet r w = Done w'
       /\ http.status w' = 500 /\ http.sent w' = http.Header w
       /\ http.body w' = http.body w +:+ "bad form data" +:+ http.newline)
  /\ (forall w', browser.imageHandler b LoadApplet r w = Done w' ->
        (http.status w' = 200 \/ http.status w' = 500)
        /\ (http.status w' = 200 ->
            exists cfg img data,
              browser.form_config (browser.Form r) = Done cfg
              /\ LoadApplet cfg = Done (img, None)
              /\ DecodeString img = Some data
              /\ http.body w' = http.body w +:+ data
              /\ http.sent w' !! "Content-Type" =
                   Some (if browser.serveGif b then "image/gif" else "image/webp"))).
Proof.
  intros Hw. split.
  - intros e He. unfold browser.imageHandler. rewrite He.
    eexists. split; [reflexivity |].
    unfold http.Error_, http.Fprintln, http.Write, http.WriteHeader.
    simpl. rewrite Hw. simpl. done.
  - intros w'. unfold browser.imageHandler.
    destruct (browser.ParseForm r) as [e |].
    { intros [= <-]. unfold http.Error_, http.Fprintln, http.Write, http.WriteHeader.
      simpl. rewrite Hw. simpl. split; [by right | done]. }
    destruct (browser.form_config (browser.Form r)) as [cfg | |]; [| done..].
    destruct (LoadApplet cfg) as [[img [e |]] | |] eqn:Hload; [| | done..].
    { intros [= <-]. destruct (Error_fresh "loading applet" 500 w Hw) as (-> & _).
      split; [by right | done]. }
    destruct (DecodeString img) as [data |] eqn:Hdec.
    + intros [= <-].
      destruct (Write_fresh data (http.Set_ "Content-Type"
                  (if browser.serveGif b then "image/gif" else "image/webp") w) Hw)
        as (Hs & Hb & Hsent & _).
      split; [by left |]. intros _. exists cfg, img, data.
      split; [done |]. split; [done |]. split; [done |]. split; [done |].
      rewrite Hsent. simpl. apply lookup_insert_eq.
    + intros [= <-].
      destruct (Error_fresh "decoding image" 500
                  (http.Set_ "Content-Type"
                     (if browser.serveGif b then "image/gif" else "image/webp") w) Hw)
        as (-> & _).
      split; [by right | done].
Qed.


(** X8.  [previewHandler] answers 400 as plain text when the form cannot be
    parsed, without calling [LoadApplet]; otherwise it answers 200 with a
    JSON body whatever [LoadApplet] returned: the body carries the title,
    the image as returned and the image type of the browser, and an
    [error] member exactly when [LoadApplet] failed with a message that
    is not empty.  The texts are quoted as [encoding/json] quotes them,
    also where they are not ASCII or not UTF-8. *)
Theorem previewHandler_reports_failure_in_body (b : browser.Browser)
    (title : string) (LoadApplet : Config -> res (string * option error))
    (r : browser.HTTPRequest) (w : http.ResponseWriter) :
  http.wroteHeader w = false ->
  (forall e, browser.ParseMultipartForm r = Some e ->
     exists w', browser.previewHandler b title LoadApplet r w = Done w'
       /\ http.status w' = 400
       /\ http.sent w' !! "Content-Type" = Some "text/plain; charset=utf-8"
       /\ http.body w' = http.body w +:+ "bad form data" +:+ http.newline)
  /\ (forall cfg img err,
        browser.ParseMultipartForm r = None ->
        browser.form_config (browser.Form r) = Done cfg ->
        LoadApplet cfg = Done (img, err) ->
        exists w' data,
          browser.previewHandler b title LoadApplet r w = Done w'
          /\ http.status w' = 200
          /\ http.sent w' !! "Content-Type" = Some "application/json"
          /\ http.body w' = http.body w +:+ browser.Marshal_previewData data
          /\ browser.Title data = title /\ browser.Image data = img
          /\ browser.ImageType data = (if browser.serveGif b then "gif" else "webp")
          /\ browser.Err data = from_option Error "" err
          /\ ((exists msg, ("error", msg) ∈ browser.previewData_members data)
              <-> exists e, err = Some e /\ Error e <> "")).
Proof.
  intros Hw. split.
  - intros e He. unfold browser.previewHandler. rewrite He.
    eexists. split; [reflexivity |].
    by destruct (Error_fresh "bad form data" 400 w Hw) as (-> & -> & -> & _).
  - intros cfg img err Hp Hf Hl. unfold browser.previewHandler.
    rewrite Hp, Hf, Hl.
    set (data := match err with
                 | Some e => browser.mkPreviewData _ _ _ _ (Error e)
                 | None => _
                 end).
    exists (http.Write (browser.Marshal_previewData data)
              (http.Set_ "Content-Type" "application/json" w)), data.
    split; [done |].
    destruct (Write_fresh (browser.Marshal_previewData data)
                (http.Set_ "Content-Type" "application/json" w) Hw)
      as (-> & -> & -> & _).
    split; [done |]. split; [apply lookup_insert_eq |]. split; [done |].
    assert (Hd : browser.Title data = title /\ browser.Image data = img
                 /\ browser.ImageType data
                    = (if browser.serveGif b then "gif" else "webp")
                 /\ browser.Err data = from_option Error "" err)
      by (subst data; by destruct err).
    destruct Hd as (Ht & Hi & Hty & He).
    split; [done |]. split; [done |]. split; [done |]. split; [done |].
    unfold browser.previewData_members. rewrite He. split.
    + intros (msg & Hin). apply elem_of_app in Hin as [Hin | Hin].
      { repeat (apply elem_of_cons in Hin as [Hin | Hin]; [done |]).
        by apply elem_of_nil in Hin. }
      destruct err as [e |]; simpl in Hin.
      * exists e. split; [done |]. intros Hempty. rewrite Hempty in Hin.
        by apply elem_of_nil in Hin.
      * by apply elem_of_nil in Hin.
    + intros (e & -> & Hne). exists (Error e). apply elem_of_app. right. simpl.
      destruct (String.eqb_spec (Error e) ""); [done |]. by apply elem_of_cons; left.
Qed.

Section Gateway.
Context `{RT : Runtime}.

(** X9.  The image on its way from the encoder to the browser: when
    [LoadApplet] hands [imageHandler] the Update of a completed on-demand
    cycle, a cycle without failure is answered by 200 and exactly the
    bytes the encoder returned, under the image type of the browser (the
    base64 text the loader made always decodes), and a failed cycle by
    500 and the text "loading applet", the cause being dropped. *)
Theorem imageHandler_serves_encoder_bytes (b : browser.Browser)
    (r : browser.HTTPRequest) (cfg : Config) (s s' : RunState)
    (w w' : World) (up : Update) (rw : http.ResponseWriter) :
  gate_wf (ldr s) ->
  Run_case CaseRequested s w = Done (s', w') ->
  produced s' = Some up ->
  browser.ParseForm r = None ->
  browser.form_config (browser.Form r) = Done cfg ->
  http.wroteHeader rw = false ->
  exists rw',
    browser.imageHandler b (fun _ => Done (Image up, Err up)) r rw = Done rw'
    /\ (Err up = None ->
        exists screens bytes,
          encoded (ldr s) screens = inl bytes
          /\ http.status rw' = 200
          /\ http.body rw' = http.body rw +:+ bytes
          /\ http.sent rw' !! "Content-Type" =
               Some (if browser.serveGif b then "image/gif" else "image/webp"))
    /\ (Err up <> None ->
        http.status rw' = 500
        /\ http.body rw' = http.body rw +:+ "loading applet" +:+ http.newline
        /\ http.sent rw' !! "Content-Type" = Some "text/plain; charset=utf-8").
Proof.
  intros Hwf Hrun Hp Hform Hcfg Hrw.
  destruct (cycle_inv CaseRequested s w s' w' eq_refl Hwf Hrun)
    as (l0 & w0 & l1 & img & e & evs & Hin & _ & _ & Hl & _ & _ & Hp').
  rewrite Hp in Hp'. injection Hp' as ->.
  unfold browser.imageHandler. rewrite Hform, Hcfg.
  rewrite <- (same_inputs_encoded _ _ Hin).
  destruct Hl as [e0 Hw Hload | l1 e0 Hre Hrn | l1 roots e0 Hre Hrn Henc
                 | l1 roots bytes Hre Hrn Henc]; simpl.
  1-3: eexists; (split; [reflexivity |]); (split; [done |]); intros _;
       by destruct (Error_fresh "loading applet" 500 rw Hrw) as (-> & -> & -> & _).
  rewrite DecodeString_EncodeToString.
  eexists. split; [reflexivity |]. split; [| done]. intros _.
  exists (ScreensFromRoots roots), bytes. split; [done |].
  destruct (Write_fresh bytes
              (http.Set_ "Content-Type"
                 (if browser.serveGif b then "image/gif" else "image/webp") rw) Hrw)
    as (-> & -> & -> & _).
  split; [done |]. split; [done |]. apply lookup_insert_eq.
Qed.

End Gateway.

Section Schedules.
Context `{RT : Runtime}.

(** ** What a cycle adds to the history *)

Lemma marshals_app (a b : list Event) :
  marshals (a ++ b) = (marshals a + marshals b)%nat.
Proof. unfold marshals. by rewrite filter_app, length_app. Qed.

Lemma render_quiet (evs : list Event) :
  Forall (fun e => is_render e = true) evs ->
  loads evs = 0%nat /\ closes evs = 0%nat /\ marshals evs = 0%nat.
Proof.
  induction 1 as [| e evs He _ IH]; [done |].
  destruct IH as (Hl & Hc & Hm). unfold loads, closes, marshals in *.
  rewrite !filter_cons. destruct e; simpl in *; try done.
Qed.

Lemma loaded_trace l cfg w l' img err w' :
  loaded l cfg w l' img err w' ->
  exists evs, trace w' = trace w ++ reload_events l ++ evs
              /\ Forall (fun e => is_render e = true) evs.
Proof.
  intros [e Hw Hload | l1 e Hre Hrn | l1 roots e Hre Hrn Henc
         | l1 roots bytes Hre Hrn Henc]; simpl.
  - exists []. by rewrite app_nil_r.
  - eexists. split; [reflexivity |]. by repeat constructor.
  - eexists. split; [reflexivity |]. by repeat constructor.
  - eexists. split; [reflexivity |]. by repeat constructor.
Qed.

Lemma reload_events_loads l :
  loads (reload_events l) = (if watch l then 1 else 0)%nat
  /\ marshals (reload_events l) = 0%nat
  /\ forall id src, EvLoadScript id src ∈ reload_events l -> src = fs l.
Proof.
  unfold reload_events. destruct (watch l); [| split; [done | split; [done |]]].
  - destruct (released l); (split; [done |]); (split; [done |]);
      intros id src Hin; repeat (apply elem_of_cons in Hin as [Hin | Hin]; [congruence |]);
      by apply elem_of_nil in Hin.
  - intros id src Hin. by apply elem_of_nil in Hin.
Qed.

(** A completed cycle, for the counting that follows: the history grows
    by the debug events (on demand only), the reload and the render; the
    disk changes at the debug path at most; the wiring stays. *)
Lemma cycle_trace c s w s' w' :
  is_cycle c = true -> gate_wf (ldr s) ->
  Run_case c s w = Done (s', w') ->
  exists pre evs,
    trace w' = trace w ++ pre ++ reload_events (ldr s) ++ evs
    /\ Forall (fun e => is_debug e = true) pre
    /\ marshals pre = (if is_request_turn (Select c) then 1 else 0)%nat
    /\ Forall (fun e => is_render e = true) evs
    /\ gate_wf (ldr s') /\ watch (ldr s') = watch (ldr s)
    /\ fs (ldr s') = fs (ldr s)
    /\ configOutFile (ldr s') = configOutFile (ldr s)
    /\ (watch (ldr s) = false -> applet (ldr s') = applet (ldr s))
    /\ (forall name, name <> configOutFile (ldr s) ->
          disk w' !! name = disk w !! name)
    /\ (configOutFile (ldr s) = "" -> disk w' = disk w).
Proof.
  intros Hc Hwf Hrun. destruct c; [done | |]; simpl in Hrun.
  - destruct (requested_inv _ _ _ _ Hwf Hrun)
      as (tok & ch & bytes & l1 & img & err & uc & rc & _ & _ & _ & Hl & _ & _ & ->).
    destruct (loaded_trace _ _ _ _ _ _ _ Hl) as (evs & Ht & Hev).
    apply loaded_facts in Hl as (Hwf1 & Hsame & Hd & _ & Hoff & _); [| done].
    destruct Hsame as (Hfs & _ & Hw & _ & _ & _ & _ & _ & _ & _ & Hout).
    simpl in Hfs, Hw, Hout, Hoff.
    exists (if String.eqb (configOutFile (ldr s)) "" then [EvMarshal (config s)]
            else [EvMarshal (config s); EvWriteFile (configOutFile (ldr s)) bytes]),
      evs.
    split; [| split; [| split; [| split; [done |]]]].
    + rewrite Ht. unfold debug_written.
      destruct (String.eqb _ _); simpl; by rewrite <- !app_assoc.
    + destruct (String.eqb _ _); by repeat constructor.
    + by destruct (String.eqb _ _).
    + simpl. split; [done |]. split; [done |]. split; [done |]. split; [done |].
      split; [intros Hoff'; by rewrite (Hoff Hoff') |].
      rewrite Hd. unfold debug_written. split.
      * intros name Hne. destruct (String.eqb _ _); [done |]. simpl.
        by rewrite lookup_insert_ne.
      * intros ->. done.
  - destruct (file_inv _ _ _ _ Hwf Hrun)
      as (tok & ch & l1 & img & err & uc & _ & Hl & _ & ->).
    destruct (loaded_trace _ _ _ _ _ _ _ Hl) as (evs & Ht & Hev).
    apply loaded_facts in Hl as (Hwf1 & Hsame & Hd & _ & Hoff & _); [| done].
    destruct Hsame as (Hfs & _ & Hw & _ & _ & _ & _ & _ & _ & _ & Hout).
    simpl in Hfs, Hw, Hout, Hoff.
    exists [], evs. simpl.
    split; [done |]. split; [done |]. split; [done |]. split; [done |].
    split; [done |]. split; [done |]. split; [done |]. split; [done |].
    split; [intros Hoff'; by rewrite (Hoff Hoff') |]. by rewrite Hd.
Qed.

(** A completed cycle with its call of [loadApplet]: as [cycle_inv],
    with the events before the call known to be those of the debug
    file. *)
Lemma cycle_loaded c s w s' w' :
  is_cycle c = true -> gate_wf (ldr s) ->
  Run_case c s w = Done (s', w') ->
  exists l0 w0 l1 img err pre,
    same_inputs (ldr s) l0
    /\ trace w0 = trace w ++ pre /\ Forall (fun e => is_debug e = true) pre
    /\ loaded l0 (config s) w0 l1 img err w'
    /\ same_inputs l1 (ldr s')
    /\ produced s' = Some (match c with
                           | CaseFile => fill_reload l1 img err
                           | _ => fill l1 img err
                           end).
Proof.
  intros Hc Hwf Hrun. destruct c; [done | |]; simpl in Hrun.
  - destruct (requested_inv _ _ _ _ Hwf Hrun)
      as (tok & ch & bytes & l1 & img & err & uc & rc & _ & _ & _ & Hl & Hu & _ & ->).
    exists (set_requestedChanges ch (ldr s)),
      (debug_written (ldr s) (config s) bytes w), l1, img, err,
      (if String.eqb (configOutFile (ldr s)) "" then [EvMarshal (config s)]
       else [EvMarshal (config s); EvWriteFile (configOutFile (ldr s)) bytes]).
    split; [done |]. split; [unfold debug_written; by destruct (String.eqb _ _) |].
    split; [destruct (String.eqb _ _); by repeat constructor |].
    split; [done |]. split; [done |].
    exact (produced_send l1 _ uc (config s) Hu).
  - destruct (file_inv _ _ _ _ Hwf Hrun)
      as (tok & ch & l1 & img & err & uc & _ & Hl & Hu & ->).
    exists (set_fileChanges ch (ldr s)), w, l1, img, err, [].
    rewrite app_nil_r. split; [done |]. split; [done |]. split; [done |].
    split; [done |]. split; [done |].
    exact (produced_send l1 _ uc (config s) Hu).
Qed.

(** ** What a step of the system changes *)

Lemma step_facts lb s s' :
  step lb s = Some s' -> gate_wf (ldr (run s)) ->
  gate_wf (ldr (run s'))
  /\ watch (ldr (run s')) = watch (ldr (run s))
  /\ configOutFile (ldr (run s')) = configOutFile (ldr (run s))
  /\ (watch (ldr (run s)) = false ->
      applet (ldr (run s')) = applet (ldr (run s)))
  /\ (forall name, name <> configOutFile (ldr (run s)) ->
        disk (world s') !! name = disk (world s) !! name)
  /\ (configOutFile (ldr (run s)) = "" -> disk (world s') = disk (world s))
  /\ exists evs,
       trace (world s') = trace (world s) ++ evs
       /\ loads evs = (match halted s' with
                       | Some _ => 0
                       | None => if watch (ldr (run s)) && is_cycle_turn lb
                                 then 1 else 0
                       end)%nat
       /\ marshals evs = (match halted s' with
                          | Some _ => 0
                          | None => if is_request_turn lb then 1 else 0
                          end)%nat.
Proof.
  unfold step. destruct (halted s) eqn:Hh; [done |]. intros Hstep Hwf.
  assert (Hquiet : forall f : Loader -> Loader,
            (forall l, gate_wf l -> gate_wf (f l)) ->
            (forall l, watch (f l) = watch l) ->
            (forall l, configOutFile (f l) = configOutFile l) ->
            (forall l, applet (f l) = applet l) ->
            forall cs pd og,
            s' = mkSys (mkRun (f (ldr (run s))) (config (run s))) (world s) None
                   cs pd og ->
            is_cycle_turn lb = false -> is_request_turn lb = false ->
            gate_wf (ldr (run s'))
            /\ watch (ldr (run s')) = watch (ldr (run s))
            /\ configOutFile (ldr (run s')) = configOutFile (ldr (run s))
            /\ (watch (ldr (run s)) = false ->
                applet (ldr (run s')) = applet (ldr (run s)))
            /\ (forall name, name <> configOutFile (ldr (run s)) ->
                  disk (world s') !! name = disk (world s) !! name)
            /\ (configOutFile (ldr (run s)) = "" -> disk (world s') = disk (world s))
            /\ exists evs,
                 trace (world s') = trace (world s) ++ evs
                 /\ loads evs = (match halted s' with
                                 | Some _ => 0
                                 | None => if watch (ldr (run s)) && is_cycle_turn lb
                                           then 1 else 0
                                 end)%nat
                 /\ marshals evs = (match halted s' with
                                    | Some _ => 0
                                    | None => if is_request_turn lb then 1 else 0
                                    end)%nat).
  { intros f H1 H2 H3 H4 cs pd og -> Hc Hr. simpl.
    split; [by apply H1 |]. split; [apply H2 |]. split; [apply H3 |].
    split; [intros _; apply H4 |]. split; [done |]. split; [done |].
    exists []. rewrite app_nil_r, Hc, Hr, andb_false_r. done. }
  assert (Hcaller : forall i, caller_step i s = Some s' ->
            is_cycle_turn lb = false -> is_request_turn lb = false ->
            gate_wf (ldr (run s'))
            /\ watch (ldr (run s')) = watch (ldr (run s))
            /\ configOutFile (ldr (run s')) = configOutFile (ldr (run s))
            /\ (watch (ldr (run s)) = false ->
                applet (ldr (run s')) = applet (ldr (run s)))
            /\ (forall name, name <> configOutFile (ldr (run s)) ->
                  disk (world s') !! name = disk (world s) !! name)
            /\ (configOutFile (ldr (run s)) = "" -> disk (world s') = disk (world s))
            /\ exists evs,
                 trace (world s') = trace (world s) ++ evs
                 /\ loads evs = (match halted s' with
                                 | Some _ => 0
                                 | None => if watch (ldr (run s)) && is_cycle_turn lb
                                           then 1 else 0
                                 end)%nat
                 /\ marshals evs = (match halted s' with
                                    | Some _ => 0
                                    | None => if is_request_turn lb then 1 else 0
                                    end)%nat).
  { intros i Hcs Hc Hr. unfold caller_step in Hcs.
    destruct (callers s !! i) as [c |]; [| done]. simpl in Hcs. rewrite Hh in Hcs.
    revert Hcs. clear Hstep. destruct (pc c).
    - destruct (send _ _) as [ch | |]; [| done..]. intros [= <-].
      by eapply (Hquiet (set_configChanges ch)); [.. | reflexivity | |].
    - destruct (send _ _) as [ch | |]; [| done..]. intros [= <-].
      by eapply (Hquiet (set_requestedChanges ch)); [.. | reflexivity | |].
    - destruct (recv _) as [[[r |] ch] | |]; [| done..]. intros [= <-].
      by eapply (Hquiet (set_resultsChan ch)); [.. | reflexivity | |].
    - done. }
  destruct lb as [i | i | i | c | src].
  1-3: destruct (callers s !! i) as [c |]; simpl in Hstep; [| done];
       destruct (pc c); simpl in Hstep; try done; by eapply Hcaller.
  - clear Hquiet Hcaller.
    destruct (Run_case c (run s) (world s)) as [[r w] | |] eqn:Hrun; [| done |].
    + destruct c.
      * injection Hstep as <-. simpl in Hrun.
        unfold Run_configChanges, bind, lift, ret in Hrun.
        destruct (recv _) as [[cf ch] | |]; [| done..]. injection Hrun as <- <-.
        simpl. repeat (split; [done |]). exists [].
        by rewrite app_nil_r, andb_false_r.
      * injection Hstep as <-.
        destruct (cycle_trace CaseRequested _ _ _ _ eq_refl Hwf Hrun)
          as (pre & evs & Ht & Hpre & Hm & Hev & ? & ? & _ & ? & ? & ? & ?).
        simpl. repeat (split; [done |]).
        exists (pre ++ reload_events (ldr (run s)) ++ evs). split; [done |].
        destruct (render_quiet _ Hev) as (Hl1 & _ & Hm1).
        destruct (reload_events_loads (ldr (run s))) as (Hl2 & Hm2 & _).
        rewrite !loads_app, !marshals_app, Hl1, Hm1, Hl2, Hm2, Hm, andb_true_r.
        split; [| simpl; lia].
        assert (loads pre = 0%nat); [| lia].
        clear -Hpre. induction Hpre as [| e pre He _ IH]; [done |].
        unfold loads in *. rewrite filter_cons. by destruct e.
      * injection Hstep as <-.
        destruct (cycle_trace CaseFile _ _ _ _ eq_refl Hwf Hrun)
          as (pre & evs & Ht & Hpre & Hm & Hev & ? & ? & _ & ? & ? & ? & ?).
        simpl. repeat (split; [done |]).
        exists (pre ++ reload_events (ldr (run s)) ++ evs). split; [done |].
        destruct (render_quiet _ Hev) as (Hl1 & _ & Hm1).
        destruct (reload_events_loads (ldr (run s))) as (Hl2 & Hm2 & _).
        rewrite !loads_app, !marshals_app, Hl1, Hm1, Hl2, Hm2, Hm, andb_true_r.
        split; [| simpl; lia].
        assert (loads pre = 0%nat); [| lia].
        clear -Hpre. induction Hpre as [| e pre He _ IH]; [done |].
        unfold loads in *. rewrite filter_cons. by destruct e.
    + injection Hstep as <-. simpl. repeat (split; [done |]). exists [].
      by rewrite app_nil_r.
  - destruct (send _ _) as [ch | |]; [| done..]. injection Hstep as <-. simpl.
    repeat (split; [done |]). exists []. by rewrite app_nil_r, andb_false_r.
Qed.

Lemma exec_halted ls s s' p :
  halted s = Some p -> exec ls s = Some s' -> s' = s.
Proof.
  intros Hh. destruct ls as [| lb ls]; simpl; [by intros [= <-] |].
  by rewrite (halted_stuck s p lb Hh).
Qed.

Lemma cycles_cons lb ls :
  cycles (lb :: ls) = ((if is_cycle_turn lb then 1 else 0) + cycles ls)%nat.
Proof. unfold cycles. rewrite filter_cons. by destruct (is_cycle_turn lb). Qed.

Lemma requests_served_cons lb ls :
  requests_served (lb :: ls)
  = ((if is_request_turn lb then 1 else 0) + requests_served ls)%nat.
Proof.
  unfold requests_served. rewrite filter_cons. by destruct (is_request_turn lb).
Qed.

Lemma exec_facts ls s s' :
  exec ls s = Some s' -> gate_wf (ldr (run s)) ->
  gate_wf (ldr (run s'))
  /\ watch (ldr (run s')) = watch (ldr (run s))
  /\ configOutFile (ldr (run s')) = configOutFile (ldr (run s))
  /\ (watch (ldr (run s)) = false ->
      applet (ldr (run s')) = applet (ldr (run s)))
  /\ (forall name, name <> configOutFile (ldr (run s)) ->
        disk (world s') !! name = disk (world s) !! name)
  /\ (configOutFile (ldr (run s)) = "" -> disk (world s') = disk (world s))
  /\ exists evs,
       trace (world s') = trace (world s) ++ evs
       /\ (watch (ldr (run s)) = false -> loads evs = 0%nat)
       /\ (halted s' = None ->
           loads evs = (if watch (ldr (run s)) then cycles ls else 0%nat)
           /\ marshals evs = requests_served ls).
Proof.
  revert s. induction ls as [| lb ls IH]; intros s; simpl.
  - intros [= <-] Hwf. do 6 (split; [done |]). exists [].
    rewrite app_nil_r. split; [done |]. split; [done |]. intros _.
    by destruct (watch _).
  - destruct (step lb s) as [s1 |] eqn:Hstep; [| done]. simpl. intros Hex Hwf.
    destruct (step_facts _ _ _ Hstep Hwf)
      as (Hwf1 & Hw1 & Ho1 & Ha1 & Hd1 & He1 & evs1 & Ht1 & Hl1 & Hm1).
    destruct (IH s1 Hex Hwf1)
      as (Hwf2 & Hw2 & Ho2 & Ha2 & Hd2 & He2 & evs2 & Ht2 & Hq2 & Hc2).
    rewrite Hw1, Ho1 in *.
    split; [done |]. split; [done |]. split; [done |].
    split; [intros Hoff; by rewrite Ha2, Ha1 |].
    split; [intros name Hne; by rewrite Hd2, Hd1 |].
    split; [intros Hno; by rewrite He2, He1 |].
    exists (evs1 ++ evs2). split; [by rewrite Ht2, Ht1, app_assoc |].
    rewrite loads_app, marshals_app. split.
    + intros Hoff. rewrite (Hq2 Hoff), Hl1, Hoff. by destruct (halted s1).
    + intros Hh. destruct (halted s1) as [p |] eqn:Hh1.
      { rewrite (exec_halted _ _ _ p Hh1 Hex) in Hh. congruence. }
      destruct (Hc2 Hh) as (-> & ->). rewrite Hl1, Hm1, cycles_cons, requests_served_cons.
      split; [| done].
      destruct (watch (ldr (run s))), (is_cycle_turn lb); simpl; lia.
Qed.

(** X10.  Without watch mode the script is loaded once, by [NewLoader], and
    never again: whatever the schedule, file changes included, the
    history holds that one load and the loader keeps the applet it gave. *)
Theorem non_watch_loads_once (fsys : FS) (fileCh : chan bool)
    (updatesCh : chan Update) (maxDur tmo : Z) (gif : bool) (outFile : string)
    (d : Disk) (l : Loader) (w : World) (configs : list Config)
    (ls : list Label) (sys : Sys) :
  NewLoader fsys false fileCh updatesCh maxDur tmo gif outFile (mkWorld d [])
    = Done (inl l, w) ->
  exec ls (boot l w configs) = Some sys ->
  loadScript "app-id" fsys = inl (applet l)
  /\ applet (ldr (run sys)) = applet l
  /\ filter (fun e => is_load e = true) (trace (world sys))
     = [EvLoadScript "app-id" fsys].
Proof.
  intros Hnew Hexec.
  destruct (NewLoader_gate _ _ _ _ _ _ _ _ _ _ _ Hnew) as (Ht & Hl).
  destruct (Hl l eq_refl) as ((Hwf & _) & Hw & _).
  destruct (exec_facts _ _ _ Hexec Hwf)
    as (_ & _ & _ & Ha & _ & _ & evs & Hevs & Hq & _).
  simpl in Ha, Hevs, Hq. split; [| split; [by apply Ha |]].
  - revert Hnew. unfold NewLoader. cbv zeta. simpl.
    unfold call_loadScript, bind, ret. rewrite emit_more, mark_eq by done.
    by destruct (loadScript "app-id" fsys) as [app | e]; intros [= <- <-].
  - rewrite Hevs, Ht, filter_app. simpl.
    specialize (Hq Hw). unfold loads in Hq.
    apply nil_length_inv in Hq. by rewrite Hq.
Qed.

(** X11.  In watch mode every cycle reloads the script: along a schedule
    that [Run] survives, the history gains one load for each turn of
    [Run] that is a cycle, on demand or after a file change, and none for
    anything else. *)
Theorem watch_reloads_every_cycle (l : Loader) (w : World)
    (configs : list Config) (ls : list Label) (sys : Sys) :
  gate_wf l -> watch l = true ->
  exec ls (boot l w configs) = Some sys -> halted sys = None ->
  loads (trace (world sys)) = (loads (trace w) + cycles ls)%nat.
Proof.
  intros Hwf Hw Hexec Hh.
  destruct (exec_facts _ _ _ Hexec Hwf)
    as (_ & _ & _ & _ & _ & _ & evs & Hevs & _ & Hc).
  simpl in Hevs, Hc. destruct (Hc Hh) as (Hl & _).
  by rewrite Hevs, loads_app, Hl, Hw.
Qed.

(** X12.  The loader writes one file at most: whatever the schedule, every
    file other than [configOutFile] is as it was, and without a debug
    path the whole disk is. *)
Theorem only_debug_file_written (l : Loader) (w : World)
    (configs : list Config) (ls : list Label) (sys : Sys) :
  gate_wf l -> exec ls (boot l w configs) = Some sys ->
  (forall name, name <> configOutFile l ->
     disk (world sys) !! name = disk w !! name)
  /\ (configOutFile l = "" -> disk (world sys) = disk w).
Proof.
  intros Hwf Hexec.
  by destruct (exec_facts _ _ _ Hexec Hwf) as (_ & _ & _ & _ & Hd & He & _).
Qed.

(** ** Requests and results are neither lost nor made up *)

Lemma count_insert {A : Type} (P : A -> bool) (l : list A) (i : nat) (x y : A) :
  l !! i = Some x ->
  (length (filter (fun a => P a = true) (<[i := y]> l)) + (if P x then 1 else 0)
   = length (filter (fun a => P a = true) l) + (if P y then 1 else 0))%nat.
Proof.
  revert i. induction l as [| a l IH]; intros i; [done |].
  destruct i as [| i]; simpl.
  - intros [= ->]. rewrite !filter_cons.
    destruct (P x) eqn:Hx, (P y) eqn:Hy; simpl;
      repeat case_decide; try congruence; simpl; lia.
  - intros Hi. specialize (IH i Hi). rewrite !filter_cons.
    case_decide; simpl; lia.
Qed.

Lemma step_conserved lb s s' :
  step lb s = Some s' -> gate_wf (ldr (run s)) ->
  closed (requestedChanges (ldr (run s))) = false ->
  let R sys := length (filter (fun c => returned c = true) (callers sys)) in
  let Q sys := length (filter (fun c => requesting c = true) (callers sys)) in
  let B sys := length (buf (resultsChan (ldr (run sys)))) in
  let T sys := length (buf (requestedChanges (ldr (run sys)))) in
  let m := match halted s' with
           | Some _ => 0%nat
           | None => if is_request_turn lb then 1%nat else 0%nat
           end in
  closed (requestedChanges (ldr (run s'))) = false
  /\ (R s' + B s' = R s + B s + m)%nat
  /\ (Q s' + T s = Q s + m + T s')%nat.
Proof.
  unfold step. destruct (halted s) eqn:Hh; [done |]. intros Hstep Hwf Hcl. cbv zeta.
  assert (Hcaller : forall i c,
            callers s !! i = Some c -> caller_step i s = Some s' ->
            is_request_turn lb = false ->
            closed (requestedChanges (ldr (run s'))) = false
            /\ (length (filter (fun c => returned c = true) (callers s'))
                + length (buf (resultsChan (ldr (run s'))))
                = length (filter (fun c => returned c = true) (callers s))
                  + length (buf (resultsChan (ldr (run s))))
                  + match halted s' with
                    | Some _ => 0
                    | None => if is_request_turn lb then 1 else 0
                    end)%nat
            /\ (length (filter (fun c => requesting c = true) (callers s'))
                + length (buf (requestedChanges (ldr (run s))))
                = length (filter (fun c => requesting c = true) (callers s))
                  + match halted s' with
                    | Some _ => 0
                    | None => if is_request_turn lb then 1 else 0
                    end
                  + length (buf (requestedChanges (ldr (run s')))))%nat).
  { clear Hstep. intros i c Hi Hcs Hr. unfold caller_step in Hcs.
    rewrite Hi in Hcs. simpl in Hcs. rewrite Hh in Hcs. revert Hcs.
    destruct (pc c) eqn:Hpc.
    - destruct (send _ _) as [ch | |]; [| done..]. intros [= <-]. simpl.
      rewrite Hr. split; [done |].
      pose proof (count_insert returned (callers s) i c
                    (mkCaller (arg c) SentConfig (got c)) Hi) as H1.
      pose proof (count_insert requesting (callers s) i c
                    (mkCaller (arg c) SentConfig (got c)) Hi) as H2.
      assert (Hc1 : returned c = false) by (unfold returned; by rewrite Hpc).
      assert (Hc2 : requesting c = false) by (unfold requesting; by rewrite Hpc).
      rewrite Hc1 in H1. rewrite Hc2 in H2.
      change (returned (mkCaller _ _ _)) with false in H1 || change (returned (mkCaller _ _ _)) with true in H1.
      change (requesting (mkCaller _ _ _)) with false in H2 || change (requesting (mkCaller _ _ _)) with true in H2.
      simpl in H1, H2. lia.
    - destruct (send _ _) as [ch | |] eqn:Hs; [| done..]. intros [= <-]. simpl.
      rewrite Hr. apply send_inv in Hs as (-> & _ & _). simpl.
      split; [done |]. rewrite length_app. simpl.
      pose proof (count_insert returned (callers s) i c
                    (mkCaller (arg c) SentRequest (got c)) Hi) as H1.
      pose proof (count_insert requesting (callers s) i c
                    (mkCaller (arg c) SentRequest (got c)) Hi) as H2.
      assert (Hc1 : returned c = false) by (unfold returned; by rewrite Hpc).
      assert (Hc2 : requesting c = false) by (unfold requesting; by rewrite Hpc).
      rewrite Hc1 in H1. rewrite Hc2 in H2.
      change (returned (mkCaller _ _ _)) with false in H1 || change (returned (mkCaller _ _ _)) with true in H1.
      change (requesting (mkCaller _ _ _)) with false in H2 || change (requesting (mkCaller _ _ _)) with true in H2.
      simpl in H1, H2. lia.
    - destruct (recv _) as [[[r |] ch] | |] eqn:Hrc; [| done..]. intros [= <-].
      simpl. rewrite Hr. split; [done |].
      apply recv_inv in Hrc as [(x & rest & Hb & _ & ->) | (_ & _ & ? & _)];
        [| done].
      rewrite Hb. simpl.
      pose proof (count_insert returned (callers s) i c
                    (mkCaller (arg c) (Returned (Image r) (Err r))
                       (head (origin s))) Hi) as H1.
      pose proof (count_insert requesting (callers s) i c
                    (mkCaller (arg c) (Returned (Image r) (Err r))
                       (head (origin s))) Hi) as H2.
      assert (Hc1 : returned c = false) by (unfold returned; by rewrite Hpc).
      assert (Hc2 : requesting c = true) by (unfold requesting; by rewrite Hpc).
      rewrite Hc1 in H1. rewrite Hc2 in H2.
      change (returned (mkCaller _ _ _)) with false in H1 || change (returned (mkCaller _ _ _)) with true in H1.
      change (requesting (mkCaller _ _ _)) with false in H2 || change (requesting (mkCaller _ _ _)) with true in H2.
      simpl in H1, H2. lia.
    - done. }
  destruct lb as [i | i | i | c | src].
  1-3: destruct (callers s !! i) as [c |] eqn:Hi; simpl in Hstep; [| done];
       destruct (pc c); simpl in Hstep; try done; by eapply Hcaller.
  - clear Hcaller.
    destruct (Run_case c (run s) (world s)) as [[r w] | |] eqn:Hrun; [| done |].
    + destruct c.
      * injection Hstep as <-. simpl in Hrun.
        unfold Run_configChanges, bind, lift, ret in Hrun.
        destruct (recv _) as [[cf ch] | |]; [| done..]. injection Hrun as <- <-.
        simpl. split; [done |]. lia.
      * injection Hstep as <-. simpl in Hrun.
        destruct (requested_inv _ _ _ _ Hwf Hrun)
          as (tok & ch & bytes & l1 & img & err & uc & rc & Hrecv & _ & _ & Hl
              & _ & Hr & ->).
        apply loaded_facts in Hl as (_ & Hsame & _); [| done].
        destruct Hsame as (_ & _ & _ & _ & Hreq & _ & Hres & _).
        simpl in Hreq, Hres. apply send_inv in Hr as (-> & _ & _).
        simpl. rewrite Hreq, Hres, length_app. simpl.
        apply recv_inv in Hrecv as [(x & rest & Hb & _ & ->) | (_ & ? & _)];
          [| congruence].
        rewrite Hb. simpl. split; [done |]. lia.
      * injection Hstep as <-. simpl in Hrun.
        destruct (file_inv _ _ _ _ Hwf Hrun)
          as (tok & ch & l1 & img & err & uc & _ & Hl & _ & ->).
        apply loaded_facts in Hl as (_ & Hsame & _); [| done].
        destruct Hsame as (_ & _ & _ & _ & Hreq & _ & Hres & _).
        simpl in Hreq, Hres. simpl. rewrite Hreq, Hres. split; [done |]. lia.
    + injection Hstep as <-. simpl. split; [done |]. lia.
  - destruct (send _ _) as [ch | |]; [| done..]. injection Hstep as <-. simpl.
    split; [done |]. lia.
Qed.

Lemma exec_conserved ls s s' :
  exec ls s = Some s' -> gate_wf (ldr (run s)) ->
  closed (requestedChanges (ldr (run s))) = false ->
  (length (filter (fun c => returned c = true) (callers s))
   + length (buf (resultsChan (ldr (run s)))) = marshals (trace (world s)))%nat ->
  (length (filter (fun c => requesting c = true) (callers s))
   = marshals (trace (world s))
     + length (buf (requestedChanges (ldr (run s)))))%nat ->
  (length (filter (fun c => returned c = true) (callers s'))
   + length (buf (resultsChan (ldr (run s')))) = marshals (trace (world s')))%nat
  /\ (length (filter (fun c => requesting c = true) (callers s'))
      = marshals (trace (world s'))
        + length (buf (requestedChanges (ldr (run s')))))%nat.
Proof.
  revert s. induction ls as [| lb ls IH]; intros s; simpl.
  - by intros [= <-].
  - destruct (step lb s) as [s1 |] eqn:Hstep; [| done]. simpl.
    intros Hex Hwf Hcl H1 H2.
    destruct (step_facts _ _ _ Hstep Hwf)
      as (Hwf1 & _ & _ & _ & _ & _ & evs & Ht & _ & Hm).
    destruct (step_conserved _ _ _ Hstep Hwf Hcl) as (Hcl1 & Hr & Hq).
    apply (IH s1 Hex Hwf1 Hcl1); rewrite Ht, marshals_app, Hm; lia.
Qed.

(** X13.  Requests and results are neither lost nor made up.  After
    [NewLoader], whatever the schedule, in a state where [Run] is back at
    its [select] and has not panicked: the calls of [LoadApplet] that
    have returned and the Updates waiting in [resultsChan] are together as
    many as the on-demand cycles [Run] has completed, the calls that have
    sent their request are as many as these cycles and the requests still
    waiting, and the completed cycles are the on-demand turns of the
    schedule.  (A panic leaves a request taken and not answered; such a
    state is not covered.) *)
Theorem results_conserved (fsys : FS) (watching : bool)
    (fileCh : chan bool) (updatesCh : chan Update) (maxDur tmo : Z)
    (gif : bool) (outFile : string) (d : Disk) (l : Loader) (w : World)
    (configs : list Config) (ls : list Label) (sys : Sys) :
  NewLoader fsys watching fileCh updatesCh maxDur tmo gif outFile (mkWorld d [])
    = Done (inl l, w) ->
  exec ls (boot l w configs) = Some sys ->
  halted sys = None ->
  let served := marshals (trace (world sys)) in
  (length (filter (fun c => returned c = true) (callers sys))
   + length (buf (resultsChan (ldr (run sys)))) = served)%nat
  /\ (length (filter (fun c => requesting c = true) (callers sys))
      = served + length (buf (requestedChanges (ldr (run sys)))))%nat
  /\ served = requests_served ls.
Proof.
  intros Hnew Hexec Hh served.
  destruct (NewLoader_gate _ _ _ _ _ _ _ _ _ _ _ Hnew) as (Ht & Hl).
  destruct (Hl l eq_refl) as ((Hwf & _) & _ & Hres & Hreq).
  assert (Hm0 : marshals (trace w) = 0%nat) by (rewrite Ht; by destruct watching).
  assert (Hcl : closed (requestedChanges l) = false).
  { revert Hnew. unfold NewLoader. cbv zeta. simpl. destruct watching; simpl.
    - by intros [= <- <-].
    - unfold call_loadScript, bind, ret. rewrite emit_more, mark_eq by done.
      by destruct (loadScript "app-id" fsys) as [app | e]; intros [= <- <-]. }
  assert (Hret : forall cs : list Config,
            length (filter (fun c => returned c = true)
                      (map (fun c => mkCaller c AtEntry None) cs)) = 0%nat).
  { induction cs as [| c cs IH]; [done |]. simpl. rewrite filter_cons.
    by case_decide. }
  assert (Hrq : forall cs : list Config,
            length (filter (fun c => requesting c = true)
                      (map (fun c => mkCaller c AtEntry None) cs)) = 0%nat).
  { induction cs as [| c cs IH]; [done |]. simpl. rewrite filter_cons.
    by case_decide. }
  destruct (exec_conserved _ _ _ Hexec Hwf Hcl) as (H1 & H2).
  { simpl. by rewrite Hres, Hm0, Hret. }
  { simpl. by rewrite Hreq, Hm0, Hrq. }
  split; [done |]. split; [done |].
  destruct (exec_facts _ _ _ Hexec Hwf)
    as (_ & _ & _ & _ & _ & _ & evs & Hevs & _ & Hc).
  destruct (Hc Hh) as (_ & Hm). subst served. simpl in Hevs.
  rewrite Hevs, marshals_app, Hm0, Hm. done.
Qed.

(** ** One Update for each cycle *)

Lemma step_updates lb s s' :
  step lb s = Some s' -> gate_wf (ldr (run s)) ->
  cap (updatesChan (ldr (run s'))) = cap (updatesChan (ldr (run s)))
  /\ (length (buf (updatesChan (ldr (run s')))) <= cap (updatesChan (ldr (run s')))
      \/ buf (updatesChan (ldr (run s'))) = buf (updatesChan (ldr (run s))))%nat
  /\ exists ups,
       buf (updatesChan (ldr (run s'))) = buf (updatesChan (ldr (run s))) ++ ups
       /\ length ups = match halted s' with
                       | Some _ => 0%nat
                       | None => if is_cycle_turn lb then 1%nat else 0%nat
                       end.
Proof.
  unfold step. destruct (halted s) eqn:Hh; [done |]. intros Hstep Hwf.
  assert (Hsame : updatesChan (ldr (run s')) = updatesChan (ldr (run s)) ->
            match halted s' with
            | Some _ => 0%nat
            | None => if is_cycle_turn lb then 1%nat else 0%nat
            end = 0%nat ->
            cap (updatesChan (ldr (run s'))) = cap (updatesChan (ldr (run s)))
            /\ (length (buf (updatesChan (ldr (run s'))))
                  <= cap (updatesChan (ldr (run s')))
                \/ buf (updatesChan (ldr (run s')))
                   = buf (updatesChan (ldr (run s))))%nat
            /\ exists ups,
                 buf (updatesChan (ldr (run s')))
                   = buf (updatesChan (ldr (run s))) ++ ups
                 /\ length ups = match halted s' with
                                 | Some _ => 0%nat
                                 | None => if is_cycle_turn lb then 1%nat else 0%nat
                                 end).
  { intros -> ->. split; [done |]. split; [by right |]. exists [].
    by rewrite app_nil_r. }
  assert (Hsent : forall l1 up uc,
            updatesChan l1 = updatesChan (ldr (run s)) ->
            send (updatesChan l1) up = Done uc ->
            updatesChan (ldr (run s')) = uc ->
            halted s' = None -> is_cycle_turn lb = true ->
            cap (updatesChan (ldr (run s'))) = cap (updatesChan (ldr (run s)))
            /\ (length (buf (updatesChan (ldr (run s'))))
                  <= cap (updatesChan (ldr (run s')))
                \/ buf (updatesChan (ldr (run s')))
                   = buf (updatesChan (ldr (run s))))%nat
            /\ exists ups,
                 buf (updatesChan (ldr (run s')))
                   = buf (updatesChan (ldr (run s))) ++ ups
                 /\ length ups = match halted s' with
                                 | Some _ => 0%nat
                                 | None => if is_cycle_turn lb then 1%nat else 0%nat
                                 end).
  { intros l1 up uc Hl1 Hs -> -> ->. rewrite Hl1 in Hs.
    apply send_inv in Hs as (-> & _ & Hlt). simpl.
    split; [done |]. split; [left; rewrite length_app; simpl; lia |].
    by exists [up]. }
  assert (Hcaller : forall i, caller_step i s = Some s' ->
            updatesChan (ldr (run s')) = updatesChan (ldr (run s))
            /\ halted s' = None).
  { clear Hstep Hsame Hsent. intros i. unfold caller_step.
    destruct (callers s !! i) as [c |]; [| done]. simpl. rewrite Hh.
    destruct (pc c).
    - destruct (send _ _) as [ch | |]; [| done..]. by intros [= <-].
    - destruct (send _ _) as [ch | |]; [| done..]. by intros [= <-].
    - destruct (recv _) as [[[r |] ch] | |]; [| done..]. by intros [= <-].
    - done. }
  destruct lb as [i | i | i | c | src].
  1-3: destruct (callers s !! i) as [c |]; simpl in Hstep; [| done];
       destruct (pc c); simpl in Hstep; try done;
       destruct (Hcaller i Hstep) as (Hu & Hn); apply Hsame; [done |];
       by rewrite Hn.
  - clear Hcaller.
    destruct (Run_case c (run s) (world s)) as [[r w] | |] eqn:Hrun; [| done |].
    + destruct c.
      * injection Hstep as <-. simpl in Hrun.
        unfold Run_configChanges, bind, lift, ret in Hrun.
        destruct (recv _) as [[cf ch] | |]; [| done..]. injection Hrun as <- <-.
        by apply Hsame.
      * injection Hstep as <-. simpl in Hrun.
        destruct (requested_inv _ _ _ _ Hwf Hrun)
          as (tok & ch & bytes & l1 & img & err & uc & rc & _ & _ & _ & Hl
              & Hu & _ & ->).
        apply loaded_facts in Hl as (_ & Hsame1 & _); [| done].
        destruct Hsame1 as (_ & _ & _ & _ & _ & Hupd & _).
        by eapply (Hsent l1 _ uc).
      * injection Hstep as <-. simpl in Hrun.
        destruct (file_inv _ _ _ _ Hwf Hrun)
          as (tok & ch & l1 & img & err & uc & _ & Hl & Hu & ->).
        apply loaded_facts in Hl as (_ & Hsame1 & _); [| done].
        destruct Hsame1 as (_ & _ & _ & _ & _ & Hupd & _).
        by eapply (Hsent l1 _ uc).
    + injection Hstep as <-. by apply Hsame.
  - destruct (send _ _) as [ch | |]; [| done..]. injection Hstep as <-.
    by apply Hsame.
Qed.

(** X14.  One Update for each cycle.  Along a schedule that [Run] survives,
    with nobody reading [updatesChan], the channel grows by exactly one
    Update for each cycle, on demand or after a file change, and by
    nothing else; so once it has grown it holds no more than its
    capacity, and [Run] completes no more cycles than the channel has
    room for. *)
Theorem every_cycle_announces_one_update (l : Loader) (w : World)
    (configs : list Config) (ls : list Label) (sys : Sys) :
  gate_wf l ->
  exec ls (boot l w configs) = Some sys -> halted sys = None ->
  cap (updatesChan (ldr (run sys))) = cap (updatesChan l)
  /\ (exists ups,
        buf (updatesChan (ldr (run sys))) = buf (updatesChan l) ++ ups
        /\ length ups = cycles ls)
  /\ (cycles ls <> 0%nat ->
      (length (buf (updatesChan l)) + cycles ls <= cap (updatesChan l))%nat).
Proof.
  intros Hwf Hexec Hh.
  assert (Hgen : forall ls s,
            gate_wf (ldr (run s)) -> exec ls s = Some sys ->
            cap (updatesChan (ldr (run sys))) = cap (updatesChan (ldr (run s)))
            /\ (exists ups,
                  buf (updatesChan (ldr (run sys)))
                    = buf (updatesChan (ldr (run s))) ++ ups
                  /\ length ups = cycles ls)
            /\ (cycles ls <> 0%nat ->
                (length (buf (updatesChan (ldr (run sys))))
                 <= cap (updatesChan (ldr (run sys))))%nat)).
  { clear ls Hexec Hwf. induction ls as [| lb ls IH]; intros s Hwf; simpl.
    - intros [= <-]. split; [done |]. split; [| done]. exists [].
      by rewrite app_nil_r.
    - destruct (step lb s) as [s1 |] eqn:Hstep; [| done]. simpl. intros Hex.
      destruct (step_facts _ _ _ Hstep Hwf) as (Hwf1 & _).
      destruct (step_updates _ _ _ Hstep Hwf) as (Hcap & Hroom & ups1 & Hb1 & Hn1).
      destruct (IH s1 Hwf1 Hex) as (Hcap2 & (ups2 & Hb2 & Hn2) & Hroom2).
      assert (Hh1 : halted s1 = None).
      { destruct (halted s1) as [p |] eqn:Hh1; [| done].
        rewrite (exec_halted _ _ _ p Hh1 Hex) in Hh. congruence. }
      rewrite Hh1 in Hn1.
      split; [congruence |]. split.
      + exists (ups1 ++ ups2). rewrite Hb2, Hb1, <- app_assoc. split; [done |].
        rewrite length_app, Hn1, Hn2, cycles_cons. done.
      + intros Hnz0. destruct (Nat.eq_dec (cycles ls) 0%nat) as [Hz | Hnz].
        * rewrite Hz in Hn2. apply nil_length_inv in Hn2. subst ups2.
          rewrite app_nil_r in Hb2. rewrite Hb2, Hcap2.
          destruct Hroom as [Hle | Heq]; [done |]. exfalso.
          rewrite cycles_cons, Hz in Hnz0. rewrite Heq in Hb1.
          apply (f_equal length) in Hb1. rewrite length_app in Hb1.
          destruct (is_cycle_turn lb); lia.
        * by apply Hroom2. }
  destruct (Hgen ls (boot l w configs) Hwf Hexec) as (Hcap & (ups & Hb & Hn) & Hroom).
  simpl in Hcap, Hb. split; [exact Hcap |]. split; [by exists ups |].
  intros Hnz. specialize (Hroom Hnz). rewrite Hb, length_app, Hn, Hcap in Hroom.
  exact Hroom.
Qed.

End Schedules.

Section Readers.
Context `{RT : Runtime} `{SC : !Schemas}.

(** ** [GetSchema] and [CallSchemaHandler] behind the gate *)

Lemma GetSchema_eq (l : Loader) :
  gate_wf l ->
  GetSchema l = (if released l then Done (l, schema_of (applet l)) else Blocked)
  /\ forall h p,
       CallSchemaHandler l h p =
         (if released l
          then Done (l, Applet_CallSchemaHandler (applet l) h p)
          else Blocked).
Proof.
  unfold gate_wf, released, GetSchema, CallSchemaHandler, recv, schema_of.
  destruct l as [? ? ? ? ? ? ? ? ? [b c d] ? ? ?]. simpl. intros ->.
  destruct d; [| done]. split; [| done]. by destruct (_ <? _)%nat.
Qed.


(** X16.  The schema the watcher announces and the one [GetSchema] serves.
    After a file-change cycle that completes with the gate released
    (it is whenever the loader watches), [GetSchema] returns at once; if
    the cycle did not fail, what it returns is the schema of the Update,
    or the empty schema when the Update carries none; if the reload
    failed, it returns the schema of the applet that was in place
    before. *)
Theorem GetSchema_after_reload (s : RunState) (w : World) (s' : RunState)
    (w' : World) (up : Update) :
  gate_wf (ldr s) ->
  watch (ldr s) = true \/ released (ldr s) = true ->
  Run_case CaseFile s w = Done (s', w') ->
  produced s' = Some up ->
  exists bytes,
    GetSchema (ldr s') = Done (ldr s', bytes)
    /\ (Err up = None ->
        bytes = (if (0 <? String.length (Schema up))%nat then Schema up
                 else Schema_zero_json))
    /\ (forall e, watch (ldr s) = true ->
                  loadScript "app-id" (fs (ldr s)) = inr e ->
                  Err up = Some e /\ bytes = schema_of (applet (ldr s))).
Proof.
  intros Hwf Hgate Hrun Hp. simpl in Hrun.
  destruct (file_inv _ _ _ _ Hwf Hrun)
    as (tok & ch & l1 & img & err & uc & _ & Hl & Hu & ->).
  rewrite (produced_send l1 _ uc (config s) Hu) in Hp. injection Hp as <-.
  pose proof Hl as Hl'.
  apply loaded_facts in Hl' as (Hwf1 & _ & _ & Hon & Hoff & _); [| done].
  simpl in Hon, Hoff.
  assert (Hrel : released l1 = true).
  { destruct (watch (ldr s)) eqn:Hw; [by apply Hon |].
    rewrite (Hoff eq_refl). by destruct Hgate. }
  destruct (GetSchema_eq (set_updatesChan uc l1)) as (Hg & _); [done |].
  change (released (set_updatesChan uc l1)) with (released l1) in Hg.
  rewrite Hrel in Hg. exists (schema_of (applet l1)). split; [exact Hg |].
  split.
  - unfold fill_reload, fill. destruct err as [e |]; [done |]. intros _.
    reflexivity.
  - intros e Hw Hload.
    destruct (loaded_reload_failure (set_fileChanges ch (ldr s))
                _ _ _ _ _ _ e Hw Hload Hl) as (-> & -> & -> & _).
    done.
Qed.

End Readers.

Section Rendering.
Context `{RT : Runtime}.

(** ** The encoder a cycle calls and the failure it reports *)

(** X17.  The image type of an Update names the encoder that made the
    image.  A completed cycle calls an encoder at most once and last of
    all: the GIF encoder when [renderGif] is set and the WebP encoder
    otherwise, with the animation cap 0 when the screens ask for the full
    animation and [maxDuration] otherwise; an Update without failure
    comes with that call, its image is the base64 text of what the call
    returned, and its type is "gif" or "webp" accordingly. *)
Theorem image_type_matches_encoder (c : Case) (s : RunState) (w : World)
    (s' : RunState) (w' : World) (up : Update) :
  is_cycle c = true -> gate_wf (ldr s) ->
  Run_case c s w = Done (s', w') ->
  produced s' = Some up ->
  exists evs,
    trace w' = trace w ++ evs
    /\ (length (filter (fun e => is_encode e = true) evs) <= 1)%nat
    /\ (forall gif cap,
          EvEncode gif cap ∈ evs ->
          last evs = Some (EvEncode gif cap)
          /\ gif = renderGif (ldr s)
          /\ exists roots,
               RunWithConfig (applet (ldr s')) (deadline (ldr s)) (config s)
                 = inl roots
               /\ cap = (if ShowFullAnimation (ScreensFromRoots roots) then 0
                         else maxDuration (ldr s)))
    /\ (Err up = None ->
        exists cap bytes roots,
          EvEncode (renderGif (ldr s)) cap ∈ evs
          /\ RunWithConfig (applet (ldr s')) (deadline (ldr s)) (config s)
               = inl roots
          /\ (if renderGif (ldr s) then EncodeGIF else EncodeWebP)
               (ScreensFromRoots roots) cap = inl bytes
          /\ Image up = EncodeToString bytes
          /\ ImageType up = (if renderGif (ldr s) then "gif" else "webp")).
Proof.
  intros Hc Hwf Hrun Hp.
  destruct (cycle_loaded c s w s' w' Hc Hwf Hrun)
    as (l0 & w0 & l1 & img & e & evs & Hin & Hevs & Hq & Hl & Hout & Hp').
  rewrite Hp in Hp'. injection Hp' as ->.
  destruct (same_inputs_events _ _ Hin) as (Hre & Hd & _).
  pose proof Hin as (_ & _ & _ & Hil & Hmax & _ & Hgif).
  pose proof Hout as (_ & _ & Happ & _).
  assert (Hwf0 : gate_wf l0) by (unfold gate_wf; by rewrite Hil).
  assert (Hgif1 : renderGif l1 = renderGif l0).
  { apply loaded_facts in Hl as (_ & Hsame & _); [| done].
    by destruct Hsame as (_ & _ & _ & _ & _ & _ & _ & _ & _ & ? & _). }
  assert (Hpre : forall gif cap, EvEncode gif cap ∈ evs ++ reload_events l0 -> False).
  { intros gif cap [Hi | Hi]%elem_of_app.
    - rewrite Forall_forall in Hq. by apply Hq in Hi.
    - unfold reload_events in Hi. destruct (watch l0); [| by apply elem_of_nil in Hi].
      destruct (released l0);
        repeat (apply elem_of_cons in Hi as [Hi | Hi]; [done |]);
        by apply elem_of_nil in Hi. }
  assert (Hpre0 : length (filter (fun e => is_encode e = true)
                            (evs ++ reload_events l0)) = 0%nat).
  { destruct (filter _ (evs ++ reload_events l0)) as [| x rest] eqn:Hf; [done |].
    assert (Hx : x ∈ filter (fun e => is_encode e = true) (evs ++ reload_events l0))
      by (rewrite Hf; by apply elem_of_cons; left).
    apply list_elem_of_filter in Hx as [Hx1 Hx2]. destruct x; try done.
    exfalso. by eapply Hpre. }
  destruct Hl as [e0 Hw Hload | l1 e0 Hrel Hrn | l1 roots e0 Hrel Hrn Henc
                 | l1 roots bytes Hrel Hrn Henc].
  - exists (evs ++ reload_events l0). split; [simpl; by rewrite Hevs, app_assoc |].
    split; [rewrite Hpre0; lia |].
    split; [intros gif cap Hi; exfalso; by eapply Hpre |].
    by destruct c.
  - exists ((evs ++ reload_events l0) ++ [EvRunWithConfig (applet l1) (deadline l0) (config s)]).
    split; [simpl; by rewrite Hevs, !app_assoc |].
    split; [rewrite filter_app, length_app, Hpre0; simpl; lia |].
    split; [| by destruct c].
    intros gif cap [Hi | Hi]%elem_of_app; [exfalso; by eapply Hpre |].
    apply list_elem_of_singleton in Hi. done.
  - exists ((evs ++ reload_events l0)
            ++ [EvRunWithConfig (applet l1) (deadline l0) (config s);
                EvEncode (renderGif l0) (cap_of l0 (ScreensFromRoots roots))]).
    split; [simpl; by rewrite Hevs, !app_assoc |].
    split; [rewrite filter_app, length_app, Hpre0; simpl; lia |].
    split; [| by destruct c].
    intros gif cap [Hi | Hi]%elem_of_app; [exfalso; by eapply Hpre |].
    apply elem_of_cons in Hi as [Hi | Hi]; [done |].
    apply list_elem_of_singleton in Hi. injection Hi as -> ->.
    split.
    { change [EvRunWithConfig (applet l1) (deadline l0) (config s);
              EvEncode (renderGif l0) (cap_of l0 (ScreensFromRoots roots))]
        with ([EvRunWithConfig (applet l1) (deadline l0) (config s)]
              ++ [EvEncode (renderGif l0) (cap_of l0 (ScreensFromRoots roots))]).
      rewrite app_assoc. apply last_snoc. }
    split; [done |]. exists roots. rewrite Happ, <- Hd. split; [done |].
    unfold cap_of. by rewrite Hmax.
  - exists ((evs ++ reload_events l0)
            ++ [EvRunWithConfig (applet l1) (deadline l0) (config s);
                EvEncode (renderGif l0) (cap_of l0 (ScreensFromRoots roots))]).
    split; [simpl; by rewrite Hevs, !app_assoc |].
    split; [rewrite filter_app, length_app, Hpre0; simpl; lia |].
    split.
    + intros gif cap [Hi | Hi]%elem_of_app; [exfalso; by eapply Hpre |].
      apply elem_of_cons in Hi as [Hi | Hi]; [done |].
      apply list_elem_of_singleton in Hi. injection Hi as -> ->.
      split.
      { change [EvRunWithConfig (applet l1) (deadline l0) (config s);
                EvEncode (renderGif l0) (cap_of l0 (ScreensFromRoots roots))]
          with ([EvRunWithConfig (applet l1) (deadline l0) (config s)]
                ++ [EvEncode (renderGif l0) (cap_of l0 (ScreensFromRoots roots))]).
        rewrite app_assoc. apply last_snoc. }
      split; [done |]. exists roots. rewrite Happ, <- Hd. split; [done |].
      unfold cap_of. by rewrite Hmax.
    + intros _. exists (cap_of l0 (ScreensFromRoots roots)), bytes, roots.
      rewrite <- Hgif, Happ, <- Hd.
      split; [apply elem_of_app; right; apply elem_of_cons; right;
              by apply list_elem_of_singleton |].
      split; [done |]. split; [unfold encoded in Henc; by destruct (renderGif l0) |].
      rewrite <- Hgif1. by destruct c.
Qed.

End Rendering.

Section Failures.
Context `{RT : Runtime}.

(** X18.  Where the failure of a cycle comes from.  The [Err] of the Update
    of a completed cycle is one of three: the error of [loadScript] as it
    is, in watch mode, the applet in place being kept; the error of the
    run behind "error running script: "; or the error of the encoder
    behind "error rendering: ".  The last two wrap their cause:
    [errors.Unwrap] gives it back, and the message is the prefix and the
    message of the cause. *)
Theorem failure_provenance (c : Case) (s : RunState) (w : World)
    (s' : RunState) (w' : World) (up : Update) (e : error) :
  is_cycle c = true -> gate_wf (ldr s) ->
  Run_case c s w = Done (s', w') ->
  produced s' = Some up -> Err up = Some e ->
  (watch (ldr s) = true /\ loadScript "app-id" (fs (ldr s)) = inr e
   /\ applet (ldr s') = applet (ldr s))
  \/ (exists cause,
        RunWithConfig (applet (ldr s')) (deadline (ldr s)) (config s) = inr cause
        /\ Unwrap e = Some cause
        /\ Error e = "error running script: " +:+ Error cause)
  \/ (exists roots cause,
        RunWithConfig (applet (ldr s')) (deadline (ldr s)) (config s) = inl roots
        /\ encoded (ldr s) (ScreensFromRoots roots) = inr cause
        /\ Unwrap e = Some cause
        /\ Error e = "error rendering: " +:+ Error cause).
Proof.
  intros Hc Hwf Hrun Hp He.
  destruct (cycle_loaded c s w s' w' Hc Hwf Hrun)
    as (l0 & w0 & l1 & img & e0 & evs & Hin & _ & _ & Hl & Hout & Hp').
  rewrite Hp in Hp'. injection Hp' as ->.
  destruct (same_inputs_events _ _ Hin) as (_ & Hd & _).
  pose proof Hin as (Hfs & Hw & Happ0 & _).
  pose proof Hout as (_ & _ & Happ & _).
  rewrite <- (same_inputs_encoded _ _ Hin).
  assert (He0 : e0 = Some e).
  { destruct c; try discriminate Hc; destruct e0; simpl in He; congruence. }
  rewrite Happ, <- Hd. clear He Hp.
  destruct Hl as [e1 Hw1 Hload | l1 e1 Hre Hrn | l1 roots e1 Hre Hrn Henc
                 | l1 roots bytes Hre Hrn Henc]; [| | | done];
    injection He0 as <-.
  - left. rewrite <- Hw, <- Hfs. split; [done |]. split; [done |].
    rewrite <- Happ0. by destruct l0.
  - right. left. exists e1. by split.
  - right. right. exists roots, e1. by split.
Qed.

End Failures.

(** ** The watcher *)

Lemma broadcast_update_events img_type up fo :
  fanout.calls (browser.broadcast_update img_type up fo)
    = fanout.calls fo ++ events_of img_type up
  /\ fanout.clients (browser.broadcast_update img_type up fo)
     = map (fun c => (fst c, snd c ++ events_of img_type up)) (fanout.clients fo).
Proof.
  unfold browser.broadcast_update, events_of, fanout.Broadcast.
  destruct (Err up) as [e |]; destruct (String.eqb (Schema up) ""); simpl;
    rewrite <- ?app_assoc; (split; [reflexivity |]);
    rewrite ?map_map; apply map_ext; intros [conn q]; simpl;
    by rewrite <- ?app_assoc.
Qed.

(** X19.  The watcher hands the Updates on in the order they were sent.
    With the Updates [ups] waiting on the channel, as many turns of the
    watcher empty it, and [Broadcast] has been given the events of the
    first Update, then those of the second, and so on, each connection's
    queue growing by exactly these; the watcher then waits if the channel
    is open.  On a closed and empty channel it does not stop: each turn
    broadcasts one Image event with no image. *)
Theorem watcher_broadcasts_in_order (b : browser.Browser) :
  let evs := flat_map (events_of (served_type b)) (buf (browser.updateChan b)) in
  (exists b',
     browser.acts (repeat browser.Watch (length (buf (browser.updateChan b)))) b
       = Some b'
     /\ buf (browser.updateChan b') = []
     /\ fanout.calls (browser.fo b') = fanout.calls (browser.fo b) ++ evs
     /\ fanout.clients (browser.fo b')
        = map (fun c => (fst c, snd c ++ evs)) (fanout.clients (browser.fo b))
     /\ (closed (browser.updateChan b) = false ->
         browser.updateWatcher_turn b' = Blocked)
     /\ (closed (browser.updateChan b) = true ->
         exists b'',
           browser.updateWatcher_turn b' = Done b''
           /\ browser.updateChan b'' = browser.updateChan b'
           /\ fanout.calls (browser.fo b'')
              = fanout.calls (browser.fo b')
                ++ [fanout.mkEvent fanout.EventTypeImage "" (served_type b)])).
Proof.
  destruct b as [[ups cp cl] wt fo gif ups0]. simpl.
  revert fo. induction ups as [| up ups IH]; intros fo; simpl.
  - eexists. split; [reflexivity |]. simpl. rewrite app_nil_r.
    split; [done |]. split; [done |].
    split; [rewrite <- (map_id (fanout.clients fo)) at 1; apply map_ext;
            intros [conn q]; simpl; by rewrite app_nil_r |].
    unfold browser.updateWatcher_turn, recv. simpl. split; intros ->; [done |].
    eexists. split; [reflexivity |]. simpl. split; [done |].
    reflexivity.
  - unfold browser.updateWatcher_turn at 1, recv. simpl.
    destruct (IH (browser.broadcast_update (if gif then "gif" else "webp") up fo))
      as (b' & Hacts & Hbuf & Hcalls & Hclients & Hopen & Hclosed).
    exists b'. split; [exact Hacts |]. split; [exact Hbuf |].
    destruct (broadcast_update_events (if gif then "gif" else "webp") up fo)
      as (Hc1 & Hc2).
    unfold served_type in *. simpl in *.
    split; [by rewrite Hcalls, Hc1, <- app_assoc |].
    split; [| done].
    rewrite Hclients, Hc2, map_map.
    apply map_ext. intros [conn q]. simpl. by rewrite <- app_assoc.
Qed.

Section Announced.
Context `{RT : Runtime}.

(** X20.  The image type the browser announces against the one the loader
    made.  For the Update of a completed cycle taken off the channel,
    the first event of the watcher's turn is the Image event with the
    Update's image; when the cycle did not fail, its image type is the
    Update's exactly when [serveGif] of the browser equals [renderGif] of
    the loader; when the cycle failed, the Update has no image type and
    the event announces one all the same. *)
Theorem event_type_agrees_with_update (b : browser.Browser) (c : Case)
    (s : RunState) (w : World) (s' : RunState) (w' : World) (up : Update)
    (rest : list Update) :
  is_cycle c = true -> gate_wf (ldr s) ->
  Run_case c s w = Done (s', w') ->
  produced s' = Some up ->
  buf (browser.updateChan b) = up :: rest ->
  exists b' ev later,
    browser.updateWatcher_turn b = Done b'
    /\ fanout.calls (browser.fo b')
       = fanout.calls (browser.fo b) ++ ev :: later
    /\ fanout.Type_ ev = fanout.EventTypeImage
    /\ fanout.Message ev = Image up
    /\ (Err up = None ->
        (fanout.ImageType ev = ImageType up
         <-> browser.serveGif b = renderGif (ldr s)))
    /\ (Err up <> None ->
        ImageType up = "" /\ fanout.ImageType ev <> "").
Proof.
  intros Hc Hwf Hrun Hp Hbuf.
  destruct (cycle_loaded c s w s' w' Hc Hwf Hrun)
    as (l0 & w0 & l1 & img & e & evs & Hin & _ & _ & Hl & _ & Hp').
  rewrite Hp in Hp'. injection Hp' as Hup.
  pose proof Hin as (_ & _ & _ & Hil & _ & _ & Hgif).
  assert (Hwf0 : gate_wf l0) by (unfold gate_wf; by rewrite Hil).
  assert (Hgif1 : renderGif l1 = renderGif (ldr s)).
  { apply loaded_facts in Hl as (_ & Hsame & _); [| done].
    destruct Hsame as (_ & _ & _ & _ & _ & _ & _ & _ & _ & ? & _). congruence. }
  unfold browser.updateWatcher_turn, recv. rewrite Hbuf.
  eexists _, _, _. split; [reflexivity |]. simpl.
  destruct (broadcast_update_events (if browser.serveGif b then "gif" else "webp")
              up (browser.fo b)) as (-> & _).
  split; [reflexivity |]. simpl. split; [done |]. split; [done |].
  assert (Hty : ImageType up = match Err up with
                               | Some _ => ""
                               | None => if renderGif (ldr s) then "gif" else "webp"
                               end).
  { rewrite Hup, <- Hgif1. destruct c; [done | |]; by destruct e. }
  rewrite Hty. split.
  - intros ->. destruct (browser.serveGif b), (renderGif (ldr s)); by split.
  - intros Hne. destruct (Err up); [| done]. split; [done |].
    by destruct (browser.serveGif b).
Qed.

End Announced.

(** ** The path [NewBrowser] serves on *)

Lemma substring_0_0 (s : string) : substring 0 0 s = "".
Proof. by destruct s. Qed.

Lemma HasPrefix_slash (s : string) :
  HasPrefix s "/" = true <-> exists r, s = String "/" r.
Proof.
  unfold HasPrefix. destruct s as [| c r]; simpl.
  - split; [done | by intros (r & ?)].
  - rewrite substring_0_0. destruct (Ascii.eqb_spec c "/") as [-> | Hne]; simpl.
    + split; [by exists r | done].
    + split; [done | intros (r' & [= -> _]); done].
Qed.

Lemma HasSuffix_snoc (r : string) : HasSuffix (r +:+ "/") "/" = true.
Proof.
  unfold HasSuffix. rewrite length_append.
  change (String.length "/") with 1%nat.
  replace (String.length r + 1 - 1)%nat with (String.length r) by lia.
  assert ((1 <=? String.length r + 1)%nat = true) as -> by (apply Nat.leb_le; lia).
  rewrite andb_true_l. apply String.eqb_eq.
  induction r as [| c r IH]; [done |]. rewrite append_cons. simpl. exact IH.
Qed.

Lemma HasSuffix_slash (s : string) :
  HasSuffix s "/" = true <-> exists r, s = r +:+ "/".
Proof.
  split; [| intros (r & ->); apply HasSuffix_snoc].
  unfold HasSuffix. induction s as [| c s IH]; [done |].
  simpl. rewrite Nat.sub_0_r. destruct s as [| c' s'].
  - simpl. destruct (Ascii.eqb_spec c "/") as [-> | Hne]; [| done].
    intros _. by exists "".
  - intros H. destruct IH as (r & Hr).
    { simpl. rewrite Nat.sub_0_r. exact H. }
    exists (String c r). by rewrite append_cons, <- Hr.
Qed.

Lemma NewBrowser_path_slashes (servePath : string) :
  HasPrefix (browser.NewBrowser_path servePath) "/" = true
  /\ HasSuffix (browser.NewBrowser_path servePath) "/" = true.
Proof.
  unfold browser.NewBrowser_path. split.
  - destruct (HasPrefix servePath "/") eqn:Hp; simpl.
    + destruct (HasSuffix servePath "/"); simpl; [done |].
      apply HasPrefix_slash in Hp as (r & ->). by apply HasPrefix_slash; eexists.
    + destruct (HasSuffix ("/" +:+ servePath) "/"); simpl;
        by apply HasPrefix_slash; eexists.
  - destruct (HasPrefix servePath "/"); simpl.
    + destruct (HasSuffix servePath "/") eqn:Hs; simpl; [done |].
      apply HasSuffix_snoc.
    + destruct (HasSuffix ("/" +:+ servePath) "/") eqn:Hs; simpl; [done |].
      apply (HasSuffix_snoc (String "/" servePath)).
Qed.

(** X21.  The path the application is served on always begins and ends
    with a slash: [NewBrowser] puts one in front and one behind where
    they are missing and changes nothing else, so a path that has both is
    kept and normalising twice is normalising once.  The path is "/", the
    case in which [rootHandler] gives the page no [Base], exactly when
    the path asked for is empty or "/". *)
Theorem NewBrowser_path_normalised (servePath : string) :
  let path := browser.NewBrowser_path servePath in
  HasPrefix path "/" = true /\ HasSuffix path "/" = true
  /\ (exists pre suf,
        path = pre +:+ servePath +:+ suf
        /\ (pre = "" \/ pre = "/") /\ (suf = "" \/ suf = "/"))
  /\ (HasPrefix servePath "/" = true -> HasSuffix servePath "/" = true ->
      path = servePath)
  /\ browser.NewBrowser_path path = path
  /\ (path = "/" <-> servePath = "" \/ servePath = "/")
  /\ (browser.rootHandler_config path = ∅ <-> servePath = "" \/ servePath = "/").
Proof.
  intros path.
  destruct (NewBrowser_path_slashes servePath) as (Hpre & Hsuf). fold path in Hpre, Hsuf.
  assert (Hkeep : forall p, HasPrefix p "/" = true -> HasSuffix p "/" = true ->
                            browser.NewBrowser_path p = p).
  { intros p Hp Hs. unfold browser.NewBrowser_path. rewrite Hp. simpl. by rewrite Hs. }
  assert (Hone : path = "/" <-> servePath = "" \/ servePath = "/").
  { subst path. unfold browser.NewBrowser_path.
    destruct (HasPrefix servePath "/") eqn:Hp; simpl.
    - apply HasPrefix_slash in Hp as (r & ->).
      destruct (HasSuffix (String "/" r) "/") eqn:Hs; simpl.
      + split; [by right | by intros [? | ?]].
      + split.
        * destruct r; [done |]. rewrite !append_cons. by intros [=].
        * intros [? | [= ->]]; [done |]. done.
    - change ("/" +:+ servePath) with (String "/" servePath).
      destruct (HasSuffix (String "/" servePath) "/") eqn:Hs; simpl.
      + split.
        * intros [= ->]. by left.
        * intros [-> | ->]; [done | done].
      + split.
        * destruct servePath; [done |]. rewrite !append_cons. by intros [=].
        * intros [-> | ->]; done. }
  split; [done |]. split; [done |]. split.
  { subst path. unfold browser.NewBrowser_path.
    destruct (HasPrefix servePath "/"); simpl.
    - destruct (HasSuffix servePath "/"); simpl.
      + exists "", "". rewrite append_nil_r. by repeat split; left.
      + exists "", "/". repeat split; [by left | by right].
    - destruct (HasSuffix ("/" +:+ servePath) "/"); simpl.
      + exists "/", "". rewrite append_nil_r. repeat split; [by right | by left].
      + exists "/", "/". repeat split; by right. }
  split; [subst path; apply Hkeep |]. split; [by apply Hkeep |].
  split; [done |].
  rewrite <- Hone. unfold browser.rootHandler_config.
  destruct (String.eqb_spec path "/") as [-> | Hne]; simpl; [done |].
  split; [| done]. intros Hempty.
  assert (H : ({[ "Base" := path ]} : gmap string string) !! "Base" = Some path)
    by apply lookup_singleton_eq.
  rewrite Hempty in H. by rewrite lookup_empty in H.
Qed.

(** ** The icon of a schema field *)

Lemma toLowerCase_lower (c : ascii) :
  FieldIcon.is_upper c = true ->
  FieldIcon.is_upper (FieldIcon.toLowerCase c) = false
  /\ FieldIcon.is_upper "-" = false.
Proof.
  destruct c as [[] [] [] [] [] [] [] []]; vm_compute; intros H;
    (discriminate H || done).
Qed.

Lemma faIconName_no_capital (s : string) :
  has_capital (FieldIcon.faIconName s) = false.
Proof.
  induction s as [| c s IH]; [done |]. simpl.
  destruct (FieldIcon.is_upper c) eqn:Hc; simpl.
  - by destruct (toLowerCase_lower c Hc) as (-> & _).
  - by rewrite Hc.
Qed.

(** X23.  The name [FieldIcon] looks up has no capital letter: every
    capital of the icon name is replaced by a hyphen and its small
    letter, nothing else changes, so the name grows by one character for
    each capital, a name without capitals is kept, and converting twice
    is converting once. *)
Theorem faIconName_kebab (iconName : string) :
  has_capital (FieldIcon.faIconName iconName) = false
  /\ String.length (FieldIcon.faIconName iconName)
     = (String.length iconName + capitals iconName)%nat
  /\ (FieldIcon.faIconName iconName = iconName <-> has_capital iconName = false)
  /\ FieldIcon.faIconName (FieldIcon.faIconName iconName)
     = FieldIcon.faIconName iconName.
Proof.
  pose proof faIconName_no_capital as H1.
  assert (H2 : forall s, has_capital s = false -> FieldIcon.faIconName s = s).
  { induction s as [| c s IH]; [done |]. simpl.
    destruct (FieldIcon.is_upper c); [done |]. simpl. intros Hs. by rewrite IH. }
  assert (H3 : forall s, String.length (FieldIcon.faIconName s)
                         = (String.length s + capitals s)%nat).
  { induction s as [| c s IH]; [done |]. simpl.
    destruct (FieldIcon.is_upper c); simpl; rewrite IH; lia. }
  split; [apply H1 |]. split; [apply H3 |]. split; [| apply H2, H1].
  split; [| apply H2]. intros Heq. rewrite <- Heq. apply H1.
Qed.

(** X24.  What [FieldIcon] renders: nothing exactly when no icon name is
    given or the name is empty; a Font Awesome icon only when the lookup
    finds one under the converted name, which has no capital letter, the
    solid family being asked first and the brands only when it has none;
    and otherwise a Material icon under the name as it was given. *)
Theorem FieldIcon_lookup {IconDefinition : Type}
    (findIconDefinition : string -> string -> option IconDefinition)
    (icon : option string) :
  (FieldIcon.FieldIcon findIconDefinition icon = FieldIcon.Null
   <-> icon = None \/ icon = Some "")
  /\ (forall icoDef,
        FieldIcon.FieldIcon findIconDefinition icon
          = FieldIcon.FontAwesomeIcon icoDef ->
        exists iconName,
          icon = Some iconName
          /\ has_capital (FieldIcon.faIconName iconName) = false
          /\ (findIconDefinition "fas" (FieldIcon.faIconName iconName)
                = Some icoDef
              \/ (findIconDefinition "fas" (FieldIcon.faIconName iconName) = None
                  /\ findIconDefinition "fab" (FieldIcon.faIconName iconName)
                     = Some icoDef)))
  /\ (forall name,
        FieldIcon.FieldIcon findIconDefinition icon
          = FieldIcon.MaterialIcon name ->
        icon = Some name
        /\ findIconDefinition "fas" (FieldIcon.faIconName name) = None
        /\ findIconDefinition "fab" (FieldIcon.faIconName name) = None).
Proof.
  unfold FieldIcon.FieldIcon. destruct icon as [iconName |].
  2: { split; [split; [by left | done] |]. split; [done | done]. }
  destruct (String.eqb_spec iconName "") as [-> | Hne].
  { split; [split; [by right | done] |]. split; [done | done]. }
  cbv zeta.
  destruct (findIconDefinition "fas" _) as [d |] eqn:Hfas.
  - split; [split; [done | intros [? | [= ?]]; done] |]. split; [| done].
    intros icoDef [= <-]. exists iconName. split; [done |].
    split; [apply faIconName_no_capital | by left].
  - destruct (findIconDefinition "fab" _) as [d |] eqn:Hfab.
    + split; [split; [done | intros [? | [= ?]]; done] |]. split; [| done].
      intros icoDef [= <-]. exists iconName. split; [done |].
      split; [apply faIconName_no_capital | by right].
    + split; [split; [done | intros [? | [= ?]]; done] |]. split; [done |].
      by intros name [= <-].
Qed.

Section SchemaEndpoints.
Context `{RT : Runtime} `{SC : !Schemas}.

(** ** The schema endpoints *)

(** X25.  The schema endpoints and the gate.  [schemaHandler] waits exactly
    while the gate is pending and then answers 200 with the JSON
    [GetSchema] returns.  [schemaHandlerHandler] answers 404 for an empty
    handler name and 500 for a body that does not decode without waiting
    for the gate; with a handler name and a decoded body it waits exactly
    while the gate is pending, then answers 200 with what the applet's
    handler returned, as JSON, or 500 with the text of its error.  No
    handler changes the loader. *)
Theorem schema_handlers_wait_for_gate (l : Loader) (r : browser.HTTPRequest)
    (w : http.ResponseWriter) :
  gate_wf l -> http.wroteHeader w = false ->
  (browser.schemaHandler l w = Blocked <-> released l = false)
  /\ (released l = true ->
      exists w',
        browser.schemaHandler l w = Done (l, w')
        /\ http.status w' = 200
        /\ http.sent w' !! "Content-Type" = Some "application/json"
        /\ http.body w' = http.body w +:+ schema_of (applet l))
  /\ (browser.PathValue_handler r = "" ->
      exists w',
        browser.schemaHandlerHandler l r w = Done (l, w')
        /\ http.status w' = 404
        /\ http.body w' = http.body w +:+ "no handler" +:+ http.newline)
  /\ (forall e,
        browser.PathValue_handler r <> "" -> browser.Decode_body r = inr e ->
        exists w',
          browser.schemaHandlerHandler l r w = Done (l, w')
          /\ http.status w' = 500
          /\ http.body w' = http.body w +:+ Error e +:+ http.newline)
  /\ (forall msg,
        browser.PathValue_handler r <> "" -> browser.Decode_body r = inl msg ->
        (browser.schemaHandlerHandler l r w = Blocked <-> released l = false)
        /\ (released l = true ->
            exists w',
              browser.schemaHandlerHandler l r w = Done (l, w')
              /\ match Applet_CallSchemaHandler (applet l)
                         (browser.PathValue_handler r) (browser.Param msg) with
                 | inl data =>
                     http.status w' = 200
                     /\ http.sent w' !! "Content-Type" = Some "application/json"
                     /\ http.body w' = http.body w +:+ data
                 | inr e =>
                     http.status w' = 500
                     /\ http.body w' = http.body w +:+ Error e +:+ http.newline
                 end)).
Proof.
  intros Hwf Hw.
  destruct (GetSchema_eq l Hwf) as (Hg & Hc).
  assert (Hline : forall code msg,
            http.status (http.Fprintln msg (http.WriteHeader code w)) = code
            /\ http.body (http.Fprintln msg (http.WriteHeader code w))
               = http.body w +:+ msg +:+ http.newline).
  { intros code msg. unfold http.Fprintln, http.Write, http.WriteHeader.
    rewrite Hw. done. }
  split; [| split; [| split; [| split]]].
  - unfold browser.schemaHandler. rewrite Hg. by destruct (released l).
  - intros Hr. unfold browser.schemaHandler. rewrite Hg, Hr.
    eexists. split; [reflexivity |].
    destruct (Write_fresh (schema_of (applet l))
                (http.Set_ "Content-Type" "application/json" w) Hw)
      as (-> & -> & -> & _).
    split; [done |]. split; [apply lookup_insert_eq | done].
  - intros Hh. unfold browser.schemaHandlerHandler. rewrite Hh. simpl.
    eexists. split; [reflexivity |]. apply Hline.
  - intros e Hh Hd. unfold browser.schemaHandlerHandler.
    destruct (String.eqb_spec (browser.PathValue_handler r) ""); [done |].
    rewrite Hd. eexists. split; [reflexivity |]. apply Hline.
  - intros msg Hh Hd. unfold browser.schemaHandlerHandler.
    destruct (String.eqb_spec (browser.PathValue_handler r) ""); [done |].
    rewrite Hd, Hc. destruct (released l); [| done].
    destruct (Applet_CallSchemaHandler _ _ _) as [data | e];
      (split; [done |]); intros _.
    + eexists. split; [reflexivity |].
      destruct (Write_fresh data
                  (http.Set_ "Content-Type" "application/json" w) Hw)
        as (-> & -> & -> & _).
      split; [done |]. split; [apply lookup_insert_eq | done].
    + eexists. split; [reflexivity |]. apply Hline.
Qed.

End SchemaEndpoints.

Section OneCall.
Context `{RT : Runtime}.

(** ** A call of [LoadApplet] that is served returns *)

Lemma NewLoader_wiring fsys watching fileCh updatesCh maxDur tmo gif outFile d l w :
  NewLoader fsys watching fileCh updatesCh maxDur tmo gif outFile (mkWorld d [])
    = Done (inl l, w) ->
  gate_wf l /\ disk w = d
  /\ configChanges l = make 100 /\ requestedChanges l = make 100
  /\ resultsChan l = make 100 /\ updatesChan l = updatesCh
  /\ configOutFile l = outFile.
Proof.
  unfold NewLoader. cbv zeta. simpl. destruct watching; simpl.
  - by intros [= <- <-].
  - unfold call_loadScript, bind, ret. rewrite emit_more, mark_eq by done.
    by destruct (loadScript "app-id" fsys) as [app | e]; intros [= <- <-].
Qed.

Lemma exec_step lb ls (s s1 : Sys) :
  step lb s = Some s1 -> exec (lb :: ls) s = exec ls s1.
Proof. intros H. simpl. by rewrite H. Qed.

(** The on-demand turn goes through when nothing stands in its way. *)
Lemma requested_turn (s : RunState) (w : World) (bytes : string) tok rest :
  gate_wf (ldr s) -> buf (requestedChanges (ldr s)) = tok :: rest ->
  json_Marshal (config s) = inl bytes ->
  (configOutFile (ldr s) = ""
   \/ WriteFile_error (disk w) (configOutFile (ldr s)) = None) ->
  closed (updatesChan (ldr s)) = false ->
  (length (buf (updatesChan (ldr s))) < cap (updatesChan (ldr s)))%nat ->
  closed (resultsChan (ldr s)) = false ->
  (length (buf (resultsChan (ldr s))) < cap (resultsChan (ldr s)))%nat ->
  exists s' w' up,
    Run_requestedChanges s w = Done (s', w')
    /\ buf (resultsChan (ldr s')) = buf (resultsChan (ldr s)) ++ [up]
    /\ buf (updatesChan (ldr s')) = buf (updatesChan (ldr s)) ++ [up]
    /\ cap (resultsChan (ldr s')) = cap (resultsChan (ldr s))
    /\ closed (resultsChan (ldr s')) = false.
Proof.
  intros Hwf Hbuf Hm Hok Huc Hul Hrc Hrl.
  unfold Run_requestedChanges, bind at 1, lift, recv. rewrite Hbuf.
  unfold call_Marshal, bind at 1 2, ret at 1. rewrite emit_more, Hm.
  set (l0 := set_requestedChanges _ (ldr s)).
  assert (Hrest : forall w0, exists s' w' up,
    bind (loadApplet l0 (config s)) (fun p =>
      let '(l, (img, err)) := p in
      let up := fill l img err in
      bind (lift (send (updatesChan l) up)) (fun uc =>
      let l := set_updatesChan uc l in
      bind (lift (send (resultsChan l) up)) (fun rc =>
      ret (mkRun (set_resultsChan rc l) (config s))))) w0 = Done (s', w')
    /\ buf (resultsChan (ldr s')) = buf (resultsChan (ldr s)) ++ [up]
    /\ buf (updatesChan (ldr s')) = buf (updatesChan (ldr s)) ++ [up]
    /\ cap (resultsChan (ldr s')) = cap (resultsChan (ldr s))
    /\ closed (resultsChan (ldr s')) = false).
  { intros w0. unfold bind at 1.
    destruct (loadApplet_total l0 (config s) w0) as (l1 & img & er & w1 & -> & Hl);
      [done |].
    apply loaded_facts in Hl as (_ & Hsame & _); [| done].
    destruct Hsame as (_ & _ & _ & _ & _ & Hupd & Hres & _).
    unfold bind, lift, ret. rewrite Hupd.
    change (updatesChan l0) with (updatesChan (ldr s)).
    rewrite send_room by done.
    change (resultsChan (set_updatesChan _ l1)) with (resultsChan l1).
    rewrite Hres. change (resultsChan l0) with (resultsChan (ldr s)).
    rewrite send_room by done.
    by do 3 eexists. }
  change (configOutFile l0) with (configOutFile (ldr s)).
  destruct (String.eqb_spec (configOutFile (ldr s)) "") as [He | Hne].
  - unfold bind at 1, ret at 1. apply Hrest.
  - destruct Hok as [? | Hwr]; [done |].
    unfold bind at 1 2, call_WriteFile, os_WriteFile. simpl. rewrite Hwr.
    unfold ret at 1. apply Hrest.
Qed.

(** X26.  A call of [LoadApplet] that is served returns.  On a loader as
    [NewLoader] gives it, for a configuration that marshals, with the
    debug file writable or no debug path, and [updatesChan] open with
    room: the schedule of one call served in order goes through without
    a panic, the call returns the Image and Err of the Update its request
    produced, that Update is the last on [updatesChan], and [resultsChan]
    is empty again. *)
Theorem in_order_call_returns (fsys : FS) (watching : bool)
    (fileCh : chan bool) (updatesCh : chan Update) (maxDur tmo : Z)
    (gif : bool) (outFile : string) (d : Disk) (l : Loader) (w : World)
    (cfg : Config) (bytes : string) :
  NewLoader fsys watching fileCh updatesCh maxDur tmo gif outFile (mkWorld d [])
    = Done (inl l, w) ->
  json_Marshal cfg = inl bytes ->
  (outFile = "" \/ WriteFile_error d outFile = None) ->
  closed updatesCh = false ->
  (length (buf updatesCh) < cap updatesCh)%nat ->
  exists sys up,
    exec (in_order 0) (boot l w [cfg]) = Some sys
    /\ halted sys = None
    /\ callers sys !! 0%nat
       = Some (mkCaller cfg (Returned (Image up) (Err up)) (Some (ByRequest 0)))
    /\ buf (updatesChan (ldr (run sys))) = buf updatesCh ++ [up]
    /\ buf (resultsChan (ldr (run sys))) = [].
Proof.
  intros Hnew Hm Hok Hcl Hroom.
  destruct (NewLoader_wiring _ _ _ _ _ _ _ _ _ _ _ Hnew)
    as (Hwf & Hd & Hcc & Hrq & Hres & Hupd & Hout).
  set (l1 := set_configChanges (mkChan [] 100 false) l).
  set (l2 := set_requestedChanges (mkChan [true] 100 false) l1).
  destruct (requested_turn (mkRun l2 cfg) w bytes true [])
    as (s' & w' & up & Hrun & Hrb & Hub & Hrcap & Hrcl); try done.
  { simpl. rewrite Hout, Hd. exact Hok. }
  { simpl. by rewrite Hupd. }
  { simpl. by rewrite Hupd. }
  { simpl. by rewrite Hres. }
  { simpl. rewrite Hres. simpl. lia. }
  simpl in Hrb, Hub. rewrite Hres in Hrb. rewrite Hupd in Hub. simpl in Hrb.
  set (c0 := mkCaller cfg AtEntry None).
  set (c1 := mkCaller cfg SentConfig None).
  set (c2 := mkCaller cfg SentRequest None).
  set (c3 := mkCaller cfg (Returned (Image up) (Err up)) (Some (ByRequest 0))).
  set (sys1 := mkSys (mkRun (set_configChanges (mkChan [cfg] 100 false) l) ∅)
                 w None [c1] [] []).
  set (sys2 := mkSys (mkRun l1 cfg) w None [c1] [] []).
  set (sys3 := mkSys (mkRun l2 cfg) w None [c2] [0%nat] []).
  set (sys4 := mkSys s' w' None [c2] [] [ByRequest 0]).
  set (sys5 := mkSys (mkRun (set_resultsChan
                               (mkChan [] (cap (resultsChan (ldr s')))
                                  (closed (resultsChan (ldr s')))) (ldr s'))
                        (config s'))
                 w' None [c3] [] []).
  assert (H1 : step (Send_config 0) (boot l w [cfg]) = Some sys1).
  { unfold step, caller_step, boot. simpl. rewrite Hcc. reflexivity. }
  assert (H2 : step (Select CaseConfig) sys1 = Some sys2) by reflexivity.
  assert (H3 : step (Send_request 0) sys2 = Some sys3).
  { unfold step, caller_step, sys2. simpl. rewrite Hrq. reflexivity. }
  assert (H4 : step (Select CaseRequested) sys3 = Some sys4).
  { unfold step, sys3. simpl. by rewrite Hrun. }
  assert (H5 : step (Receive 0) sys4 = Some sys5).
  { unfold step, caller_step, sys4. simpl. unfold recv. rewrite Hrb. reflexivity. }
  exists sys5, up. split; [| by split].
  unfold in_order.
  by rewrite (exec_step _ _ _ _ H1), (exec_step _ _ _ _ H2),
    (exec_step _ _ _ _ H3), (exec_step _ _ _ _ H4), (exec_step _ _ _ _ H5).
Qed.

End OneCall.

Section Panics.
Context `{RT : Runtime}.

(** ** When [Run] panics *)

(** A turn of [Run] panics in the on-demand case only, with the error of
    [json.Marshal] or of [os.WriteFile], as long as the channels it sends
    on are open. *)
Lemma Run_case_panic c s w p :
  gate_wf (ldr s) ->
  closed (updatesChan (ldr s)) = false -> closed (resultsChan (ldr s)) = false ->
  Run_case c s w = Panicked p ->
  c = CaseRequested
  /\ exists e, p = PanicError e
       /\ (json_Marshal (config s) = inr e
           \/ (configOutFile (ldr s) <> ""
               /\ WriteFile_error (disk w) (configOutFile (ldr s)) = Some e)).
Proof.
  intros Hwf Hu Hr.
  destruct c; simpl.
  - unfold Run_configChanges, bind, lift, recv, ret.
    destruct (buf (configChanges (ldr s)));
      [destruct (closed (configChanges (ldr s))) |]; simpl; done.
  - intros Hrun. split; [done |]. revert Hrun.
    unfold Run_requestedChanges, bind at 1, lift.
    destruct (recv (requestedChanges (ldr s))) as [[tok ch] | |] eqn:Hrecv;
      [| done |].
    2: { unfold recv in Hrecv. destruct (buf (requestedChanges (ldr s)));
         [destruct (closed (requestedChanges (ldr s))) |]; done. }
    unfold call_Marshal, bind at 1 2, ret at 1. rewrite emit_more.
    destruct (json_Marshal (config s)) as [bytes | e] eqn:Hm.
    2: { intros [= <-]. exists e. split; [done | by left]. }
    change (configOutFile (set_requestedChanges ch (ldr s)))
      with (configOutFile (ldr s)).
    set (l0 := set_requestedChanges ch (ldr s)).
    assert (Hrest : forall w0,
      bind (loadApplet l0 (config s)) (fun q =>
        let '(l, (img, err)) := q in
        let up := fill l img err in
        bind (lift (send (updatesChan l) up)) (fun uc =>
        let l := set_updatesChan uc l in
        bind (lift (send (resultsChan l) up)) (fun rc =>
        ret (mkRun (set_resultsChan rc l) (config s))))) w0 <> Panicked p).
    { intros w0. unfold bind at 1.
      destruct (loadApplet_total l0 (config s) w0) as (l1 & img & er & w1 & -> & Hl);
        [done |].
      apply loaded_facts in Hl as (_ & Hsame & _); [| done].
      destruct Hsame as (_ & _ & _ & _ & _ & Hupd & Hres & _).
      unfold bind, lift, ret, send. rewrite Hupd. simpl. rewrite Hu.
      destruct (_ <? _)%nat; [| done]. simpl. rewrite Hres. simpl. rewrite Hr.
      by destruct (_ <? _)%nat. }
    destruct (String.eqb_spec (configOutFile (ldr s)) "") as [He | Hne].
    + unfold bind at 1, ret at 1. intros Hrun. by apply Hrest in Hrun.
    + unfold bind at 1 2, call_WriteFile, os_WriteFile. simpl.
      destruct (WriteFile_error (disk w) (configOutFile (ldr s))) as [e |] eqn:Hwr.
      * intros [= <-]. exists e. split; [done |]. right. by split.
      * unfold ret at 1. intros Hrun. by apply Hrest in Hrun.
  - unfold Run_fileChanges, bind at 1, lift.
    destruct (recv (fileChanges (ldr s))) as [[tok ch] | |] eqn:Hrecv; [| done |].
    2: { unfold recv in Hrecv. destruct (buf (fileChanges (ldr s)));
         [destruct (closed (fileChanges (ldr s))) |]; done. }
    unfold bind at 1.
    destruct (loadApplet_total (set_fileChanges ch (ldr s)) (config s) w)
      as (l1 & img & er & w1 & -> & Hl); [done |].
    apply loaded_facts in Hl as (_ & Hsame & _); [| done].
    destruct Hsame as (_ & _ & _ & _ & _ & Hupd & _).
    unfold bind, lift, ret, send. rewrite Hupd. simpl. rewrite Hu.
    by destruct (_ <? _)%nat.
Qed.

Lemma step_open lb s s' :
  step lb s = Some s' -> gate_wf (ldr (run s)) ->
  closed (updatesChan (ldr (run s))) = false ->
  closed (resultsChan (ldr (run s))) = false ->
  closed (updatesChan (ldr (run s'))) = false
  /\ closed (resultsChan (ldr (run s'))) = false.
Proof.
  unfold step. destruct (halted s) eqn:Hh; [done |]. intros Hstep Hwf Hu Hr.
  assert (Hcaller : forall i, caller_step i s = Some s' ->
            closed (updatesChan (ldr (run s'))) = false
            /\ closed (resultsChan (ldr (run s'))) = false).
  { clear Hstep. intros i. unfold caller_step.
    destruct (callers s !! i) as [c |]; [| done]. simpl.
    destruct (pc c).
    - destruct (send _ _) as [ch | |]; [| done..]. by intros [= <-].
    - destruct (send _ _) as [ch | |]; [| done..]. by intros [= <-].
    - destruct (recv _) as [[[r |] ch] | |] eqn:Hrc; [| done..]. intros [= <-].
      simpl. split; [done |].
      apply recv_inv in Hrc as [(x & rest & _ & _ & ->) | (_ & _ & ? & _)];
        done.
    - done. }
  destruct lb as [i | i | i | c | src].
  1-3: destruct (callers s !! i) as [c |]; simpl in Hstep; [| done];
       destruct (pc c); simpl in Hstep; try done; by eapply Hcaller.
  - clear Hcaller.
    destruct (Run_case c (run s) (world s)) as [[r w] | |] eqn:Hrun; [| done |].
    + destruct c.
      * injection Hstep as <-. simpl in Hrun.
        unfold Run_configChanges, bind, lift, ret in Hrun.
        destruct (recv _) as [[cf ch] | |]; [| done..]. by injection Hrun as <- <-.
      * injection Hstep as <-. simpl in Hrun.
        destruct (requested_inv _ _ _ _ Hwf Hrun)
          as (tok & ch & bytes & l1 & img & err & uc & rc & _ & _ & _ & _
              & Hsu & Hsr & ->).
        apply send_inv in Hsu as (-> & _). by apply send_inv in Hsr as (-> & _).
      * injection Hstep as <-. simpl in Hrun.
        destruct (file_inv _ _ _ _ Hwf Hrun)
          as (tok & ch & l1 & img & err & uc & _ & Hl & Hsu & ->).
        apply loaded_facts in Hl as (_ & Hsame & _); [| done].
        destruct Hsame as (_ & _ & _ & _ & _ & _ & Hres & _).
        apply send_inv in Hsu as (-> & _). simpl. by rewrite Hres.
    + by injection Hstep as <-.
  - destruct (send _ _) as [ch | |]; [| done..]. by injection Hstep as <-.
Qed.

Lemma caller_step_halted i s s' :
  caller_step i s = Some s' -> halted s' = halted s.
Proof.
  unfold caller_step. destruct (callers s !! i) as [c |]; [| done]. simpl.
  destruct (pc c).
  - destruct (send _ _); [| done..]. by intros [= <-].
  - destruct (send _ _); [| done..]. by intros [= <-].
  - destruct (recv _) as [[[r |] ch] | |]; [| done..]. by intros [= <-].
  - done.
Qed.

(** A step halts the process only by a panicking turn of [Run]. *)
Lemma step_halts lb s s' q :
  step lb s = Some s' -> halted s' = Some q ->
  exists c, lb = Select c /\ Run_case c (run s) (world s) = Panicked q
            /\ run s' = run s /\ world s' = world s.
Proof.
  unfold step. destruct (halted s) eqn:Hh; [done |]. intros Hstep Hq.
  destruct lb as [i | i | i | c | src].
  1-3: exfalso; destruct (callers s !! i) as [c |]; simpl in Hstep; [| done];
       match type of Hstep with (if ?b then _ else _) = _ => destruct b end;
       [| done]; apply caller_step_halted in Hstep; congruence.
  - destruct (Run_case c (run s) (world s)) as [[r w] | |] eqn:Hrun; [| done |].
    + exfalso. destruct c; injection Hstep as <-; simpl in Hq; congruence.
    + injection Hstep as <-. simpl in Hq. injection Hq as <-. by exists c.
  - exfalso. destruct (send _ _); [| done..]. injection Hstep as <-.
    simpl in Hq. congruence.
Qed.

Lemma exec_panic ls s s' p :
  gate_wf (ldr (run s)) ->
  closed (updatesChan (ldr (run s))) = false ->
  closed (resultsChan (ldr (run s))) = false ->
  halted s = None ->
  exec ls s = Some s' -> halted s' = Some p ->
  exists ls' e,
    ls = ls' ++ [Select CaseRequested] /\ p = PanicError e
    /\ (json_Marshal (config (run s')) = inr e
        \/ (configOutFile (ldr (run s')) <> ""
            /\ WriteFile_error (disk (world s')) (configOutFile (ldr (run s')))
               = Some e)).
Proof.
  revert s. induction ls as [| lb ls IH]; intros s Hwf Hu Hr Hh; simpl.
  - intros [= <-]. congruence.
  - destruct (step lb s) as [s1 |] eqn:Hstep; [| done]. simpl. intros Hex Hp.
    destruct (halted s1) as [q |] eqn:Hh1.
    + pose proof (exec_halted _ _ _ q Hh1 Hex) as ->.
      destruct ls as [| lb2 ls].
      2: { simpl in Hex. by rewrite (halted_stuck _ q lb2 Hh1) in Hex. }
      assert (q = p) as -> by congruence.
      destruct (step_halts _ _ _ _ Hstep Hh1) as (c & -> & Hrun & -> & ->).
      destruct (Run_case_panic _ _ _ _ Hwf Hu Hr Hrun) as (-> & e & -> & Hwhy).
      exists [], e. by split.
    + destruct (step_facts _ _ _ Hstep Hwf) as (Hwf1 & _).
      destruct (step_open _ _ _ Hstep Hwf Hu Hr) as (Hu1 & Hr1).
      destruct (IH s1 Hwf1 Hu1 Hr1 Hh1 Hex Hp) as (ls' & e & -> & -> & Hwhy).
      exists (lb :: ls'), e. by split.
Qed.

(** X27.  [Run] panics on the debug file only.  After [NewLoader] with an
    open [updatesChan], whatever the schedule: if [Run] has panicked, it
    did so in the last step, in an on-demand turn, and the panic carries
    the error [json.Marshal] returned for the retained configuration or,
    with a debug path, the error [os.WriteFile] returned for it; no send
    on a closed channel and no [close] of a closed channel occurs. *)
Theorem Run_panics_only_on_debug_write (fsys : FS) (watching : bool)
    (fileCh : chan bool) (updatesCh : chan Update) (maxDur tmo : Z)
    (gif : bool) (outFile : string) (d : Disk) (l : Loader) (w : World)
    (configs : list Config) (ls : list Label) (sys : Sys) (p : panic) :
  NewLoader fsys watching fileCh updatesCh maxDur tmo gif outFile (mkWorld d [])
    = Done (inl l, w) ->
  closed updatesCh = false ->
  exec ls (boot l w configs) = Some sys -> halted sys = Some p ->
  exists ls' e,
    ls = ls' ++ [Select CaseRequested] /\ p = PanicError e
    /\ (json_Marshal (config (run sys)) = inr e
        \/ (outFile <> ""
            /\ WriteFile_error (disk (world sys)) outFile = Some e)).
Proof.
  intros Hnew Hcl Hexec Hp.
  destruct (NewLoader_wiring _ _ _ _ _ _ _ _ _ _ _ Hnew)
    as (Hwf & _ & _ & _ & Hres & Hupd & Hout).
  destruct (exec_facts _ _ _ Hexec Hwf) as (_ & _ & Ho & _).
  simpl in Ho. rewrite Hout in Ho.
  destruct (exec_panic ls (boot l w configs) sys p) as (ls' & e & Hls & He & Hwhy);
    try done.
  { simpl. by rewrite Hupd. }
  { simpl. by rewrite Hres. }
  exists ls', e. split; [done |]. split; [done |]. by rewrite Ho in Hwhy.
Qed.

End Panics.

Section DebugFile.
Context `{RT : Runtime}.

(** ** The debug file along a schedule *)

Lemma last_marshalled_app (a b : list Event) :
  last_marshalled (a ++ b)
  = match last_marshalled b with
    | Some c => Some c
    | None => last_marshalled a
    end.
Proof.
  unfold last_marshalled. rewrite omap_app.
  destruct (omap _ b) as [| x xs] using rev_ind; [by rewrite app_nil_r |].
  by rewrite app_assoc, !last_snoc.
Qed.

Lemma last_marshalled_none (evs : list Event) :
  marshals evs = 0%nat -> last_marshalled evs = None.
Proof.
  unfold marshals, last_marshalled. induction evs as [| e evs IH]; [done |].
  rewrite filter_cons. destruct e; simpl; try done.
Qed.

Lemma caller_step_world i s s' :
  caller_step i s = Some s' -> world s' = world s.
Proof.
  unfold caller_step. destruct (callers s !! i) as [c |]; [| done]. simpl.
  destruct (pc c).
  - destruct (send _ _); [| done..]. by intros [= <-].
  - destruct (send _ _); [| done..]. by intros [= <-].
  - destruct (recv _) as [[[r |] ch] | |]; [| done..]. by intros [= <-].
  - done.
Qed.

(** What a step does to the debug file. *)
Lemma step_debug_file lb s s' :
  step lb s = Some s' -> gate_wf (ldr (run s)) ->
  configOutFile (ldr (run s)) <> "" ->
  (exists evs, trace (world s') = trace (world s) ++ evs
               /\ marshals evs = 0%nat
               /\ disk (world s') !! configOutFile (ldr (run s))
                  = disk (world s) !! configOutFile (ldr (run s)))
  \/ (exists cfg bytes evs,
        trace (world s') = trace (world s) ++ EvMarshal cfg :: evs
        /\ marshals evs = 0%nat
        /\ json_Marshal cfg = inl bytes
        /\ disk (world s') !! configOutFile (ldr (run s)) = Some bytes).
Proof.
  intros Hstep Hwf Hne.
  destruct (step_facts _ _ _ Hstep Hwf)
    as (_ & _ & _ & _ & _ & _ & evs & Ht & _ & Hm).
  assert (Hquiet : forall w1, world s' = w1 -> w1 = world s ->
            (exists evs, trace (world s') = trace (world s) ++ evs
               /\ marshals evs = 0%nat
               /\ disk (world s') !! configOutFile (ldr (run s))
                  = disk (world s) !! configOutFile (ldr (run s)))
            \/ (exists cfg bytes evs,
                  trace (world s') = trace (world s) ++ EvMarshal cfg :: evs
                  /\ marshals evs = 0%nat
                  /\ json_Marshal cfg = inl bytes
                  /\ disk (world s') !! configOutFile (ldr (run s)) = Some bytes)).
  { intros w1 -> ->. left. exists []. by rewrite app_nil_r. }
  unfold step in Hstep. destruct (halted s) eqn:Hh; [done |].
  destruct lb as [i | i | i | c | src].
  1-3: destruct (callers s !! i) as [c |] eqn:Hi; simpl in Hstep; [| done];
       match type of Hstep with (if ?b then _ else _) = _ => destruct b end;
       [| done]; apply caller_step_world in Hstep; by eapply Hquiet.
  - destruct (Run_case c (run s) (world s)) as [[r w] | |] eqn:Hrun; [| done |].
    + destruct c.
      * injection Hstep as <-. simpl in Hrun.
        unfold Run_configChanges, bind, lift, ret in Hrun.
        destruct (recv _) as [[cf ch] | |]; [| done..]. injection Hrun as <- <-.
        by eapply Hquiet.
      * injection Hstep as <-. simpl in Hrun. right.
        destruct (requested_inv _ _ _ _ Hwf Hrun)
          as (tok & ch & bytes & l1 & img & err & uc & rc & _ & Hmar & _ & Hl & _).
        destruct (loaded_trace _ _ _ _ _ _ _ Hl) as (evs1 & Ht1 & Hev).
        apply loaded_facts in Hl as (_ & _ & Hd & _); [| done].
        unfold debug_written in Ht1, Hd.
        destruct (String.eqb_spec (configOutFile (ldr (run s))) ""); [done |].
        simpl in Ht1, Hd.
        exists (config (run s)), bytes,
          (EvWriteFile (configOutFile (ldr (run s))) bytes
             :: reload_events (set_requestedChanges ch (ldr (run s))) ++ evs1).
        simpl. split; [by rewrite Ht1, <- app_assoc |].
        split; [| split; [done | by rewrite Hd, lookup_insert_eq]].
        destruct (render_quiet _ Hev) as (_ & _ & Hm1).
        destruct (reload_events_loads (set_requestedChanges ch (ldr (run s))))
          as (_ & Hm2 & _).
        change (EvWriteFile (configOutFile (ldr (run s))) bytes
                  :: reload_events (set_requestedChanges ch (ldr (run s))) ++ evs1)
          with ([EvWriteFile (configOutFile (ldr (run s))) bytes]
                  ++ reload_events (set_requestedChanges ch (ldr (run s))) ++ evs1).
        by rewrite !marshals_app, Hm1, Hm2.
      * injection Hstep as <-. simpl in Hrun. left.
        destruct (cycle_trace CaseFile _ _ _ _ eq_refl Hwf Hrun)
          as (pre & evs1 & Ht1 & _ & Hmp & Hev & _ & _ & _ & _ & _ & _ & _).
        destruct (file_inv _ _ _ _ Hwf Hrun)
          as (tok & ch & l1 & img & err & uc & _ & Hl & _).
        apply loaded_facts in Hl as (_ & _ & Hd & _); [| done].
        simpl. eexists. split; [exact Ht1 |]. split; [| by rewrite Hd].
        destruct (render_quiet _ Hev) as (_ & _ & Hm1).
        destruct (reload_events_loads (ldr (run s))) as (_ & Hm2 & _).
        by rewrite !marshals_app, Hm1, Hm2, Hmp.
    + injection Hstep as <-. by eapply Hquiet.
  - destruct (send _ _) as [ch | |]; [| done..]. injection Hstep as <-.
    by eapply Hquiet.
Qed.

(** X28.  The debug file follows the requests.  With a debug path,
    starting from a history without an on-demand cycle, whatever the
    schedule, in a state where [Run] is back at its [select] and has not
    panicked: as long as no on-demand cycle has completed the file is as
    it was at the start; afterwards it holds the JSON of the
    configuration that was retained when the latest on-demand cycle was
    served, whichever caller sent it.  (After a panic the file is not the
    JSON of the configuration marshalled last; such a state is not
    covered.) *)
Theorem debug_file_tracks_last_request (l : Loader) (w : World)
    (configs : list Config) (ls : list Label) (sys : Sys) :
  gate_wf l -> configOutFile l <> "" -> last_marshalled (trace w) = None ->
  exec ls (boot l w configs) = Some sys ->
  halted sys = None ->
  match last_marshalled (trace (world sys)) with
  | None => disk (world sys) !! configOutFile l = disk w !! configOutFile l
  | Some cfg =>
      exists bytes,
        json_Marshal cfg = inl bytes
        /\ disk (world sys) !! configOutFile l = Some bytes
  end.
Proof.
  intros Hwf Hne Hnone Hexec _.
  assert (Hgen : forall ls s,
            gate_wf (ldr (run s)) -> configOutFile (ldr (run s)) = configOutFile l ->
            match last_marshalled (trace (world s)) with
            | None => disk (world s) !! configOutFile l = disk w !! configOutFile l
            | Some cfg =>
                exists bytes,
                  json_Marshal cfg = inl bytes
                  /\ disk (world s) !! configOutFile l = Some bytes
            end ->
            exec ls s = Some sys ->
            match last_marshalled (trace (world sys)) with
            | None => disk (world sys) !! configOutFile l = disk w !! configOutFile l
            | Some cfg =>
                exists bytes,
                  json_Marshal cfg = inl bytes
                  /\ disk (world sys) !! configOutFile l = Some bytes
            end).
  { clear ls Hexec. induction ls as [| lb ls IH]; intros s Hwf1 Ho Hinv; simpl.
    - by intros [= <-].
    - destruct (step lb s) as [s1 |] eqn:Hstep; [| done]. simpl. intros Hex.
      destruct (step_facts _ _ _ Hstep Hwf1) as (Hwf2 & _ & Ho2 & _).
      apply (IH s1 Hwf2); [congruence | | exact Hex].
      destruct (step_debug_file _ _ _ Hstep Hwf1) as
        [(evs & Ht & Hm & Hd) | (cfg & bytes & evs & Ht & Hm & Hmar & Hd)];
        [congruence | | ]; rewrite Ho in Hd; rewrite Ht, last_marshalled_app.
      + rewrite (last_marshalled_none _ Hm). by rewrite Hd.
      + change (EvMarshal cfg :: evs) with ([EvMarshal cfg] ++ evs).
        rewrite last_marshalled_app, (last_marshalled_none _ Hm). simpl.
        by exists bytes. }
  apply (Hgen ls (boot l w configs)); try done. simpl. by rewrite Hnone.
Qed.

End DebugFile.

(* ===================================================================== *)
(** * The model at work                                                   *)
(* ===================================================================== *)

Section Scenarios.
Import demo.

(** ** Two callers of [LoadApplet] *)

(** C1.  Two callers submit [{"x":"1"}] and [{"y":"2"}].  [Run] serves the
    first caller's request with the first configuration; the second
    caller reads [resultsChan] first and returns that Update: the image
    drawn from [{"x":"1"}], out of the cycle the first caller's request
    set off, while the first caller is still waiting.  Served alone, the
    second caller's call returns the image drawn from [{"y":"2"}]. *)
Theorem LoadApplet_race :
  let l := loader_of false (inl hello) hello true 30000 "" in
  caller_after stolen_result (boot l fresh [cfg_x; cfg_y]) 0
    = Some (mkCaller cfg_x SentRequest None)
  /\ caller_after stolen_result (boot l fresh [cfg_x; cfg_y]) 1
     = Some (mkCaller cfg_y (Returned (EncodeToString "RIFF1") None)
               (Some (ByRequest 0)))
  /\ caller_after one_call (boot l fresh [cfg_y]) 0
     = Some (mkCaller cfg_y (Returned (EncodeToString "RIFF2") None)
               (Some (ByRequest 0)))
  /\ EncodeToString "RIFF1" <> EncodeToString "RIFF2".
Proof.
  cbv zeta. split; [vm_compute; reflexivity |].
  split; [vm_compute; reflexivity |]. split; [vm_compute; reflexivity |].
  discriminate.
Qed.

(** C8.  With the debug path [/tmp/config.json]: the first caller submits
    [{"x":"1"}], the second caller's [{"y":"2"}] reaches [Run] before the
    first caller's request is served, and when the first caller's call has
    returned the file holds [{"y":"2"}].  A single call made before [Run]
    reaches its [select] can have its request served ahead of its
    configuration: the file then holds [{}]. *)
Theorem debug_file_race :
  let l := loader_of false (inl hello) hello true 30000 "/tmp/config.json" in
  caller_after overwritten_config (boot l fresh [cfg_x; cfg_y]) 0
    = Some (mkCaller cfg_x (Returned (EncodeToString "RIFF2") None)
              (Some (ByRequest 0)))
  /\ file_after overwritten_config (boot l fresh [cfg_x; cfg_y])
       "/tmp/config.json" = Some json_y
  /\ Marshal_map cfg_x = json_x /\ json_x <> json_y
  /\ caller_after request_first (boot l fresh [cfg_x]) 0
     = Some (mkCaller cfg_x (Returned "" None) (Some (ByRequest 0)))
  /\ file_after request_first (boot l fresh [cfg_x]) "/tmp/config.json"
     = Some "{}".
Proof.
  cbv zeta. split; [vm_compute; reflexivity |].
  split; [vm_compute; reflexivity |]. split; [vm_compute; reflexivity |].
  split; [discriminate |]. split; vm_compute; reflexivity.
Qed.

(** Served in order and alone, the call of the debug-write scenario
    leaves [{"x":"1"}] in the file. *)
Example debug_file_one_call :
  let l := loader_of false (inl hello) hello true 30000 "/tmp/config.json" in
  caller_after one_call (boot l fresh [cfg_x]) 0
    = Some (mkCaller cfg_x (Returned (EncodeToString "RIFF1") None)
              (Some (ByRequest 0)))
  /\ file_after one_call (boot l fresh [cfg_x]) "/tmp/config.json"
     = Some json_x.
Proof. cbv zeta. split; vm_compute; reflexivity. Qed.

(** ** An Update with neither image nor failure *)

(** C2, counterexample.  [LoadApplet] with the empty configuration on a
    script that draws nothing for it: the encoder returns no bytes and no
    error, the call returns the empty image and a nil error, and the
    Update of the cycle has neither an image nor a failure. *)
Lemma empty_image_without_failure :
  let l := loader_of false (inl hello) hello true 30000 "" in
  caller_after one_call (boot l fresh [∅]) 0
    = Some (mkCaller ∅ (Returned "" None) (Some (ByRequest 0)))
  /\ update_after one_call (boot l fresh [∅])
     = Some (mkUpdate "" "webp" "" None)
  /\ ~ exactly_one (mkUpdate "" "webp" "" None).
Proof.
  cbv zeta. split; [vm_compute; reflexivity |].
  split; [vm_compute; reflexivity |].
  intros [[Himg _] | [_ Herr]]; [by apply Himg | by apply Herr].
Qed.

(** ** A timeout too long for [time.Duration] *)

(** C5, counterexample.  With a timeout of 9223372036855 ms the product
    with [time.Millisecond] wraps around: the context is built with a
    negative time, not with 9223372036855 ms, and a run that needs one
    millisecond is cut off as overrunning it. *)
Lemma deadline_wraps_around :
  let l := loader_of false (inl hello) hello true 9223372036855 "" in
  contexts_of (loadApplet l cfg_x fresh)
    = [mkContext (-9223372036854551616)
         (errorString "timeout after 9223372036855ms")]
  /\ -9223372036854551616 <> timeout l * Millisecond
  /\ fst (execute hello cfg_x) = 1 * Millisecond
  /\ 1 * Millisecond < timeout l * Millisecond
  /\ result_of (loadApplet l cfg_x fresh)
     = Some ("", Some (wrapError
                         "error running script: timeout after 9223372036855ms"
                         (errorString "timeout after 9223372036855ms"))).
Proof.
  cbv zeta. split; [vm_compute; reflexivity |].
  split; [vm_compute; discriminate |]. split; [vm_compute; reflexivity |].
  split; vm_compute; reflexivity.
Qed.

(** ** The theorems at concrete inputs *)

Lemma after_Done (c : Case) (s : RunState) (w : World) :
  completes c s w = true ->
  Run_case c s w = Done (fst (after c s w), snd (after c s w)).
Proof.
  unfold completes, after. by destruct (Run_case c s w) as [[s' w'] | |].
Qed.

Lemma run_to_Some (ls : list Label) (sys : Sys) :
  goes_through ls sys = true -> exec ls sys = Some (run_to ls sys).
Proof. unfold goes_through, run_to. by destruct (exec ls sys). Qed.

Lemma outcome_shape_witness :
  let s := mkRun (requested (loader_of false (inl hello) hello true 30000 ""))
             cfg_x in
  let s' := fst (after CaseRequested s fresh) in
  let w' := snd (after CaseRequested s fresh) in
  is_cycle CaseRequested = true /\ gate_wf (ldr s)
  /\ Run_case CaseRequested s fresh = Done (s', w')
  /\ exists up, produced s' = Some up
       /\ ~ (Image up <> "" /\ Err up <> None)
       /\ (Schema up <> "" -> CaseRequested = CaseFile /\ Err up = None).
Proof.
  intros s s' w'. split; [reflexivity |]. split; [reflexivity |].
  assert (Hrun := after_Done CaseRequested s fresh ltac:(vm_compute; reflexivity)).
  split; [exact Hrun |].
  destruct (outcome_shape CaseRequested s fresh s' w' eq_refl eq_refl Hrun)
    as (up & Hp & Hnot & _ & _ & Hsch).
  exists up. split; [exact Hp |]. split; [exact Hnot | exact Hsch].
Defined.

Lemma updateWatcher_events_witness :
  let up := mkUpdate "" "" "" (Some (errorString "syntax error")) in
  let b :=
    browser.mkBrowser (mkChan [up] 100 false) true
      (fanout.NewClient fanout.NewFanout 7%nat) false [] in
  buf (browser.updateChan b) = [up]
  /\ exists b',
       browser.updateWatcher_turn b = Done b'
       /\ buf (browser.updateChan b') = []
       /\ fanout.calls (browser.fo b') =
            [fanout.mkEvent fanout.EventTypeImage "" "webp";
             fanout.mkEvent fanout.EventTypeErr "syntax error" ""]
       /\ fanout.clients (browser.fo b') =
            [(7%nat, [fanout.mkEvent fanout.EventTypeImage "" "webp";
                      fanout.mkEvent fanout.EventTypeErr "syntax error" ""])].
Proof.
  cbv zeta. split; [reflexivity |].
  exact (proj1 (updateWatcher_events (RT := runtime)
                  (browser.mkBrowser
                     (mkChan [mkUpdate "" "" "" (Some (errorString "syntax error"))]
                        100 false)
                     true (fanout.NewClient fanout.NewFanout 7%nat) false [])
                  (mkUpdate "" "" "" (Some (errorString "syntax error"))) []
                  eq_refl)).
Defined.

Lemma ready_gate_released_once_witness :
  let l := loader_of true (inl hello) (mkScript "" 0 None) false 30000 "" in
  let sys := run_to session (boot l fresh [cfg_x]) in
  NewLoader (inl hello) true (make 100) (make 100) 15000 30000 false ""
    (mkWorld ∅ []) = Done (inl l, fresh)
  /\ exec session (boot l fresh [cfg_x]) = Some sys
  /\ (closes (trace (world sys)) <= 1)%nat
  /\ (released (ldr (run sys)) = true <-> closes (trace (world sys)) = 1%nat)
  /\ (released (ldr (run sys)) = true <-> (0 < loads (trace (world sys)))%nat).
Proof.
  intros l sys. split; [reflexivity |].
  assert (Hexec := run_to_Some session (boot l fresh [cfg_x])
                     ltac:(vm_compute; reflexivity)).
  split; [exact Hexec |].
  destruct (ready_gate_released_once (RT := runtime) (inl hello) true
              (make 100) (make 100) 15000 30000 false "" ∅ l fresh [cfg_x]
              session sys eq_refl Hexec)
    as (H1 & H2 & H3 & _).
  split; [exact H1 |]. split; [exact H2 | exact H3].
Defined.

Lemma run_deadline_witness :
  let s := mkRun (requested (loader_of false (inl slow) slow true 50 "")) cfg_x in
  let s' := fst (after CaseRequested s fresh) in
  let w' := snd (after CaseRequested s fresh) in
  is_cycle CaseRequested = true /\ gate_wf (ldr s)
  /\ Run_case CaseRequested s fresh = Done (s', w')
  /\ produced s' =
       Some (mkUpdate "" "" ""
               (Some (wrapError "error running script: timeout after 50ms"
                        (errorString "timeout after 50ms")))).
Proof.
  intros s s' w'. split; [reflexivity |]. split; [reflexivity |].
  assert (Hrun := after_Done CaseRequested s fresh ltac:(vm_compute; reflexivity)).
  split; [exact Hrun |].
  destruct (run_deadline CaseRequested s fresh s' w' eq_refl eq_refl Hrun)
    as (evs & _ & Hev & Hsome).
  destruct (Hsome (or_introl eq_refl)) as (a & ctx & Hin).
  destruct (Hev a ctx cfg_x Hin) as (Ha & _ & Ht & _ & _ & Hover).
  apply Hover. rewrite Ht, Ha. vm_compute. reflexivity.
Defined.

Lemma reload_failure_keeps_applet_witness :
  let l := loader_of true (inr "syntax error") hello false 30000 "" in
  gate_wf l /\ watch l = true
  /\ loadScript "app-id" (fs l) = inr (errorString "syntax error")
  /\ exists l' w',
       loadApplet l cfg_x fresh
         = Done ((l', ("", Some (errorString "syntax error"))), w')
       /\ applet l' = applet l /\ released l' = true.
Proof.
  cbv zeta. split; [reflexivity |]. split; [reflexivity |]. split; [reflexivity |].
  destruct (proj1 (reload_failure_keeps_applet
                     (loader_of true (inr "syntax error") hello false 30000 "")
                     (errorString "syntax error") eq_refl eq_refl eq_refl)
              cfg_x fresh) as (l' & w' & Hl & Ha & Hr & _).
  exists l', w'. split; [exact Hl |]. split; [exact Ha | exact Hr].
Defined.

Lemma config_update_only_replaces_witness :
  let l := set_configChanges (mkChan [cfg_x; cfg_y] 100 false)
             (loader_of false (inl hello) hello true 30000 "") in
  buf (configChanges l) = [cfg_x; cfg_y]
  /\ exists s',
       Run_case CaseConfig (mkRun l ∅) fresh = Done (s', fresh)
       /\ config s' = cfg_x
       /\ updatesChan (ldr s') = updatesChan l
       /\ resultsChan (ldr s') = resultsChan l
       /\ applet (ldr s') = applet l
       /\ initialLoad (ldr s') = initialLoad l.
Proof.
  cbv zeta. split; [reflexivity |].
  destruct (config_update_only_replaces
              (mkRun (set_configChanges (mkChan [cfg_x; cfg_y] 100 false)
                        (loader_of false (inl hello) hello true 30000 "")) ∅)
              fresh cfg_x [cfg_y] eq_refl)
    as (s' & Hrun & Hc & _ & Hu & Hr & Ha & Hi & _).
  exists s'. repeat split; assumption.
Defined.

Lemma websocket_needs_watch_witness :
  let b := browser.NewBrowser false (make 100) false in
  browser.watch b = false
  /\ browser.websocketHandler b (browser.mkRequest (inl 7%nat)) = b.
Proof.
  cbv zeta. split; [reflexivity |].
  exact (proj1 (websocket_needs_watch (browser.NewBrowser false (make 100) false)
                  eq_refl) (browser.mkRequest (inl 7%nat))).
Defined.

Lemma debug_write_failure_is_fatal_witness :
  let s := mkRun (requested (loader_of false (inl hello) hello true 30000
                               "/ro/config.json")) cfg_x in
  gate_wf (ldr s) /\ buf (requestedChanges (ldr s)) <> []
  /\ Run_requestedChanges s fresh =
       Panicked (PanicError
                   (errorString "open /ro/config.json: read-only file system")).
Proof.
  cbv zeta. split; [reflexivity |]. split; [discriminate |].
  refine (proj1 (proj2 (debug_write_failure_is_fatal
            (mkRun (requested (loader_of false (inl hello) hello true 30000
                                 "/ro/config.json")) cfg_x)
            fresh eq_refl _)) json_x _ ltac:(vm_compute; reflexivity) _
            ltac:(vm_compute; reflexivity));
    discriminate.
Defined.

Lemma results_come_from_requests_witness :
  let l := loader_of true (inl hello) (mkScript "" 0 None) false 30000 "" in
  let sys := run_to session (boot l fresh [cfg_x]) in
  NewLoader (inl hello) true (make 100) (make 100) 15000 30000 false ""
    (mkWorld ∅ []) = Done (inl l, fresh)
  /\ exec session (boot l fresh [cfg_x]) = Some sys
  /\ results_on_demand sys /\ ghost_sync sys.
Proof.
  intros l sys. split; [reflexivity |].
  assert (Hexec := run_to_Some session (boot l fresh [cfg_x])
                     ltac:(vm_compute; reflexivity)).
  split; [exact Hexec |].
  destruct (results_come_from_requests (RT := runtime) (inl hello) true
              (make 100) (make 100) 15000 30000 false "" ∅ l fresh [cfg_x]
              session sys eq_refl Hexec)
    as (H1 & H2 & _).
  split; [exact H1 | exact H2].
Defined.

Lemma debug_write_precedes_render_witness :
  let s := mkRun (requested (loader_of false (inl hello) hello true 30000
                               "/tmp/config.json")) cfg_x in
  let s' := fst (after CaseRequested s fresh) in
  let w' := snd (after CaseRequested s fresh) in
  gate_wf (ldr s) /\ configOutFile (ldr s) <> ""
  /\ Run_requestedChanges s fresh = Done (s', w')
  /\ exists bytes evs,
       json_Marshal (config s) = inl bytes
       /\ disk w' = <[configOutFile (ldr s) := bytes]> (disk fresh)
       /\ trace w' = trace fresh ++ EvMarshal (config s)
                       :: EvWriteFile (configOutFile (ldr s)) bytes :: evs
       /\ Forall (fun e => match e with
                           | EvMarshal _ | EvWriteFile _ _ => False
                           | _ => True
                           end) evs.
Proof.
  intros s s' w'. split; [reflexivity |]. split; [discriminate |].
  assert (Hrun := after_Done CaseRequested s fresh ltac:(vm_compute; reflexivity)).
  split; [exact Hrun |].
  exact (debug_write_precedes_render s fresh s' w' eq_refl
           ltac:(discriminate) Hrun).
Defined.

Lemma requested_completes_witness :
  let s := mkRun (requested (loader_of false (inl hello) hello true 30000 ""))
             cfg_x in
  gate_wf (ldr s) /\ buf (requestedChanges (ldr s)) <> []
  /\ json_Marshal (config s) = inl json_x
  /\ closed (updatesChan (ldr s)) = false
  /\ (length (buf (updatesChan (ldr s))) < cap (updatesChan (ldr s)))%nat
  /\ closed (resultsChan (ldr s)) = false
  /\ (length (buf (resultsChan (ldr s))) < cap (resultsChan (ldr s)))%nat
  /\ exists s' w' up,
       Run_case CaseRequested s fresh = Done (s', w')
       /\ produced s' = Some up
       /\ buf (resultsChan (ldr s')) = buf (resultsChan (ldr s)) ++ [up]
       /\ buf (updatesChan (ldr s')) = buf (updatesChan (ldr s)) ++ [up].
Proof.
  intros s.
  assert (Hm : json_Marshal (config s) = inl json_x) by (vm_compute; reflexivity).
  assert (Hu : (length (buf (updatesChan (ldr s))) < cap (updatesChan (ldr s)))%nat)
    by (simpl; lia).
  assert (Hr : (length (buf (resultsChan (ldr s))) < cap (resultsChan (ldr s)))%nat)
    by (simpl; lia).
  split; [reflexivity |]. split; [discriminate |]. split; [exact Hm |].
  split; [reflexivity |]. split; [exact Hu |]. split; [reflexivity |].
  split; [exact Hr |].
  exact (requested_completes s fresh json_x eq_refl ltac:(discriminate) Hm
           (or_introl eq_refl) eq_refl Hu eq_refl Hr).
Defined.

Lemma in_order_call_writes_config_witness :
  let l := loader_of false (inl hello) hello true 30000 "/tmp/config.json" in
  let sys := run_to (in_order 0) (boot l fresh [cfg_x]) in
  gate_wf l /\ configOutFile l <> ""
  /\ buf (configChanges l) = [] /\ buf (resultsChan l) = []
  /\ exec (in_order 0) (boot l fresh [cfg_x]) = Some sys
  /\ exists bytes up,
       json_Marshal cfg_x = inl bytes
       /\ disk (world sys) !! configOutFile l = Some bytes
       /\ produced (run sys) = Some up
       /\ callers sys !! 0%nat =
            Some (mkCaller cfg_x (Returned (Image up) (Err up))
                    (Some (ByRequest 0))).
Proof.
  intros l sys. split; [reflexivity |]. split; [discriminate |].
  split; [reflexivity |]. split; [reflexivity |].
  assert (Hexec := run_to_Some (in_order 0) (boot l fresh [cfg_x])
                     ltac:(vm_compute; reflexivity)).
  split; [exact Hexec |].
  exact (in_order_call_writes_config l fresh cfg_x sys eq_refl
           ltac:(discriminate) eq_refl eq_refl Hexec).
Defined.

(** ** The handlers and the longer schedules at work *)

Lemma imageHandler_status_witness :
  let b := browser.NewBrowser false (make 100) false in
  http.wroteHeader http.NewResponseWriter = false
  /\ exists w',
       browser.imageHandler b (fun _ => Blocked) bad_form http.NewResponseWriter
         = Done w'
       /\ http.status w' = 500 /\ http.sent w' = ∅
       /\ http.body w' = "bad form data" +:+ http.newline.
Proof.
  cbv zeta. split; [reflexivity |].
  exact (proj1 (imageHandler_status (browser.NewBrowser false (make 100) false)
                  (fun _ => Blocked) bad_form http.NewResponseWriter eq_refl)
           (errorString "invalid URL escape") eq_refl).
Defined.

Lemma previewHandler_reports_failure_in_body_witness :
  let b := browser.NewBrowser false (make 100) false in
  let failure := wrapError "error running script: boom" (errorString "boom") in
  let LoadApplet := fun _ : Config => Done ("", Some failure) in
  http.wroteHeader http.NewResponseWriter = false
  /\ browser.ParseMultipartForm get_x = None
  /\ browser.form_config (browser.Form get_x) = Done cfg_x
  /\ exists w' data,
       browser.previewHandler b "Pixlet" LoadApplet get_x http.NewResponseWriter
         = Done w'
       /\ http.status w' = 200
       /\ http.sent w' !! "Content-Type" = Some "application/json"
       /\ http.body w' = browser.Marshal_previewData data
       /\ browser.Image data = ""
       /\ browser.Err data = "error running script: boom".
Proof.
  intros b failure LoadApplet.
  assert (Hcfg : browser.form_config (browser.Form get_x) = Done cfg_x)
    by (vm_compute; reflexivity).
  split; [reflexivity |]. split; [reflexivity |]. split; [exact Hcfg |].
  destruct (proj2 (previewHandler_reports_failure_in_body b "Pixlet" LoadApplet
                     get_x http.NewResponseWriter eq_refl)
              cfg_x "" (Some failure) eq_refl Hcfg eq_refl)
    as (w' & data & Hrun & Hst & Hct & Hbody & _ & Himg & _ & Herr & _).
  exists w', data. repeat split; assumption.
Defined.

(** The quoting of a title or an error text beyond ASCII: the bytes of a
    rune are copied, U+2028 is escaped, and each byte that does not begin
    a well-formed encoding is replaced. *)
Example escape_beyond_ascii :
  let b := fun n => String (ascii_of_N n) "" in
  Go.escape (b 195 +:+ b 169)%N = (b 195 +:+ b 169)%N
  /\ Go.escape (b 226 +:+ b 128 +:+ b 168)%N = "\u2028"
  /\ Go.escape (b 255 +:+ "a")%N = "\ufffda"
  /\ Go.escape (b 226 +:+ b 128)%N = "\ufffd\ufffd".
Proof. intros b. repeat split; vm_compute; reflexivity. Qed.

Lemma imageHandler_serves_encoder_bytes_witness :
  let b := browser.NewBrowser false (make 100) false in
  let s := mkRun (requested (loader_of false (inl hello) hello true 30000 ""))
             cfg_x in
  let s' := fst (after CaseRequested s fresh) in
  let w' := snd (after CaseRequested s fresh) in
  gate_wf (ldr s)
  /\ Run_case CaseRequested s fresh = Done (s', w')
  /\ browser.ParseForm get_x = None
  /\ browser.form_config (browser.Form get_x) = Done cfg_x
  /\ http.wroteHeader http.NewResponseWriter = false
  /\ exists up rw',
       produced s' = Some up
       /\ browser.imageHandler b (fun _ => Done (Image up, Err up)) get_x
            http.NewResponseWriter = Done rw'
       /\ (Err up = None ->
           exists screens bytes,
             encoded (ldr s) screens = inl bytes
             /\ http.status rw' = 200
             /\ http.body rw' = bytes
             /\ http.sent rw' !! "Content-Type" = Some "image/webp").
Proof.
  intros b s s' w'.
  assert (Hrun := after_Done CaseRequested s fresh ltac:(vm_compute; reflexivity)).
  assert (Hcfg : browser.form_config (browser.Form get_x) = Done cfg_x)
    by (vm_compute; reflexivity).
  split; [reflexivity |]. split; [exact Hrun |]. split; [reflexivity |].
  split; [exact Hcfg |]. split; [reflexivity |].
  destruct (requested_cycle_result s fresh s' w' eq_refl Hrun) as (up & Hp & _).
  destruct (imageHandler_serves_encoder_bytes b get_x cfg_x s s' fresh w' up
              http.NewResponseWriter eq_refl Hrun Hp eq_refl Hcfg eq_refl)
    as (rw' & Hh & Hok & _).
  exists up, rw'. split; [exact Hp |]. split; [exact Hh | exact Hok].
Defined.

Lemma non_watch_loads_once_witness :
  let l := loader_of false (inl hello) hello true 30000 "" in
  let sys := run_to session (boot l loaded_once [cfg_x]) in
  NewLoader (inl hello) false (make 100) (make 100) 15000 30000 false ""
    (mkWorld ∅ []) = Done (inl l, loaded_once)
  /\ exec session (boot l loaded_once [cfg_x]) = Some sys
  /\ applet (ldr (run sys)) = applet l
  /\ filter (fun e => is_load e = true) (trace (world sys))
     = [EvLoadScript "app-id" (inl hello)].
Proof.
  intros l sys. split; [reflexivity |].
  assert (Hexec := run_to_Some session (boot l loaded_once [cfg_x])
                     ltac:(vm_compute; reflexivity)).
  split; [exact Hexec |].
  exact (proj2 (non_watch_loads_once (RT := runtime) (inl hello) (make 100)
                  (make 100) 15000 30000 false "" ∅ l loaded_once [cfg_x]
                  session sys eq_refl Hexec)).
Defined.

Lemma watch_reloads_every_cycle_witness :
  let l := loader_of true (inl hello) (mkScript "" 0 None) false 30000 "" in
  let sys := run_to session (boot l fresh [cfg_x]) in
  gate_wf l /\ watch l = true
  /\ exec session (boot l fresh [cfg_x]) = Some sys
  /\ halted sys = None
  /\ loads (trace (world sys)) = 3%nat.
Proof.
  intros l sys. split; [reflexivity |]. split; [reflexivity |].
  assert (Hexec := run_to_Some session (boot l fresh [cfg_x])
                     ltac:(vm_compute; reflexivity)).
  assert (Hh : halted sys = None) by (vm_compute; reflexivity).
  split; [exact Hexec |]. split; [exact Hh |].
  exact (watch_reloads_every_cycle l fresh [cfg_x] session sys eq_refl eq_refl
           Hexec Hh).
Defined.

Lemma only_debug_file_written_witness :
  let l := loader_of false (inl hello) hello true 30000 "/tmp/config.json" in
  let sys := run_to session (boot l with_motd [cfg_x]) in
  gate_wf l
  /\ exec session (boot l with_motd [cfg_x]) = Some sys
  /\ disk (world sys) !! "/etc/motd" = Some "hello".
Proof.
  intros l sys. split; [reflexivity |].
  assert (Hexec := run_to_Some session (boot l with_motd [cfg_x])
                     ltac:(vm_compute; reflexivity)).
  split; [exact Hexec |].
  exact (proj1 (only_debug_file_written l with_motd [cfg_x] session sys eq_refl
                  Hexec) "/etc/motd" ltac:(discriminate)).
Defined.

Lemma results_conserved_witness :
  let l := loader_of true (inl hello) (mkScript "" 0 None) false 30000 "" in
  let sys := run_to session (boot l fresh [cfg_x]) in
  NewLoader (inl hello) true (make 100) (make 100) 15000 30000 false ""
    (mkWorld ∅ []) = Done (inl l, fresh)
  /\ exec session (boot l fresh [cfg_x]) = Some sys
  /\ halted sys = None
  /\ (length (filter (fun c => returned c = true) (callers sys))
      + length (buf (resultsChan (ldr (run sys))))
      = marshals (trace (world sys)))%nat
  /\ (length (filter (fun c => requesting c = true) (callers sys))
      = marshals (trace (world sys))
        + length (buf (requestedChanges (ldr (run sys)))))%nat
  /\ marshals (trace (world sys)) = requests_served session.
Proof.
  intros l sys. split; [reflexivity |].
  assert (Hexec := run_to_Some session (boot l fresh [cfg_x])
                     ltac:(vm_compute; reflexivity)).
  assert (Hh : halted sys = None) by (vm_compute; reflexivity).
  split; [exact Hexec |]. split; [exact Hh |].
  exact (results_conserved (RT := runtime) (inl hello) true
           (make 100) (make 100) 15000 30000 false "" ∅ l fresh [cfg_x]
           session sys eq_refl Hexec Hh).
Defined.


Lemma GetSchema_after_reload_witness :
  let s := mkRun (changed (loader_of true (inl hello) (mkScript "" 0 None) false
                             30000 "")) cfg_x in
  let s' := fst (after CaseFile s fresh) in
  let w' := snd (after CaseFile s fresh) in
  gate_wf (ldr s) /\ watch (ldr s) = true
  /\ Run_case CaseFile s fresh = Done (s', w')
  /\ exists up bytes,
       produced s' = Some up
       /\ GetSchema (ldr s') = Done (ldr s', bytes)
       /\ (Err up = None ->
           bytes = (if (0 <? String.length (Schema up))%nat then Schema up
                    else Schema_zero_json)).
Proof.
  intros s s' w'. split; [reflexivity |]. split; [reflexivity |].
  assert (Hrun := after_Done CaseFile s fresh ltac:(vm_compute; reflexivity)).
  split; [exact Hrun |].
  destruct (cycle_inv CaseFile s fresh s' w' eq_refl eq_refl Hrun)
    as (_ & _ & l1 & img & e & _ & _ & _ & _ & _ & _ & _ & Hp).
  destruct (GetSchema_after_reload s fresh s' w' _ eq_refl (or_introl eq_refl)
              Hrun Hp) as (bytes & Hg & Hok & _).
  eexists _, bytes. split; [exact Hp |]. split; [exact Hg | exact Hok].
Defined.

Lemma image_type_matches_encoder_witness :
  let s := mkRun (requested (loader_of false (inl hello) hello true 30000 ""))
             cfg_x in
  let s' := fst (after CaseRequested s fresh) in
  let w' := snd (after CaseRequested s fresh) in
  is_cycle CaseRequested = true /\ gate_wf (ldr s)
  /\ Run_case CaseRequested s fresh = Done (s', w')
  /\ exists up evs,
       produced s' = Some up
       /\ trace w' = trace fresh ++ evs
       /\ (length (filter (fun e => is_encode e = true) evs) <= 1)%nat
       /\ (Err up = None ->
           exists cap bytes roots,
             EvEncode (renderGif (ldr s)) cap ∈ evs
             /\ RunWithConfig (applet (ldr s')) (deadline (ldr s)) (config s)
                  = inl roots
             /\ (if renderGif (ldr s) then EncodeGIF else EncodeWebP)
                  (ScreensFromRoots roots) cap = inl bytes
             /\ Image up = EncodeToString bytes
             /\ ImageType up = (if renderGif (ldr s) then "gif" else "webp")).
Proof.
  intros s s' w'. split; [reflexivity |]. split; [reflexivity |].
  assert (Hrun := after_Done CaseRequested s fresh ltac:(vm_compute; reflexivity)).
  split; [exact Hrun |].
  destruct (requested_cycle_result s fresh s' w' eq_refl Hrun) as (up & Hp & _).
  destruct (image_type_matches_encoder CaseRequested s fresh s' w' up eq_refl
              eq_refl Hrun Hp) as (evs & Ht & Hn & _ & Hok).
  exists up, evs. split; [exact Hp |]. split; [exact Ht |].
  split; [exact Hn | exact Hok].
Defined.

Lemma failure_provenance_witness :
  let s := mkRun (requested (loader_of false (inl broken) broken true 30000 ""))
             cfg_x in
  let s' := fst (after CaseRequested s fresh) in
  let w' := snd (after CaseRequested s fresh) in
  let e := wrapError "error running script: boom" (errorString "boom") in
  let up := mkUpdate "" "" "" (Some e) in
  is_cycle CaseRequested = true /\ gate_wf (ldr s)
  /\ Run_case CaseRequested s fresh = Done (s', w')
  /\ produced s' = Some up /\ Err up = Some e
  /\ ((watch (ldr s) = true /\ loadScript "app-id" (fs (ldr s)) = inr e
       /\ applet (ldr s') = applet (ldr s))
      \/ (exists cause,
            RunWithConfig (applet (ldr s')) (deadline (ldr s)) (config s)
              = inr cause
            /\ Unwrap e = Some cause
            /\ Error e = "error running script: " +:+ Error cause)
      \/ (exists roots cause,
            RunWithConfig (applet (ldr s')) (deadline (ldr s)) (config s)
              = inl roots
            /\ encoded (ldr s) (ScreensFromRoots roots) = inr cause
            /\ Unwrap e = Some cause
            /\ Error e = "error rendering: " +:+ Error cause)).
Proof.
  intros s s' w' e up. split; [reflexivity |]. split; [reflexivity |].
  assert (Hrun := after_Done CaseRequested s fresh ltac:(vm_compute; reflexivity)).
  assert (Hp : produced s' = Some up) by (vm_compute; reflexivity).
  split; [exact Hrun |]. split; [exact Hp |]. split; [reflexivity |].
  exact (failure_provenance CaseRequested s fresh s' w' up e eq_refl eq_refl
           Hrun Hp eq_refl).
Defined.

Lemma event_type_agrees_with_update_witness :
  let s := mkRun (requested (loader_of false (inl hello) hello true 30000 ""))
             cfg_x in
  let s' := fst (after CaseRequested s fresh) in
  let w' := snd (after CaseRequested s fresh) in
  is_cycle CaseRequested = true /\ gate_wf (ldr s)
  /\ Run_case CaseRequested s fresh = Done (s', w')
  /\ exists up,
       produced s' = Some up
       /\ let b := browser.mkBrowser (mkChan [up] 100 false) true
                     fanout.NewFanout true [] in
          buf (browser.updateChan b) = [up]
          /\ exists b' ev later,
               browser.updateWatcher_turn b = Done b'
               /\ fanout.calls (browser.fo b')
                  = fanout.calls (browser.fo b) ++ ev :: later
               /\ fanout.Message ev = Image up
               /\ (Err up = None ->
                   (fanout.ImageType ev = ImageType up
                    <-> browser.serveGif b = renderGif (ldr s))).
Proof.
  intros s s' w'. split; [reflexivity |]. split; [reflexivity |].
  assert (Hrun := after_Done CaseRequested s fresh ltac:(vm_compute; reflexivity)).
  split; [exact Hrun |].
  destruct (requested_cycle_result s fresh s' w' eq_refl Hrun) as (up & Hp & _).
  exists up. split; [exact Hp |]. cbv zeta. split; [reflexivity |].
  destruct (event_type_agrees_with_update
              (browser.mkBrowser (mkChan [up] 100 false) true fanout.NewFanout
                 true [])
              CaseRequested s fresh s' w' up [] eq_refl eq_refl Hrun Hp eq_refl)
    as (b' & ev & later & Ht & Hc & _ & Hm & Hok & _).
  exists b', ev, later. split; [exact Ht |]. split; [exact Hc |].
  split; [exact Hm | exact Hok].
Defined.

Lemma schema_handlers_wait_for_gate_witness :
  let pending := loader_of true (inl hello) (mkScript "" 0 None) false 30000 "" in
  gate_wf pending
  /\ http.wroteHeader http.NewResponseWriter = false
  /\ (browser.schemaHandler pending http.NewResponseWriter = Blocked
      <-> released pending = false)
  /\ browser.PathValue_handler get_x = ""
  /\ exists w',
       browser.schemaHandlerHandler pending get_x http.NewResponseWriter
         = Done (pending, w')
       /\ http.status w' = 404
       /\ http.body w' = "no handler" +:+ http.newline.
Proof.
  intros pending. split; [reflexivity |]. split; [reflexivity |].
  destruct (schema_handlers_wait_for_gate pending get_x http.NewResponseWriter
              eq_refl eq_refl) as (H1 & _ & H3 & _).
  split; [exact H1 |]. split; [reflexivity | exact (H3 eq_refl)].
Defined.

Lemma every_cycle_announces_one_update_witness :
  let l := loader_of true (inl hello) (mkScript "" 0 None) false 30000 "" in
  let sys := run_to session (boot l fresh [cfg_x]) in
  gate_wf l
  /\ exec session (boot l fresh [cfg_x]) = Some sys
  /\ halted sys = None
  /\ exists ups,
       buf (updatesChan (ldr (run sys))) = buf (updatesChan l) ++ ups
       /\ length ups = 3%nat.
Proof.
  intros l sys. split; [reflexivity |].
  assert (Hexec := run_to_Some session (boot l fresh [cfg_x])
                     ltac:(vm_compute; reflexivity)).
  assert (Hh : halted sys = None) by (vm_compute; reflexivity).
  split; [exact Hexec |]. split; [exact Hh |].
  exact (proj1 (proj2 (every_cycle_announces_one_update l fresh [cfg_x] session
                         sys eq_refl Hexec Hh))).
Defined.


Lemma in_order_call_returns_witness :
  let l := loader_of false (inl hello) hello true 30000 "/tmp/config.json" in
  NewLoader (inl hello) false (make 100) (make 100) 15000 30000 false
    "/tmp/config.json" (mkWorld ∅ []) = Done (inl l, loaded_once)
  /\ json_Marshal cfg_x = inl json_x
  /\ WriteFile_error ∅ "/tmp/config.json" = None
  /\ closed (make 100 : chan Update) = false
  /\ (length (buf (make 100 : chan Update)) < cap (make 100 : chan Update))%nat
  /\ exists sys up,
       exec (in_order 0) (boot l loaded_once [cfg_x]) = Some sys
       /\ halted sys = None
       /\ callers sys !! 0%nat
          = Some (mkCaller cfg_x (Returned (Image up) (Err up))
                    (Some (ByRequest 0)))
       /\ buf (updatesChan (ldr (run sys))) = [up]
       /\ buf (resultsChan (ldr (run sys))) = [].
Proof.
  intros l.
  assert (Hm : json_Marshal cfg_x = inl json_x) by (vm_compute; reflexivity).
  assert (Hroom : (length (buf (make 100 : chan Update))
                   < cap (make 100 : chan Update))%nat) by (simpl; lia).
  split; [reflexivity |]. split; [exact Hm |]. split; [reflexivity |].
  split; [reflexivity |]. split; [exact Hroom |].
  exact (in_order_call_returns (RT := runtime) (inl hello) false (make 100)
           (make 100) 15000 30000 false "/tmp/config.json" ∅ l loaded_once cfg_x
           json_x eq_refl Hm (or_intror eq_refl) eq_refl Hroom).
Defined.
Lemma Run_panics_only_on_debug_write_witness :
  let l := loader_of false (inl hello) hello true 30000 "/ro/config.json" in
  let ls := [Send_config 0; Send_request 0; Select CaseRequested]%nat in
  let sys := run_to ls (boot l loaded_once [cfg_x]) in
  let e := errorString "open /ro/config.json: read-only file system" in
  NewLoader (inl hello) false (make 100) (make 100) 15000 30000 false
    "/ro/config.json" (mkWorld ∅ []) = Done (inl l, loaded_once)
  /\ closed (make 100 : chan Update) = false
  /\ exec ls (boot l loaded_once [cfg_x]) = Some sys
  /\ halted sys = Some (PanicError e)
  /\ exists ls' e',
       ls = ls' ++ [Select CaseRequested] /\ PanicError e = PanicError e'
       /\ (json_Marshal (config (run sys)) = inr e'
           \/ ("/ro/config.json" <> ""
               /\ WriteFile_error (disk (world sys)) "/ro/config.json" = Some e')).
Proof.
  intros l ls sys e.
  assert (Hexec := run_to_Some ls (boot l loaded_once [cfg_x])
                     ltac:(vm_compute; reflexivity)).
  assert (Hp : halted sys = Some (PanicError e)) by (vm_compute; reflexivity).
  split; [reflexivity |]. split; [reflexivity |]. split; [exact Hexec |].
  split; [exact Hp |].
  exact (Run_panics_only_on_debug_write (RT := runtime) (inl hello) false
           (make 100) (make 100) 15000 30000 false "/ro/config.json" ∅ l
           loaded_once [cfg_x] ls sys (PanicError e) eq_refl eq_refl Hexec Hp).
Defined.

Lemma debug_file_tracks_last_request_witness :
  let l := loader_of true (inl hello) (mkScript "" 0 None) false 30000
             "/tmp/config.json" in
  let sys := run_to session (boot l fresh [cfg_x]) in
  gate_wf l /\ "/tmp/config.json" <> "" /\ last_marshalled (trace fresh) = None
  /\ exec session (boot l fresh [cfg_x]) = Some sys
  /\ halted sys = None
  /\ last_marshalled (trace (world sys)) = Some cfg_x
  /\ exists bytes,
       json_Marshal cfg_x = inl bytes
       /\ disk (world sys) !! "/tmp/config.json" = Some bytes.
Proof.
  intros l sys.
  assert (Hexec := run_to_Some session (boot l fresh [cfg_x])
                     ltac:(vm_compute; reflexivity)).
  assert (Hlast : last_marshalled (trace (world sys)) = Some cfg_x)
    by (vm_compute; reflexivity).
  split; [reflexivity |]. split; [discriminate |]. split; [reflexivity |].
  assert (Hh : halted sys = None) by (vm_compute; reflexivity).
  split; [exact Hexec |]. split; [exact Hh |]. split; [exact Hlast |].
  pose proof (debug_file_tracks_last_request (RT := runtime) l fresh [cfg_x]
                session sys eq_refl ltac:(discriminate) eq_refl Hexec Hh) as H.
  rewrite Hlast in H. exact H.
Defined.

End Scenarios.
